(** * linux_monitor: the differential metrics samplers and the snapshot cache

    A shallow embedding of the collector ([linux_monitor/src]) and of the
    server-side cache ([rpc_manager/server/rpc_manager.h]).

    - text sources are strings, read through [ReadFile.ReadLine];
    - [int64_t] values are [Z] with the two's complement wrap written out;
    - [float] and [double] values are IEEE 754 binary32 and binary64 numbers
      ([SpecFloat.spec_float]) with round-to-nearest-even operations;
    - the history maps ([std::unordered_map<std::string, T>]) are
      [gmap string T];
    - a call either returns, throws a C++ exception, or has undefined
      behaviour (an unchecked [operator[]] out of bounds, [pop_back] on an
      empty string): the [Outcome] monad. *)

From Stdlib Require Import ZArith Ascii String List Bool Lia.
From Stdlib Require Import Floats.SpecFloat.
From stdpp Require Import base option list strings gmap fin_maps.

Local Open Scope Z_scope.

(** ** Outcomes of a call *)

Inductive Exn : Type :=
| invalid_argument   (* std::invalid_argument: no conversion could be done *)
| out_of_range.      (* std::out_of_range: the value does not fit *)

Inductive Outcome (A : Type) : Type :=
| Ok (a : A)
| Throw (e : Exn)
| Undefined.
Arguments Ok {A} a.
Arguments Throw {A} e.
Arguments Undefined {A}.

Definition obind {A B} (m : Outcome A) (k : A → Outcome B) : Outcome B :=
  match m with
  | Ok a => k a
  | Throw e => Throw e
  | Undefined => Undefined
  end.

Notation "x <- m ;; k" := (obind m (fun x => k))
  (at level 100, m at next level, right associativity).

Definition returns {A} (m : Outcome A) : Prop := ∃ a, m = Ok a.

(** [v[i]] on a [std::vector]: unchecked, undefined out of bounds. *)
Definition vec_at {A} (v : list A) (i : nat) : Outcome A :=
  match v !! i with
  | Some x => Ok x
  | None => Undefined
  end.

(** ** 64-bit integers *)

Definition LLONG_MIN : Z := - 2 ^ 63.
Definition LLONG_MAX : Z := 2 ^ 63 - 1.

(** The value an [int64_t] holds after an operation whose mathematical
    result is [z] (two's complement wrap-around). *)
Definition wrap64 (z : Z) : Z := (z + 2 ^ 63) mod 2 ^ 64 - 2 ^ 63.

Definition sub64 (a b : Z) : Z := wrap64 (a - b).

(** ** Characters and strings *)

Definition char_code (c : ascii) : Z := Z.of_N (N_of_ascii c).

(** [isspace] in the "C" locale: space, \t, \n, \v, \f, \r. *)
Definition isspace (c : ascii) : bool :=
  let n := char_code c in (n =? 32) || ((9 <=? n) && (n <=? 13)).

Definition isdigit (c : ascii) : bool :=
  let n := char_code c in (48 <=? n) && (n <=? 57).

Definition digit_val (c : ascii) : Z := char_code c - 48.

Definition newline : ascii := ascii_of_N 10.
Definition colon : ascii := ascii_of_N 58.

Definition ascii_eqb (a b : ascii) : bool := Ascii.eqb a b.

(** [s.find(c)]: the index of the first occurrence of [c] in [s]. *)
Fixpoint find_index (c : ascii) (s : string) : option nat :=
  match s with
  | EmptyString => None
  | String a s' =>
      if ascii_eqb a c then Some O
      else match find_index c s' with
           | Some i => Some (S i)
           | None => None
           end
  end.

(** [s.find(pat) != npos]: [pat] occurs in [s]. *)
Fixpoint str_contains (pat s : string) : bool :=
  String.prefix pat s ||
  match s with
  | EmptyString => false
  | String _ s' => str_contains pat s'
  end.

(** [s.pop_back()]: undefined on the empty string. *)
Fixpoint drop_last (s : string) : string :=
  match s with
  | EmptyString => EmptyString
  | String a EmptyString => EmptyString
  | String a s' => String a (drop_last s')
  end.

Definition pop_back (s : string) : Outcome string :=
  match s with
  | EmptyString => Undefined
  | _ => Ok (drop_last s)
  end.

(** ** [std::stoll] (base 10)

    Skips leading white space, reads an optional sign and the longest run
    of digits; throws [invalid_argument] when there is no digit and
    [out_of_range] when the value does not fit an [int64_t]. *)

Fixpoint skip_space (s : string) : string :=
  match s with
  | String c s' => if isspace c then skip_space s' else s
  | EmptyString => EmptyString
  end.

Fixpoint read_digits (acc : Z) (s : string) : Z :=
  match s with
  | String c s' => if isdigit c then read_digits (10 * acc + digit_val c) s' else acc
  | EmptyString => acc
  end.

Definition starts_with_digit (s : string) : bool :=
  match s with
  | String c _ => isdigit c
  | EmptyString => false
  end.

Definition stoll (str : string) : Outcome Z :=
  let s := skip_space str in
  let '(neg, s1) :=
    match s with
    | String c r =>
        if ascii_eqb c "-" then (true, r)
        else if ascii_eqb c "+" then (false, r)
        else (false, s)
    | EmptyString => (false, s)
    end in
  if starts_with_digit s1 then
    let v := read_digits 0 s1 in
    let v := if neg then - v else v in
    if (LLONG_MIN <=? v) && (v <=? LLONG_MAX) then Ok v else Throw out_of_range
  else Throw invalid_argument.

(** ** Floating point: binary32 ([float]) and binary64 ([double]) *)

Module F32.
Definition prec : Z := 24.
Definition emax : Z := 128.
Definition t := spec_float.
Definition of_Z (z : Z) : t := binary_normalize prec emax z 0 false.
Definition add : t → t → t := SFadd prec emax.
Definition sub : t → t → t := SFsub prec emax.
Definition div : t → t → t := SFdiv prec emax.
Definition zero : t := S754_zero false.
End F32.

Module F64.
Definition prec : Z := 53.
Definition emax : Z := 1024.
Definition t := spec_float.
Definition of_Z (z : Z) : t := binary_normalize prec emax z 0 false.
Definition mul : t → t → t := SFmul prec emax.
Definition div : t → t → t := SFdiv prec emax.
End F64.

(** Conversions between the two formats: the value is re-rounded to the
    target format (exact from [float] to [double]). *)
Definition round_to (prec emax : Z) (x : spec_float) : spec_float :=
  match x with
  | S754_finite s m e => binary_normalize prec emax (cond_Zopp s (Zpos m)) e s
  | _ => x
  end.

Definition double_of_float (x : F32.t) : F64.t := round_to F64.prec F64.emax x.
Definition float_of_double (x : F64.t) : F32.t := round_to F32.prec F32.emax x.

(** [x > 0] with [x] a [double] or a [float]: false on NaN. *)
Definition gt0 (x : spec_float) : bool := SFltb (S754_zero false) x.

(** ** [monitor::ReadFile] (utils/read_file.cpp) *)

Module ReadFile.

(** The stream [ifs_]: [None] when it could not be opened (or has
    failed), otherwise the characters not yet read. *)
Definition ifstream : Type := option string.

(** [std::getline]: the characters up to the first newline, and what is
    left after it; [None] for the rest when the end of the stream was hit
    before a newline (the stream is then at [eof]). *)
Fixpoint getline (s : string) : string * option string :=
  match s with
  | EmptyString => (EmptyString, None)
  | String c s' =>
      if ascii_eqb c newline then (EmptyString, Some s')
      else let '(line, rest) := getline s' in (String c line, rest)
  end.

(** The loop [while (!line_ss.eof()) { line_ss >> word; push_back(word); }].
    [cur] is [None] while [>>] skips white space and [Some w] while it
    reads the word [w].  Hitting the end of the line while skipping makes
    the extraction fail with [word] empty, which is pushed all the same. *)
Fixpoint split_ws (cur : option string) (s : string) : list string :=
  match s with
  | EmptyString =>
      match cur with
      | None => [EmptyString]
      | Some w => [w]
      end
  | String c s' =>
      if isspace c then
        match cur with
        | None => split_ws None s'
        | Some w => w :: split_ws None s'
        end
      else
        match cur with
        | None => split_ws (Some (String c EmptyString)) s'
        | Some w => split_ws (Some (w +:+ String c EmptyString)) s'
        end
  end.

Definition is_empty (s : string) : bool :=
  match s with EmptyString => true | _ => false end.

(** [ReadLine]: [None] stands for [return false]. *)
Definition ReadLine (ifs_ : ifstream) : option (list string) * ifstream :=
  match ifs_ with
  | None => (None, None)
  | Some s =>
      match getline s with
      | (line, None) => (None, None)
      | (line, Some rest) =>
          if is_empty line then (None, Some rest)
          else (Some (split_ws None line), Some rest)
      end
  end.

(** The records a loop [while (f.ReadLine(&args)) { ...; args.clear(); }]
    sees, in order: [acc] is the line read so far. *)
Fixpoint records_from (acc : option string) (s : string) : list (list string) :=
  match s with
  | EmptyString => []
  | String c s' =>
      if ascii_eqb c newline then
        match acc with
        | None => []
        | Some line => split_ws None line :: records_from None s'
        end
      else
        match acc with
        | None => records_from (Some (String c EmptyString)) s'
        | Some line => records_from (Some (line +:+ String c EmptyString)) s'
        end
  end.

Definition ReadAll (ifs_ : ifstream) : list (list string) :=
  match ifs_ with
  | None => []
  | Some s => records_from None s
  end.

(** The file system seen by one tick: path to contents. *)
Definition open (fs : gmap string string) (name : string) : ifstream := fs !! name.

End ReadFile.

(** ** [Utils::SteadyTimeSecond] (utils/utils.h)

    A [steady_clock::time_point] counts nanoseconds in an [int64_t]; the
    difference is converted to [std::chrono::duration<double>], that is
    divided by [1e9] as a [double]. *)
Module Utils.
Definition SteadyTimeSecond (t1 t2 : Z) : F64.t :=
  F64.div (F64.of_Z (sub64 t1 t2)) (F64.of_Z 1000000000).
End Utils.

(** ** The snapshot message [monitor::proto::MonitorInfo]

    The generated protobuf classes are used through their accessors only;
    each field of the model holds the value the collector passes to the
    setter.  A message that was added and never written has its default
    value: empty strings, zeros, empty lists, absent sub-messages. *)
Module proto.

Module CpuLoad.
Record t : Type := mk
  { load_avg_1 : spec_float; load_avg_3 : spec_float; load_avg_15 : spec_float }.
End CpuLoad.

Module CpuStat.
Record t : Type := mk
  { cpu_name : string;
    cpu_percent : spec_float;
    usr_percent : spec_float;
    system_percent : spec_float;
    nice_percent : spec_float;
    idle_percent : spec_float;
    io_wait_percent : spec_float;
    irq_percent : spec_float;
    soft_irq_percent : spec_float }.
Definition default : t :=
  mk EmptyString F32.zero F32.zero F32.zero F32.zero F32.zero F32.zero
     F32.zero F32.zero.
End CpuStat.

Module SoftIrq.
Record t : Type := mk
  { cpu : string;
    hi : spec_float;
    timer : spec_float;
    net_tx : spec_float;
    net_rx : spec_float;
    block : spec_float;
    irq_poll : spec_float;
    tasklet : spec_float;
    sched : spec_float;
    hrtimer : spec_float;
    rcu : spec_float }.
End SoftIrq.

Module MemInfo.
Record t : Type := mk
  { used_percent : spec_float;
    total : spec_float;
    free : spec_float;
    avail : spec_float;
    buffers : spec_float;
    cached : spec_float;
    swap_cached : spec_float;
    active : spec_float;
    inactive : spec_float;
    active_anon : spec_float;
    inactive_anon : spec_float;
    active_file : spec_float;
    inactive_file : spec_float;
    dirty : spec_float;
    writeback : spec_float;
    anon_pages : spec_float;
    mapped : spec_float;
    kreclaimable : spec_float;
    sreclaimable : spec_float;
    sunreclaim : spec_float }.
End MemInfo.

Module NetInfo.
Record t : Type := mk
  { name : string;
    send_rate : spec_float;
    rcv_rate : spec_float;
    send_packets_rate : spec_float;
    rcv_packets_rate : spec_float }.
End NetInfo.

Record MonitorInfo : Type := mkMonitorInfo
  { name : string;
    soft_irq : list SoftIrq.t;
    cpu_load : option CpuLoad.t;
    cpu_stat : list CpuStat.t;
    mem_info : option MemInfo.t;
    net_info : list NetInfo.t }.

(** The default-constructed message, also the result of [Clear()]. *)
Definition empty : MonitorInfo := mkMonitorInfo EmptyString [] None [] None [].

Definition Clear (m : MonitorInfo) : MonitorInfo := empty.

Definition set_name (s : string) (m : MonitorInfo) : MonitorInfo :=
  mkMonitorInfo s (soft_irq m) (cpu_load m) (cpu_stat m) (mem_info m) (net_info m).

Definition add_soft_irq (r : SoftIrq.t) (m : MonitorInfo) : MonitorInfo :=
  mkMonitorInfo (name m) (soft_irq m ++ [r]) (cpu_load m) (cpu_stat m)
                (mem_info m) (net_info m).

Definition set_cpu_load (r : CpuLoad.t) (m : MonitorInfo) : MonitorInfo :=
  mkMonitorInfo (name m) (soft_irq m) (Some r) (cpu_stat m) (mem_info m) (net_info m).

Definition add_cpu_stat (r : CpuStat.t) (m : MonitorInfo) : MonitorInfo :=
  mkMonitorInfo (name m) (soft_irq m) (cpu_load m) (cpu_stat m ++ [r])
                (mem_info m) (net_info m).

Definition set_mem_info (r : MemInfo.t) (m : MonitorInfo) : MonitorInfo :=
  mkMonitorInfo (name m) (soft_irq m) (cpu_load m) (cpu_stat m) (Some r) (net_info m).

Definition add_net_info (r : NetInfo.t) (m : MonitorInfo) : MonitorInfo :=
  mkMonitorInfo (name m) (soft_irq m) (cpu_load m) (cpu_stat m) (mem_info m)
                (net_info m ++ [r]).

(** Several records added one after the other. *)
Definition append_soft_irq (l : list SoftIrq.t) (m : MonitorInfo) : MonitorInfo :=
  mkMonitorInfo (name m) (soft_irq m ++ l) (cpu_load m) (cpu_stat m)
                (mem_info m) (net_info m).

Definition append_cpu_stat (l : list CpuStat.t) (m : MonitorInfo) : MonitorInfo :=
  mkMonitorInfo (name m) (soft_irq m) (cpu_load m) (cpu_stat m ++ l)
                (mem_info m) (net_info m).

Definition append_net_info (l : list NetInfo.t) (m : MonitorInfo) : MonitorInfo :=
  mkMonitorInfo (name m) (soft_irq m) (cpu_load m) (cpu_stat m) (mem_info m)
                (net_info m ++ l).

End proto.

(** ** The history discipline shared by the differential samplers

    The three samplers with a history inline the same steps for each
    entity they observe: look the entity up, derive a message from the new
    and the old sample when there is an old one, store the new sample.
    [observe] is that step on the history and on the list of messages
    added so far; each sampler is proved below to be its parsing phase
    followed by [observe_all]. *)
Module History.
Section observe.
Context {V Msg : Type}.
Variable derive : V → V → option Msg.

Definition derived (old : option V) (v : V) : list Msg :=
  match old with
  | Some o => match derive v o with Some msg => [msg] | None => [] end
  | None => []
  end.

Definition observe (st : gmap string V * list Msg) (kv : string * V)
  : gmap string V * list Msg :=
  (<[kv.1 := kv.2]> st.1, st.2 ++ derived (st.1 !! kv.1) kv.2).

Definition observe_all (samples : list (string * V)) (st : gmap string V * list Msg)
  : gmap string V * list Msg :=
  fold_left observe samples st.

End observe.

(** The history once the samples [pre] have been stored in [h]. *)
Definition held {V : Type} (pre : list (string * V)) (h : gmap string V)
  : gmap string V :=
  fold_left (λ m kv, <[kv.1 := kv.2]> m) pre h.

End History.

(** ** [monitor::NetMonitor] (monitor/net_monitor.cpp) *)
Module NetMonitor.

Record NetInfo : Type := mkNetInfo
  { name : string;
    rcv_bytes : Z;
    rcv_packets : Z;
    err_in : Z;
    drop_in : Z;
    snd_bytes : Z;
    snd_packets : Z;
    err_out : Z;
    drop_out : Z;
    timepoint : Z }.

(** [name.find(':') == name.size() - 1]: the first [':'] of [name] is its
    last character.  Both sides are [size_t] values: when [name] has no
    [':'] the left side is [npos], and the right side wraps to [npos]
    exactly when [name] is empty. *)
Definition first_colon_is_last (name : string) : bool :=
  match find_index colon name with
  | Some i => Nat.eqb i (String.length name - 1)
  | None => ReadFile.is_empty name
  end.

(** [name.find(':') == name.size() - 1 && net_datas.size() >= 10] *)
Definition is_interface (name : string) (net_datas : list string) : bool :=
  first_colon_is_last name && (10 <=? Z.of_nat (length net_datas)).

Definition field (net_datas : list string) (i : nat) : Outcome Z :=
  tok <- vec_at net_datas i ;; stoll tok.

(** The record built from an accepted line, at clock reading [now]. *)
Definition parse (name : string) (net_datas : list string) (now : Z) : Outcome NetInfo :=
  rcv_bytes <- field net_datas 1 ;;
  rcv_packets <- field net_datas 2 ;;
  err_in <- field net_datas 3 ;;
  drop_in <- field net_datas 4 ;;
  snd_bytes <- field net_datas 9 ;;
  snd_packets <- field net_datas 10 ;;
  err_out <- field net_datas 11 ;;
  drop_out <- field net_datas 12 ;;
  Ok (mkNetInfo name rcv_bytes rcv_packets err_in drop_in
                snd_bytes snd_packets err_out drop_out now).

(** The message filled when an older sample exists and [period > 0]. *)
Definition rates (net_info old : NetInfo) (period : F64.t) : proto.NetInfo.t :=
  proto.NetInfo.mk
    (name net_info)
    (F64.div (F64.div (F64.of_Z (sub64 (snd_bytes net_info) (snd_bytes old)))
                      (F64.of_Z 1024)) period)
    (F64.div (F64.div (F64.of_Z (sub64 (rcv_bytes net_info) (rcv_bytes old)))
                      (F64.of_Z 1024)) period)
    (F64.div (F64.of_Z (sub64 (snd_packets net_info) (snd_packets old))) period)
    (F64.div (F64.of_Z (sub64 (rcv_packets net_info) (rcv_packets old))) period).

(** What one sample adds to the message, given the history. *)
Definition emit (net_info_ : gmap string NetInfo) (key : string) (net_info : NetInfo)
    (monitor_info : proto.MonitorInfo) : proto.MonitorInfo :=
  match net_info_ !! key with
  | Some old =>
      let period := Utils.SteadyTimeSecond (timepoint net_info) (timepoint old) in
      if gt0 period then proto.add_net_info (rates net_info old period) monitor_info
      else monitor_info
  | None => monitor_info
  end.

(** The body of the [while] loop for one record. *)
Definition line (now : Z) (net_datas : list string)
    (st : gmap string NetInfo * proto.MonitorInfo)
  : Outcome (gmap string NetInfo * proto.MonitorInfo) :=
  let '(net_info_, monitor_info) := st in
  name0 <- vec_at net_datas 0 ;;
  if is_interface name0 net_datas then
    name <- pop_back name0 ;;
    net_info <- parse name net_datas now ;;
    Ok (<[name := net_info]> net_info_, emit net_info_ name net_info monitor_info)
  else Ok st.

(** The loop; [now k] is the clock reading while record [k] is handled. *)
Fixpoint loop (now : nat → Z) (k : nat) (records : list (list string))
    (st : gmap string NetInfo * proto.MonitorInfo)
  : Outcome (gmap string NetInfo * proto.MonitorInfo) :=
  match records with
  | [] => Ok st
  | net_datas :: rest =>
      st' <- line (now k) net_datas st ;; loop now (S k) rest st'
  end.

(** [line] and [loop] read in two phases, for the proofs
    ([net_UpdateOnce_samples] shows the reading equal to [UpdateOnce]).
    The parsing phase: the entity and raw sample a record yields, if it
    is accepted; and those of all records, in order. *)
Definition sample_of (now : Z) (net_datas : list string)
  : Outcome (option (string * NetInfo)) :=
  name0 <- vec_at net_datas 0 ;;
  if is_interface name0 net_datas then
    name <- pop_back name0 ;;
    net_info <- parse name net_datas now ;;
    Ok (Some (name, net_info))
  else Ok None.

Fixpoint samples (now : nat → Z) (k : nat) (records : list (list string))
  : Outcome (list (string * NetInfo)) :=
  match records with
  | [] => Ok []
  | net_datas :: rest =>
      s <- sample_of (now k) net_datas ;;
      ss <- samples now (S k) rest ;;
      Ok (match s with Some kv => kv :: ss | None => ss end)
  end.

(** The history phase: the message derived from a new and an old sample. *)
Definition derive (net_info old : NetInfo) : option proto.NetInfo.t :=
  let period := Utils.SteadyTimeSecond (timepoint net_info) (timepoint old) in
  if gt0 period then Some (rates net_info old period) else None.

Definition path : string := "/proc/net/dev".

(** The entities and raw samples one call observes, in order. *)
Definition all_samples (fs : gmap string string) (now : nat → Z)
  : Outcome (list (string * NetInfo)) :=
  samples now 0 (ReadFile.ReadAll (ReadFile.open fs path)).

Definition UpdateOnce (fs : gmap string string) (now : nat → Z)
    (net_info_ : gmap string NetInfo) (monitor_info : proto.MonitorInfo)
  : Outcome (gmap string NetInfo * proto.MonitorInfo) :=
  loop now 0 (ReadFile.ReadAll (ReadFile.open fs path)) (net_info_, monitor_info).

End NetMonitor.

(** ** [monitor::CpuSoftIrqMonitor] (monitor/cpu_softirq_monitor.cpp) *)
Module CpuSoftIrqMonitor.

Record SoftIrq : Type := mkSoftIrq
  { cpu_name : string;
    hi : Z;
    timer : Z;
    net_tx : Z;
    net_rx : Z;
    block : Z;
    irq_poll : Z;
    tasklet : Z;
    sched : Z;
    hrtimer : Z;
    rcu : Z;
    timepoint : Z }.

(** [std::stoll(softirq[r][c])] *)
Definition cell (softirq : list (list string)) (r c : nat) : Outcome Z :=
  row <- vec_at softirq r ;;
  tok <- vec_at row c ;;
  stoll tok.

(** The sample of column [i]: row [r] of the source is interrupt class
    [r], and the counter of CPU [i] is its token [i + 1]. *)
Definition parse (softirq : list (list string)) (i : nat) (name : string) (now : Z)
  : Outcome SoftIrq :=
  hi <- cell softirq 1 (i + 1) ;;
  timer <- cell softirq 2 (i + 1) ;;
  net_tx <- cell softirq 3 (i + 1) ;;
  net_rx <- cell softirq 4 (i + 1) ;;
  block <- cell softirq 5 (i + 1) ;;
  irq_poll <- cell softirq 6 (i + 1) ;;
  tasklet <- cell softirq 7 (i + 1) ;;
  sched <- cell softirq 8 (i + 1) ;;
  hrtimer <- cell softirq 9 (i + 1) ;;
  rcu <- cell softirq 10 (i + 1) ;;
  Ok (mkSoftIrq name hi timer net_tx net_rx block irq_poll tasklet sched
                hrtimer rcu now).

Definition rate (cur old : Z) (period : F64.t) : F64.t :=
  F64.div (F64.of_Z (sub64 cur old)) period.

Definition rates (info old : SoftIrq) (period : F64.t) : proto.SoftIrq.t :=
  proto.SoftIrq.mk
    (cpu_name info)
    (rate (hi info) (hi old) period)
    (rate (timer info) (timer old) period)
    (rate (net_tx info) (net_tx old) period)
    (rate (net_rx info) (net_rx old) period)
    (rate (block info) (block old) period)
    (rate (irq_poll info) (irq_poll old) period)
    (rate (tasklet info) (tasklet old) period)
    (rate (sched info) (sched old) period)
    (rate (hrtimer info) (hrtimer old) period)
    (rate (rcu info) (rcu old) period).

Definition emit (cpu_softirqs_ : gmap string SoftIrq) (key : string) (info : SoftIrq)
    (monitor_info : proto.MonitorInfo) : proto.MonitorInfo :=
  match cpu_softirqs_ !! key with
  | Some old =>
      let period := Utils.SteadyTimeSecond (timepoint info) (timepoint old) in
      if gt0 period then proto.add_soft_irq (rates info old period) monitor_info
      else monitor_info
  | None => monitor_info
  end.

(** The body of the [for] loop for column [i]. *)
Definition column (softirq : list (list string)) (i : nat) (now : Z)
    (st : gmap string SoftIrq * proto.MonitorInfo)
  : Outcome (gmap string SoftIrq * proto.MonitorInfo) :=
  let '(cpu_softirqs_, monitor_info) := st in
  header <- vec_at softirq 0 ;;
  name <- vec_at header i ;;
  info <- parse softirq i name now ;;
  Ok (<[name := info]> cpu_softirqs_, emit cpu_softirqs_ name info monitor_info).

(** [for (int i = 0; i < softirq[0].size() - 1; i++)], with [i] the next
    column and [n] the number of iterations left; [now i] is the clock
    reading while column [i] is handled. *)
Fixpoint columns (now : nat → Z) (softirq : list (list string)) (i n : nat)
    (st : gmap string SoftIrq * proto.MonitorInfo)
  : Outcome (gmap string SoftIrq * proto.MonitorInfo) :=
  match n with
  | O => Ok st
  | S n' => st' <- column softirq i (now i) st ;; columns now softirq (S i) n' st'
  end.

(** [column] and [columns] read in two phases, for the proofs
    ([softirq_UpdateOnce_samples] shows the reading equal to [UpdateOnce]).
    The parsing phase of column [i], and of [n] columns from [i] on. *)
Definition sample_of (softirq : list (list string)) (i : nat) (now : Z)
  : Outcome (string * SoftIrq) :=
  header <- vec_at softirq 0 ;;
  name <- vec_at header i ;;
  info <- parse softirq i name now ;;
  Ok (name, info).

Fixpoint samples (now : nat → Z) (softirq : list (list string)) (i n : nat)
  : Outcome (list (string * SoftIrq)) :=
  match n with
  | O => Ok []
  | S n' =>
      kv <- sample_of softirq i (now i) ;;
      ss <- samples now softirq (S i) n' ;;
      Ok (kv :: ss)
  end.

(** The history phase. *)
Definition derive (info old : SoftIrq) : option proto.SoftIrq.t :=
  let period := Utils.SteadyTimeSecond (timepoint info) (timepoint old) in
  if gt0 period then Some (rates info old period) else None.

Definition path : string := "/proc/softirqs".

(** The entities and raw samples one call observes, in order. *)
Definition all_samples (fs : gmap string string) (now : nat → Z)
  : Outcome (list (string * SoftIrq)) :=
  let softirq := ReadFile.ReadAll (ReadFile.open fs path) in
  header <- vec_at softirq 0 ;;
  match header with
  | [] => Undefined
  | _ :: _ => samples now softirq 0 (length header - 1)
  end.

(** When the header row is empty, [size() - 1] wraps to [SIZE_MAX] and the
    first iteration reads [softirq[0][0]] out of bounds. *)
Definition UpdateOnce (fs : gmap string string) (now : nat → Z)
    (cpu_softirqs_ : gmap string SoftIrq) (monitor_info : proto.MonitorInfo)
  : Outcome (gmap string SoftIrq * proto.MonitorInfo) :=
  let softirq := ReadFile.ReadAll (ReadFile.open fs path) in
  header <- vec_at softirq 0 ;;
  match header with
  | [] => Undefined
  | _ :: _ =>
      columns now softirq 0 (length header - 1) (cpu_softirqs_, monitor_info)
  end.

End CpuSoftIrqMonitor.

(** ** [monitor::CpuLoadMonitor] (monitor/cpu_load_monitor.cpp)

    [std::stof] is the C library's; it is a parameter of the samplers that
    call it. *)
Module CpuLoadMonitor.

Record t : Type := mk
  { load_avg_1_ : F32.t; load_avg_3_ : F32.t; load_avg_15_ : F32.t }.

Definition path : string := "/proc/loadavg".

Definition UpdateOnce (stof : string → Outcome F32.t) (fs : gmap string string)
    (self : t) (monitor_info : proto.MonitorInfo) : Outcome (t * proto.MonitorInfo) :=
  let cpu_load :=
    match ReadFile.ReadLine (ReadFile.open fs path) with
    | (Some args, _) => args
    | (None, _) => []
    end in
  a1 <- (tok <- vec_at cpu_load 0 ;; stof tok) ;;
  a3 <- (tok <- vec_at cpu_load 1 ;; stof tok) ;;
  a15 <- (tok <- vec_at cpu_load 2 ;; stof tok) ;;
  Ok (mk a1 a3 a15, proto.set_cpu_load (proto.CpuLoad.mk a1 a3 a15) monitor_info).

End CpuLoadMonitor.

(** ** [monitor::CpuStatMonitor] (monitor/cpu_stat_monitor.cpp) *)
Module CpuStatMonitor.

Record CpuStat : Type := mkCpuStat
  { cpu_name : string;
    user : F32.t;
    system : F32.t;
    idle : F32.t;
    nice : F32.t;
    io_wait : F32.t;
    irq : F32.t;
    soft_irq : F32.t;
    steal : F32.t;
    guest : F32.t;
    guest_nice : F32.t }.

Definition field (stof : string → Outcome F32.t) (l : list string) (i : nat)
  : Outcome F32.t :=
  tok <- vec_at l i ;; stof tok.

Definition parse (stof : string → Outcome F32.t) (cpu_stat_list : list string)
  : Outcome CpuStat :=
  name <- vec_at cpu_stat_list 0 ;;
  user <- field stof cpu_stat_list 1 ;;
  nice <- field stof cpu_stat_list 2 ;;
  system <- field stof cpu_stat_list 3 ;;
  idle <- field stof cpu_stat_list 4 ;;
  io_wait <- field stof cpu_stat_list 5 ;;
  irq <- field stof cpu_stat_list 6 ;;
  soft_irq <- field stof cpu_stat_list 7 ;;
  steal <- field stof cpu_stat_list 8 ;;
  guest <- field stof cpu_stat_list 9 ;;
  guest_nice <- field stof cpu_stat_list 10 ;;
  Ok (mkCpuStat name user system idle nice io_wait irq soft_irq steal guest guest_nice).

(** [user + system + idle + nice + io_wait + irq + soft_irq + steal],
    added from left to right in [float]. *)
Definition cpu_total_time (s : CpuStat) : F32.t :=
  F32.add (F32.add (F32.add (F32.add (F32.add (F32.add (F32.add
    (user s) (system s)) (idle s)) (nice s)) (io_wait s)) (irq s)) (soft_irq s)) (steal s).

(** [user + system + nice + irq + soft_irq + steal] *)
Definition cpu_busy_time (s : CpuStat) : F32.t :=
  F32.add (F32.add (F32.add (F32.add (F32.add
    (user s) (system s)) (nice s)) (irq s)) (soft_irq s)) (steal s).

Definition total_time_diff (cpu_stat old : CpuStat) : F32.t :=
  F32.sub (cpu_total_time cpu_stat) (cpu_total_time old).

(** [float p = (cur - old) / total_time_diff * 100.00]: the quotient is a
    [float], the product with the [double] literal a [double], rounded
    back to [float] by the assignment. *)
Definition percent (cur old diff : F32.t) : F32.t :=
  float_of_double
    (F64.mul (double_of_float (F32.div (F32.sub cur old) diff)) (F64.of_Z 100)).

Definition percents (cpu_stat old : CpuStat) : proto.CpuStat.t :=
  let diff := total_time_diff cpu_stat old in
  proto.CpuStat.mk
    (cpu_name cpu_stat)
    (percent (cpu_busy_time cpu_stat) (cpu_busy_time old) diff)
    (percent (user cpu_stat) (user old) diff)
    (percent (system cpu_stat) (system old) diff)
    (percent (nice cpu_stat) (nice old) diff)
    (percent (idle cpu_stat) (idle old) diff)
    (percent (io_wait cpu_stat) (io_wait old) diff)
    (percent (irq cpu_stat) (irq old) diff)
    (percent (soft_irq cpu_stat) (soft_irq old) diff).

(** [add_cpu_stat()] is called as soon as an older sample is found; the
    setters run only when [total_time_diff > 0]. *)
Definition emit (cpu_stat_map_ : gmap string CpuStat) (cpu_stat : CpuStat)
    (monitor_info : proto.MonitorInfo) : proto.MonitorInfo :=
  match cpu_stat_map_ !! cpu_name cpu_stat with
  | Some old =>
      let cpu_stat_msg :=
        if gt0 (total_time_diff cpu_stat old) then percents cpu_stat old
        else proto.CpuStat.default in
      proto.add_cpu_stat cpu_stat_msg monitor_info
  | None => monitor_info
  end.

Definition marker : string := "cpu".

Definition line (stof : string → Outcome F32.t) (cpu_stat_list : list string)
    (st : gmap string CpuStat * proto.MonitorInfo)
  : Outcome (gmap string CpuStat * proto.MonitorInfo) :=
  let '(cpu_stat_map_, monitor_info) := st in
  name0 <- vec_at cpu_stat_list 0 ;;
  if str_contains marker name0 then
    cpu_stat <- parse stof cpu_stat_list ;;
    Ok (<[cpu_name cpu_stat := cpu_stat]> cpu_stat_map_,
        emit cpu_stat_map_ cpu_stat monitor_info)
  else Ok st.

Fixpoint loop (stof : string → Outcome F32.t) (records : list (list string))
    (st : gmap string CpuStat * proto.MonitorInfo)
  : Outcome (gmap string CpuStat * proto.MonitorInfo) :=
  match records with
  | [] => Ok st
  | cpu_stat_list :: rest =>
      st' <- line stof cpu_stat_list st ;; loop stof rest st'
  end.

(** [line] and [loop] read in two phases, for the proofs
    ([cpu_UpdateOnce_samples] shows the reading equal to [UpdateOnce]).
    The parsing phase. *)
Definition sample_of (stof : string → Outcome F32.t) (cpu_stat_list : list string)
  : Outcome (option (string * CpuStat)) :=
  name0 <- vec_at cpu_stat_list 0 ;;
  if str_contains marker name0 then
    cpu_stat <- parse stof cpu_stat_list ;;
    Ok (Some (cpu_name cpu_stat, cpu_stat))
  else Ok None.

Fixpoint samples (stof : string → Outcome F32.t) (records : list (list string))
  : Outcome (list (string * CpuStat)) :=
  match records with
  | [] => Ok []
  | cpu_stat_list :: rest =>
      s <- sample_of stof cpu_stat_list ;;
      ss <- samples stof rest ;;
      Ok (match s with Some kv => kv :: ss | None => ss end)
  end.

(** The history phase: a message is added whenever an old sample exists. *)
Definition derive (cpu_stat old : CpuStat) : option proto.CpuStat.t :=
  Some (if gt0 (total_time_diff cpu_stat old) then percents cpu_stat old
        else proto.CpuStat.default).

Definition path : string := "/proc/stat".

(** The entities and raw samples one call observes, in order. *)
Definition all_samples (stof : string → Outcome F32.t) (fs : gmap string string)
  : Outcome (list (string * CpuStat)) :=
  samples stof (ReadFile.ReadAll (ReadFile.open fs path)).

Definition UpdateOnce (stof : string → Outcome F32.t) (fs : gmap string string)
    (cpu_stat_map_ : gmap string CpuStat) (monitor_info : proto.MonitorInfo)
  : Outcome (gmap string CpuStat * proto.MonitorInfo) :=
  loop stof (ReadFile.ReadAll (ReadFile.open fs path)) (cpu_stat_map_, monitor_info).

End CpuStatMonitor.

(** ** [monitor::MemMonitor] (monitor/mem_monitor.cpp) *)
Module MemMonitor.

Record MenInfo : Type := mkMenInfo
  { total : Z;
    free : Z;
    avail : Z;
    buffers : Z;
    cached : Z;
    swap_cached : Z;
    active : Z;
    in_active : Z;
    active_anon : Z;
    inactive_anon : Z;
    active_file : Z;
    inactive_file : Z;
    dirty : Z;
    writeback : Z;
    anon_pages : Z;
    mapped : Z;
    kReclaimable : Z;
    sReclaimable : Z;
    sUnreclaim : Z }.

(** The members of [MenInfo], to name the one a line assigns. *)
Inductive member : Type :=
| m_total | m_free | m_avail | m_buffers | m_cached | m_swap_cached
| m_active | m_in_active | m_active_anon | m_inactive_anon | m_active_file
| m_inactive_file | m_dirty | m_writeback | m_anon_pages | m_mapped
| m_kReclaimable | m_sReclaimable | m_sUnreclaim.

#[global] Instance member_eq_dec : EqDecision member.
Proof. solve_decision. Defined.

Definition get (f : member) (m : MenInfo) : Z :=
  match f with
  | m_total => total m | m_free => free m | m_avail => avail m
  | m_buffers => buffers m | m_cached => cached m
  | m_swap_cached => swap_cached m | m_active => active m
  | m_in_active => in_active m | m_active_anon => active_anon m
  | m_inactive_anon => inactive_anon m | m_active_file => active_file m
  | m_inactive_file => inactive_file m | m_dirty => dirty m
  | m_writeback => writeback m | m_anon_pages => anon_pages m
  | m_mapped => mapped m | m_kReclaimable => kReclaimable m
  | m_sReclaimable => sReclaimable m | m_sUnreclaim => sUnreclaim m
  end.

Definition of_members (g : member → Z) : MenInfo :=
  mkMenInfo (g m_total) (g m_free) (g m_avail) (g m_buffers) (g m_cached)
    (g m_swap_cached) (g m_active) (g m_in_active) (g m_active_anon)
    (g m_inactive_anon) (g m_active_file) (g m_inactive_file) (g m_dirty)
    (g m_writeback) (g m_anon_pages) (g m_mapped) (g m_kReclaimable)
    (g m_sReclaimable) (g m_sUnreclaim).

(** [mem_info.f = v] *)
Definition set (f : member) (v : Z) (m : MenInfo) : MenInfo :=
  of_members (fun f' => if decide (f = f') then v else get f' m).

(** The [if / else if] chain on [mem_datas[0]]. *)
Definition member_of_label (label : string) : option member :=
  if String.eqb label "MemTotal:" then Some m_total
  else if String.eqb label "MemFree:" then Some m_free
  else if String.eqb label "MemAvailable:" then Some m_avail
  else if String.eqb label "Buffers:" then Some m_buffers
  else if String.eqb label "Cached:" then Some m_cached
  else if String.eqb label "SwapCached:" then Some m_swap_cached
  else if String.eqb label "Active:" then Some m_active
  else if String.eqb label "Inactive:" then Some m_in_active
  else if String.eqb label "Active(anon):" then Some m_active_anon
  else if String.eqb label "Inactive(anon):" then Some m_inactive_anon
  else if String.eqb label "Active(file):" then Some m_active_file
  else if String.eqb label "Inactive(file):" then Some m_inactive_file
  else if String.eqb label "Dirty:" then Some m_dirty
  else if String.eqb label "Writeback:" then Some m_writeback
  else if String.eqb label "AnonPages:" then Some m_anon_pages
  else if String.eqb label "Mapped:" then Some m_mapped
  else if String.eqb label "KReclaimable:" then Some m_kReclaimable
  else if String.eqb label "SReclaimable:" then Some m_sReclaimable
  else if String.eqb label "SUnreclaim:" then Some m_sUnreclaim
  else None.

Definition line (mem_datas : list string) (mem_info : MenInfo) : Outcome MenInfo :=
  label <- vec_at mem_datas 0 ;;
  match member_of_label label with
  | Some f =>
      v <- (tok <- vec_at mem_datas 1 ;; stoll tok) ;;
      Ok (set f v mem_info)
  | None => Ok mem_info
  end.

Fixpoint loop (records : list (list string)) (mem_info : MenInfo) : Outcome MenInfo :=
  match records with
  | [] => Ok mem_info
  | mem_datas :: rest => m <- line mem_datas mem_info ;; loop rest m
  end.

(** [static constexpr float KBToGB = 1000 * 1000] *)
Definition KBToGB : F32.t := F32.of_Z (1000 * 1000).

(** [v / KBToGB] with [v] an [int64_t]: [v] is converted to [float]. *)
Definition gauge (v : Z) : F32.t := F32.div (F32.of_Z v) KBToGB.

(** [(total - avail) * 1.0 / total * 100.0], in [double]. *)
Definition used_percent (mem_info : MenInfo) : F64.t :=
  F64.mul
    (F64.div (F64.mul (F64.of_Z (sub64 (total mem_info) (avail mem_info))) (F64.of_Z 1))
             (F64.of_Z (total mem_info)))
    (F64.of_Z 100).

Definition fill (mem_info : MenInfo) : proto.MemInfo.t :=
  proto.MemInfo.mk
    (used_percent mem_info)
    (gauge (total mem_info))
    (gauge (free mem_info))
    (gauge (avail mem_info))
    (gauge (buffers mem_info))
    (gauge (cached mem_info))
    (gauge (swap_cached mem_info))
    (gauge (active mem_info))
    (gauge (in_active mem_info))
    (gauge (active_anon mem_info))
    (gauge (inactive_anon mem_info))
    (gauge (active_file mem_info))
    (gauge (inactive_file mem_info))
    (gauge (dirty mem_info))
    (gauge (writeback mem_info))
    (gauge (anon_pages mem_info))
    (gauge (mapped mem_info))
    (gauge (kReclaimable mem_info))
    (gauge (sReclaimable mem_info))
    (gauge (sUnreclaim mem_info)).

(** The field of the message that [fill] writes from member [f]. *)
Definition gauge_of (f : member) (msg : proto.MemInfo.t) : spec_float :=
  match f with
  | m_total => proto.MemInfo.total msg | m_free => proto.MemInfo.free msg
  | m_avail => proto.MemInfo.avail msg | m_buffers => proto.MemInfo.buffers msg
  | m_cached => proto.MemInfo.cached msg
  | m_swap_cached => proto.MemInfo.swap_cached msg
  | m_active => proto.MemInfo.active msg
  | m_in_active => proto.MemInfo.inactive msg
  | m_active_anon => proto.MemInfo.active_anon msg
  | m_inactive_anon => proto.MemInfo.inactive_anon msg
  | m_active_file => proto.MemInfo.active_file msg
  | m_inactive_file => proto.MemInfo.inactive_file msg
  | m_dirty => proto.MemInfo.dirty msg
  | m_writeback => proto.MemInfo.writeback msg
  | m_anon_pages => proto.MemInfo.anon_pages msg
  | m_mapped => proto.MemInfo.mapped msg
  | m_kReclaimable => proto.MemInfo.kreclaimable msg
  | m_sReclaimable => proto.MemInfo.sreclaimable msg
  | m_sUnreclaim => proto.MemInfo.sunreclaim msg
  end.

(** The member a record assigns, if its label is one of the chain. *)
Definition assigns (mem_datas : list string) : option member :=
  match mem_datas !! 0%nat with
  | Some label => member_of_label label
  | None => None
  end.

Definition path : string := "/proc/meminfo".

(** [struct MenInfo mem_info;] is not initialised: [uninit] stands for
    whatever the members hold before the first assignment. *)
Definition UpdateOnce (fs : gmap string string) (uninit : MenInfo)
    (monitor_info : proto.MonitorInfo) : Outcome proto.MonitorInfo :=
  mem_info <- loop (ReadFile.ReadAll (ReadFile.open fs path)) uninit ;;
  Ok (proto.set_mem_info (fill mem_info) monitor_info).

End MemMonitor.

(** ** [monitor::GrpcManagerImpl] (rpc_manager/server/rpc_manager.h): the
    single-slot cache of the latest snapshot *)
Module GrpcManagerImpl.

(** The member [monitor_infos_]. *)
Definition t : Type := proto.MonitorInfo.

(** [GrpcManagerImpl() {}] *)
Definition init : t := proto.empty.

Inductive Status : Type := OK.

(** [monitor_infos_.Clear(); monitor_infos_ = *request;] *)
Definition SetMonitorInfo (request : proto.MonitorInfo) (monitor_infos_ : t)
  : Status * t :=
  let cleared := proto.Clear monitor_infos_ in
  (OK, request).

(** [*response = monitor_infos_;] *)
Definition GetMonitorInfo (monitor_infos_ : t) : Status * proto.MonitorInfo * t :=
  (OK, monitor_infos_, monitor_infos_).

(** A history of calls on the service, and the responses to its reads. *)
Inductive call : Type :=
| Set_ (request : proto.MonitorInfo)
| Get_.

Fixpoint serve (calls : list call) (monitor_infos_ : t) : list proto.MonitorInfo * t :=
  match calls with
  | [] => ([], monitor_infos_)
  | Set_ request :: rest => serve rest (snd (SetMonitorInfo request monitor_infos_))
  | Get_ :: rest =>
      let '(_, response, s) := GetMonitorInfo monitor_infos_ in
      let '(responses, s') := serve rest s in
      (response :: responses, s')
  end.

(** The request of the last [Set_] of a history, if any. *)
Fixpoint last_set (calls : list call) : option proto.MonitorInfo :=
  match calls with
  | [] => None
  | c :: rest =>
      match last_set rest with
      | Some r => Some r
      | None => match c with Set_ r => Some r | Get_ => None end
      end
  end.

End GrpcManagerImpl.

(** ** The collection loop ([linux_monitor/src/main.cpp]) *)
Module Main.

(** The five monitors held in [runners_], with their members. *)
Record Monitors : Type := mkMonitors
  { cpu_softirqs_ : gmap string CpuSoftIrqMonitor.SoftIrq;
    cpu_load_ : CpuLoadMonitor.t;
    cpu_stat_map_ : gmap string CpuStatMonitor.CpuStat;
    net_info_ : gmap string NetMonitor.NetInfo }.

(** What one pass of the loop reads from outside the process. *)
Record Env : Type := mkEnv
  { fs : gmap string string;          (* the pseudo-files *)
    softirq_clock : nat → Z;          (* steady_clock::now() in the softirq monitor *)
    net_clock : nat → Z;              (* steady_clock::now() in the net monitor *)
    mem_uninit : MemMonitor.MenInfo;  (* the uninitialised local of the memory monitor *)
    rpc_ok : bool }.                  (* whether the RPC reaches the server *)

Inductive runner : Type :=
| CpuSoftIrq | CpuLoad | CpuStat | Mem | Net.

(** [runners_], in the order of the [emplace_back] calls. *)
Definition runners_ : list runner := [CpuSoftIrq; CpuLoad; CpuStat; Mem; Net].

(** [runner->UpdateOnce(&monitor_info)] *)
Definition UpdateOnce (stof : string → Outcome F32.t) (env : Env) (r : runner)
    (st : Monitors * proto.MonitorInfo) : Outcome (Monitors * proto.MonitorInfo) :=
  let '(m, monitor_info) := st in
  match r with
  | CpuSoftIrq =>
      p <- CpuSoftIrqMonitor.UpdateOnce (fs env) (softirq_clock env)
                    (cpu_softirqs_ m) monitor_info ;;
      Ok (mkMonitors (fst p) (cpu_load_ m) (cpu_stat_map_ m) (net_info_ m), snd p)
  | CpuLoad =>
      p <- CpuLoadMonitor.UpdateOnce stof (fs env) (cpu_load_ m) monitor_info ;;
      Ok (mkMonitors (cpu_softirqs_ m) (fst p) (cpu_stat_map_ m) (net_info_ m), snd p)
  | CpuStat =>
      p <- CpuStatMonitor.UpdateOnce stof (fs env) (cpu_stat_map_ m) monitor_info ;;
      Ok (mkMonitors (cpu_softirqs_ m) (cpu_load_ m) (fst p) (net_info_ m), snd p)
  | Mem =>
      mi <- MemMonitor.UpdateOnce (fs env) (mem_uninit env) monitor_info ;;
      Ok (m, mi)
  | Net =>
      p <- NetMonitor.UpdateOnce (fs env) (net_clock env) (net_info_ m) monitor_info ;;
      Ok (mkMonitors (cpu_softirqs_ m) (cpu_load_ m) (cpu_stat_map_ m) (fst p), snd p)
  end.

(** [for (auto& runner : runners_) runner->UpdateOnce(&monitor_info);] *)
Fixpoint run (stof : string → Outcome F32.t) (env : Env) (rs : list runner)
    (st : Monitors * proto.MonitorInfo) : Outcome (Monitors * proto.MonitorInfo) :=
  match rs with
  | [] => Ok st
  | r :: rest => st' <- UpdateOnce stof env r st ;; run stof env rest st'
  end.

(** [getenv("USER")], with the fallback of the loop. *)
Definition host_name (name : option string) : string :=
  match name with
  | Some n => n
  | None => "unknown_host"
  end.

(** One pass of the body of [while (true)] up to the RPC: the snapshot. *)
Definition collect (stof : string → Outcome F32.t) (name : option string) (env : Env)
    (m : Monitors) : Outcome (Monitors * proto.MonitorInfo) :=
  run stof env runners_ (m, proto.set_name (host_name name) proto.empty).

(** [rpc_client_.SetMonitorInfo(monitor_info)]: the server stores the
    snapshot when the call reaches it; a failed call is only logged. *)
Definition publish (env : Env) (monitor_info : proto.MonitorInfo)
    (server : GrpcManagerImpl.t) : GrpcManagerImpl.t :=
  if rpc_ok env then snd (GrpcManagerImpl.SetMonitorInfo monitor_info server)
  else server.

(** How the monitoring thread stands after the passes given to it: still
    looping, or ended by an exception nobody catches ([std::terminate]),
    or by undefined behaviour. *)
Inductive thread : Type :=
| Looping (m : Monitors)
| Terminated (e : Exn)
| Broken.

(** The loop over the successive environments of its passes: the
    snapshots handed to the RPC client, the server's slot, the thread. *)
Fixpoint loop (stof : string → Outcome F32.t) (name : option string) (envs : list Env)
    (m : Monitors) (server : GrpcManagerImpl.t)
  : list proto.MonitorInfo * GrpcManagerImpl.t * thread :=
  match envs with
  | [] => ([], server, Looping m)
  | env :: rest =>
      match collect stof name env m with
      | Ok (m', monitor_info) =>
          let '(sent, server', th) :=
            loop stof name rest m' (publish env monitor_info server) in
          (monitor_info :: sent, server', th)
      | Throw e => ([], server, Terminated e)
      | Undefined => ([], server, Broken)
      end
  end.

End Main.

(** ** [ReadFile::GetStatsLines] (utils/read_file.h) *)
Module ReadFileStats.

(** The [for] loop with [n] iterations left.  A stream that has hit the
    end of the file reads an empty line, which ends the loop. *)
Fixpoint stats_lines (n : nat) (buffer : ReadFile.ifstream) : list string :=
  match n with
  | O => []
  | S n' =>
      match buffer with
      | None => []
      | Some s =>
          let '(line, rest) := ReadFile.getline s in
          if ReadFile.is_empty line then [] else line :: stats_lines n' rest
      end
  end.

Definition GetStatsLines (fs : gmap string string) (stat_file : string)
    (line_count : Z) : list string :=
  stats_lines (Z.to_nat line_count) (ReadFile.open fs stat_file).

End ReadFileStats.

(** ** [monitor::RpcClient] (rpc_manager/client/rpc_client.h)

    The stub call goes through gRPC; [ok] is [status.ok()]: the call
    reached the server and its reply came back. *)
Module RpcClient.

(** [SetMonitorInfo]: a failed call is only logged. *)
Definition SetMonitorInfo (ok : bool) (monito_info : proto.MonitorInfo)
    (server : GrpcManagerImpl.t) : GrpcManagerImpl.t :=
  if ok then (GrpcManagerImpl.SetMonitorInfo monito_info server).2
  else server.

(** [GetMonitorInfo]: [monito_info] is the pointer, [None] when null; the
    message it points to after the call, and the server. *)
Definition GetMonitorInfo (ok : bool) (monito_info : option proto.MonitorInfo)
    (server : GrpcManagerImpl.t) : option proto.MonitorInfo * GrpcManagerImpl.t :=
  match monito_info with
  | None => (None, server)
  | Some m =>
      if ok then
        let '(_, response, server') := GrpcManagerImpl.GetMonitorInfo server in
        (Some response, server')
      else (Some (proto.Clear m), server)
  end.

End RpcClient.

(** ** The display ([display_monitor])

    Of Qt, only what the table models return: a [QVariant] is invalid, a
    string, a number read from a snapshot field, or a style value; a role
    is the [int] of [Qt::ItemDataRole]. *)
Module Qt.

Definition DisplayRole : Z := 0.
Definition FontRole : Z := 6.
Definition TextAlignmentRole : Z := 7.
Definition BackgroundRole : Z := 8.
Definition TextColorRole : Z := 9.

Definition AlignLeft : Z := 1.
Definition AlignVCenter : Z := 128.
Definition Bold : Z := 75.

Inductive Orientation : Type := Horizontal | Vertical.

Inductive GlobalColor : Type := black | white | lightGray.

Inductive QVariant : Type :=
| Invalid                                            (* QVariant() *)
| QString (s : string)
| Number (x : spec_float)
| Alignment (flags : Z)
| QFont (family : string) (pointSize weight : Z)
| QColor (c : GlobalColor)
| Inherited (section : Z) (o : Orientation) (role : Z).
                                     (* QAbstractTableModel::headerData *)

Record QModelIndex : Type := mkIndex { row : Z; column : Z }.

(** [list[i]] on a [QStringList], with [i] an [int]: undefined unless
    [0 <= i < size()]. *)
Definition qlist_at (l : list string) (i : Z) : Outcome string :=
  if i <? 0 then Undefined else vec_at l (Z.to_nat i).

(** [i < v.size()] with [i] an [int]: [i] is converted to [size_t], so a
    negative [i] is above every size. *)
Definition int_lt_size (i : Z) (n : nat) : bool :=
  (0 <=? i) && (i <? Z.of_nat n).

End Qt.

(** [MonitorInterModel] (monitor_inter.h): the styles of the base class. *)
Module MonitorInterModel.

Definition headerData (section : Z) (orientation : Qt.Orientation) (role : Z)
  : Qt.QVariant :=
  if role =? Qt.FontRole then Qt.QFont "Microsoft YaHei" 10 Qt.Bold
  else if role =? Qt.BackgroundRole then Qt.QColor Qt.lightGray
  else Qt.Inherited section orientation role.

Definition data (index : Qt.QModelIndex) (role : Z) : Qt.QVariant :=
  if role =? Qt.TextAlignmentRole then Qt.Alignment (Z.lor Qt.AlignLeft Qt.AlignVCenter)
  else if role =? Qt.TextColorRole then Qt.QColor Qt.black
  else if role =? Qt.BackgroundRole then Qt.QColor Qt.white
  else Qt.Invalid.

End MonitorInterModel.

(** [rowCount], [columnCount], [headerData] and [data] have the same text
    in the five model classes, up to the class's [COLUMN_MAX] and
    [header_]. *)
Module TableModel.

(** [return monitor_data_.size();] as an [int]: tables of more than
    [INT_MAX] rows are outside the model. *)
Definition rowCount (monitor_data_ : list (list Qt.QVariant)) : Z :=
  Z.of_nat (length monitor_data_).

Definition columnCount (COLUMN_MAX : Z) : Z := COLUMN_MAX.

Definition headerData (header_ : list string) (section : Z)
    (orientation : Qt.Orientation) (role : Z) : Outcome Qt.QVariant :=
  match orientation with
  | Qt.Horizontal =>
      if role =? Qt.DisplayRole then
        s <- Qt.qlist_at header_ section ;; Ok (Qt.QString s)
      else Ok (MonitorInterModel.headerData section orientation role)
  | Qt.Vertical => Ok (MonitorInterModel.headerData section orientation role)
  end.

Definition data (COLUMN_MAX : Z) (monitor_data_ : list (list Qt.QVariant))
    (index : Qt.QModelIndex) (role : Z) : Outcome Qt.QVariant :=
  if (Qt.column index <? 0) || (Qt.column index >=? COLUMN_MAX) then Ok Qt.Invalid
  else if role =? Qt.DisplayRole then
    if Qt.int_lt_size (Qt.row index) (length monitor_data_)
       && (Qt.column index <? COLUMN_MAX)
    then
      r <- vec_at monitor_data_ (Z.to_nat (Qt.row index)) ;;
      vec_at r (Z.to_nat (Qt.column index))
    else Ok Qt.Invalid
  else Ok Qt.Invalid.

(** [for (int i = 0; i < COLUMN_MAX; i++) switch (i) { ... }]: [case i] is
    what the [switch] pushes for [i] (nothing in the [default] branch). *)
Definition for_columns (COLUMN_MAX : nat) (case : nat → list Qt.QVariant)
  : list Qt.QVariant :=
  flat_map case (seq 0 COLUMN_MAX).

End TableModel.

(** [MonitorBaseModel] (cpu_softirq_model.h), the softirq table. *)
Module MonitorBaseModel.

Definition COLUMN_MAX : nat := 11.

Definition header_ : list string :=
  ["cpu"; "hi"; "timer"; "net_tx"; "net_rx"; "block"; "irq_poll"; "tasklet";
   "sched"; "hrtimer"; "rcu"].

Definition case (soft_irq : proto.SoftIrq.t) (i : nat) : list Qt.QVariant :=
  match i with
  | 0 => [Qt.QString (proto.SoftIrq.cpu soft_irq)]
  | 1 => [Qt.Number (proto.SoftIrq.hi soft_irq)]
  | 2 => [Qt.Number (proto.SoftIrq.timer soft_irq)]
  | 3 => [Qt.Number (proto.SoftIrq.net_tx soft_irq)]
  | 4 => [Qt.Number (proto.SoftIrq.net_rx soft_irq)]
  | 5 => [Qt.Number (proto.SoftIrq.block soft_irq)]
  | 6 => [Qt.Number (proto.SoftIrq.irq_poll soft_irq)]
  | 7 => [Qt.Number (proto.SoftIrq.tasklet soft_irq)]
  | 8 => [Qt.Number (proto.SoftIrq.sched soft_irq)]
  | 9 => [Qt.Number (proto.SoftIrq.hrtimer soft_irq)]
  | 10 => [Qt.Number (proto.SoftIrq.rcu soft_irq)]
  | _ => []
  end%nat.

Definition insert_one_soft_irq (soft_irq : proto.SoftIrq.t) : list Qt.QVariant :=
  TableModel.for_columns COLUMN_MAX (case soft_irq).

(** [monitor_data_] after the call: cleared, then one row per record. *)
Definition UpdateMonitorInfo (monito_info : proto.MonitorInfo)
    (monitor_data_ : list (list Qt.QVariant)) : list (list Qt.QVariant) :=
  insert_one_soft_irq <$> proto.soft_irq monito_info.

End MonitorBaseModel.

(** [CpuStatModel] (cpu_stat_model.h) *)
Module CpuStatModel.

Definition COLUMN_MAX : nat := 4.

Definition header_ : list string := ["name"; "cpu_percent"; "user"; "system"].

Definition case (cpu_stat : proto.CpuStat.t) (i : nat) : list Qt.QVariant :=
  match i with
  | 0 => [Qt.QString (proto.CpuStat.cpu_name cpu_stat)]
  | 1 => [Qt.Number (proto.CpuStat.cpu_percent cpu_stat)]
  | 2 => [Qt.Number (proto.CpuStat.usr_percent cpu_stat)]
  | 3 => [Qt.Number (proto.CpuStat.system_percent cpu_stat)]
  | _ => []
  end%nat.

Definition insert_one_cpu_stat (cpu_stat : proto.CpuStat.t) : list Qt.QVariant :=
  TableModel.for_columns COLUMN_MAX (case cpu_stat).

Definition UpdateMonitorInfo (monitor_info : proto.MonitorInfo)
    (monitor_data_ : list (list Qt.QVariant)) : list (list Qt.QVariant) :=
  insert_one_cpu_stat <$> proto.cpu_stat monitor_info.

End CpuStatModel.

(** [NetModel] (net_model.h) *)
Module NetModel.

Definition COLUMN_MAX : nat := 5.

Definition header_ : list string :=
  ["name"; "send_rate"; "rcv_rate"; "send_packets_rate"; "rcv_packets_rate"].

Definition case (net_info : proto.NetInfo.t) (i : nat) : list Qt.QVariant :=
  match i with
  | 0 => [Qt.QString (proto.NetInfo.name net_info)]
  | 1 => [Qt.Number (proto.NetInfo.send_rate net_info)]
  | 2 => [Qt.Number (proto.NetInfo.rcv_rate net_info)]
  | 3 => [Qt.Number (proto.NetInfo.send_packets_rate net_info)]
  | 4 => [Qt.Number (proto.NetInfo.rcv_packets_rate net_info)]
  | _ => []
  end%nat.

Definition insert_one_net_info (net_info : proto.NetInfo.t) : list Qt.QVariant :=
  TableModel.for_columns COLUMN_MAX (case net_info).

Definition UpdateMonitorInfo (monitor_info : proto.MonitorInfo)
    (monitor_data_ : list (list Qt.QVariant)) : list (list Qt.QVariant) :=
  insert_one_net_info <$> proto.net_info monitor_info.

End NetModel.

(** [CpuLoadModel] (cpu_load_model.h) *)
Module CpuLoadModel.

Definition COLUMN_MAX : nat := 3.

Definition header_ : list string := ["load_1"; "load_3"; "load_15"].

(** [monitor_info.cpu_load()]: the default instance when the snapshot has
    no load record. *)
Definition cpu_load (monitor_info : proto.MonitorInfo) : proto.CpuLoad.t :=
  default (proto.CpuLoad.mk F32.zero F32.zero F32.zero) (proto.cpu_load monitor_info).

Definition case (cpu_load : proto.CpuLoad.t) (i : nat) : list Qt.QVariant :=
  match i with
  | 0 => [Qt.Number (proto.CpuLoad.load_avg_1 cpu_load)]
  | 1 => [Qt.Number (proto.CpuLoad.load_avg_3 cpu_load)]
  | 2 => [Qt.Number (proto.CpuLoad.load_avg_15 cpu_load)]
  | _ => []
  end%nat.

Definition insert_one_cpu_load (cpu_load : proto.CpuLoad.t) : list Qt.QVariant :=
  TableModel.for_columns COLUMN_MAX (case cpu_load).

Definition UpdateMonitorInfo (monitor_info : proto.MonitorInfo)
    (monitor_data_ : list (list Qt.QVariant)) : list (list Qt.QVariant) :=
  [insert_one_cpu_load (cpu_load monitor_info)].

End CpuLoadModel.

(** [MemModel] (mem_model.h) *)
Module MemModel.

(** The enumerators [USED_PERCENT = 0], ..., [SUNRECLAIM = 17]. *)
Definition COLUMN_MAX : nat := 18.

(** The twenty labels the constructor appends. *)
Definition header_ : list string :=
  ["used_percent"; "total"; "free"; "avail"; "buffers"; "cached"; "swap_cached";
   "active"; "in_active"; "active_anon"; "inactive_anon"; "active_file";
   "inactive_file"; "dirty"; "writeback"; "anon_pages"; "mapped"; "kReclaimable";
   "sReclaimable"; "sUnreclaim"].

(** [monitor_info.mem_info()]: the default instance when the snapshot has
    no memory record. *)
Definition mem_info (monitor_info : proto.MonitorInfo) : proto.MemInfo.t :=
  default
    (proto.MemInfo.mk F32.zero F32.zero F32.zero F32.zero F32.zero F32.zero F32.zero
       F32.zero F32.zero F32.zero F32.zero F32.zero F32.zero F32.zero F32.zero
       F32.zero F32.zero F32.zero F32.zero F32.zero)
    (proto.mem_info monitor_info).

Definition case (mem_info : proto.MemInfo.t) (i : nat) : list Qt.QVariant :=
  match i with
  | 0 => [Qt.Number (proto.MemInfo.used_percent mem_info)]
  | 1 => [Qt.Number (proto.MemInfo.total mem_info)]
  | 2 => [Qt.Number (proto.MemInfo.free mem_info)]
  | 3 => [Qt.Number (proto.MemInfo.avail mem_info)]
  | 4 => [Qt.Number (proto.MemInfo.buffers mem_info)]
  | 5 => [Qt.Number (proto.MemInfo.cached mem_info)]
  | 6 => [Qt.Number (proto.MemInfo.swap_cached mem_info)]
  | 7 => [Qt.Number (proto.MemInfo.active mem_info)]
  | 8 => [Qt.Number (proto.MemInfo.inactive mem_info)]
  | 9 => [Qt.Number (proto.MemInfo.active_anon mem_info)]
  | 10 => [Qt.Number (proto.MemInfo.inactive_anon mem_info)]
  | 11 => [Qt.Number (proto.MemInfo.dirty mem_info)]
  | 12 => [Qt.Number (proto.MemInfo.writeback mem_info)]
  | 13 => [Qt.Number (proto.MemInfo.anon_pages mem_info)]
  | 14 => [Qt.Number (proto.MemInfo.mapped mem_info)]
  | 15 => [Qt.Number (proto.MemInfo.kreclaimable mem_info)]
  | 16 => [Qt.Number (proto.MemInfo.sreclaimable mem_info)]
  | 17 => [Qt.Number (proto.MemInfo.sunreclaim mem_info)]
  | _ => []
  end%nat.

Definition insert_one_mem_info (mem_info : proto.MemInfo.t) : list Qt.QVariant :=
  TableModel.for_columns COLUMN_MAX (case mem_info).

Definition UpdateMonitorInfo (monitor_info : proto.MonitorInfo)
    (monitor_data_ : list (list Qt.QVariant)) : list (list Qt.QVariant) :=
  [insert_one_mem_info (mem_info monitor_info)].

(** The field of the memory record that a label of [header_] names. *)
Definition field_named (label : string) : option (proto.MemInfo.t → spec_float) :=
  if String.eqb label "used_percent" then Some proto.MemInfo.used_percent
  else if String.eqb label "total" then Some proto.MemInfo.total
  else if String.eqb label "free" then Some proto.MemInfo.free
  else if String.eqb label "avail" then Some proto.MemInfo.avail
  else if String.eqb label "buffers" then Some proto.MemInfo.buffers
  else if String.eqb label "cached" then Some proto.MemInfo.cached
  else if String.eqb label "swap_cached" then Some proto.MemInfo.swap_cached
  else if String.eqb label "active" then Some proto.MemInfo.active
  else if String.eqb label "in_active" then Some proto.MemInfo.inactive
  else if String.eqb label "active_anon" then Some proto.MemInfo.active_anon
  else if String.eqb label "inactive_anon" then Some proto.MemInfo.inactive_anon
  else if String.eqb label "active_file" then Some proto.MemInfo.active_file
  else if String.eqb label "inactive_file" then Some proto.MemInfo.inactive_file
  else if String.eqb label "dirty" then Some proto.MemInfo.dirty
  else if String.eqb label "writeback" then Some proto.MemInfo.writeback
  else if String.eqb label "anon_pages" then Some proto.MemInfo.anon_pages
  else if String.eqb label "mapped" then Some proto.MemInfo.mapped
  else if String.eqb label "kReclaimable" then Some proto.MemInfo.kreclaimable
  else if String.eqb label "sReclaimable" then Some proto.MemInfo.sreclaimable
  else if String.eqb label "sUnreclaim" then Some proto.MemInfo.sunreclaim
  else None.

End MemModel.

(** [MonitorWidget] (monitor_widget.h): the five models behind the views;
    a model pointer is [None] until its [Init...Widget] has run. *)
Module MonitorWidget.

Record t : Type := mk
  { monitor_model_ : option (list (list Qt.QVariant));
    cpu_load_model_ : option (list (list Qt.QVariant));
    cpu_stat_model_ : option (list (list Qt.QVariant));
    mem_model_ : option (list (list Qt.QVariant));
    net_model_ : option (list (list Qt.QVariant)) }.

(** [MonitorWidget::MonitorWidget]: the members keep their [nullptr]. *)
Definition init : t := mk None None None None None.

(** [ShowAllMonitorWidget]: each [Init...Widget] allocates its model(s). *)
Definition ShowAllMonitorWidget (name : string) (w : t) : t :=
  mk (Some []) (Some []) (Some []) (Some []) (Some []).

(** [model->UpdateMonitorInfo(monitor_info)] through a model pointer. *)
Definition through (update : list (list Qt.QVariant) → list (list Qt.QVariant))
    (model : option (list (list Qt.QVariant)))
  : Outcome (option (list (list Qt.QVariant))) :=
  match model with
  | Some monitor_data_ => Ok (Some (update monitor_data_))
  | None => Undefined
  end.

Definition UpdateData (monitor_info : proto.MonitorInfo) (w : t) : Outcome t :=
  m1 <- through (MonitorBaseModel.UpdateMonitorInfo monitor_info) (monitor_model_ w) ;;
  m2 <- through (CpuLoadModel.UpdateMonitorInfo monitor_info) (cpu_load_model_ w) ;;
  m3 <- through (CpuStatModel.UpdateMonitorInfo monitor_info) (cpu_stat_model_ w) ;;
  m4 <- through (MemModel.UpdateMonitorInfo monitor_info) (mem_model_ w) ;;
  m5 <- through (NetModel.UpdateMonitorInfo monitor_info) (net_model_ w) ;;
  Ok (mk m1 m2 m3 m4 m5).

End MonitorWidget.

(** The display's [main] (display_monitor/main.cpp): one pass of the body
    of its [while (true)]: clear, fetch, update the tables. *)
Module Display.

Definition poll (ok : bool) (server : GrpcManagerImpl.t)
    (st : proto.MonitorInfo * MonitorWidget.t)
  : Outcome (proto.MonitorInfo * MonitorWidget.t) :=
  let '(monitor_info, widget) := st in
  let cleared := proto.Clear monitor_info in
  match (RpcClient.GetMonitorInfo ok (Some cleared) server).1 with
  | Some fetched =>
      w <- MonitorWidget.UpdateData fetched widget ;; Ok (fetched, w)
  | None => Undefined
  end.

End Display.

(** ** An instance of [std::stof] for the examples

    What [std::stof] returns on a token made of an optional sign, digits
    and an optional fraction, the way the kernel prints the numbers of
    /proc/stat and /proc/loadavg: the [float] nearest to the decimal
    value.  Exponents, hexadecimal floats, [inf] and [nan] are not read by
    this instance.  It only serves to evaluate the samplers on concrete
    sources: the general theorems are stated for every [stof]. *)

Fixpoint skip_digits (s : string) : string :=
  match s with
  | String c s' => if isdigit c then skip_digits s' else s
  | EmptyString => EmptyString
  end.

Fixpoint read_fraction (m scale : Z) (s : string) : Z * Z :=
  match s with
  | String c s' =>
      if isdigit c then read_fraction (10 * m + digit_val c) (10 * scale) s'
      else (m, scale)
  | EmptyString => (m, scale)
  end.

(** The [float] nearest to [m / d], with sign [neg]. *)
Definition round_quotient (neg : bool) (m d : Z) : F32.t :=
  match m with
  | Z0 => S754_zero neg
  | _ =>
      let '(q, e, l) := SFdiv_core_binary F32.prec F32.emax m 0 d 0 in
      binary_round_aux F32.prec F32.emax neg q e l
  end.

Definition stof_plain (str : string) : Outcome F32.t :=
  let s := skip_space str in
  let '(neg, s1) :=
    match s with
    | String c r =>
        if ascii_eqb c "-" then (true, r)
        else if ascii_eqb c "+" then (false, r)
        else (false, s)
    | EmptyString => (false, s)
    end in
  let int_part := read_digits 0 s1 in
  let '(m, d, frac_digit) :=
    match skip_digits s1 with
    | String c r =>
        if ascii_eqb c "." then (read_fraction int_part 1 r, starts_with_digit r)
        else (int_part, 1, false)
    | EmptyString => (int_part, 1, false)
    end in
  if starts_with_digit s1 || frac_digit then
    match round_quotient neg m d with
    | S754_infinity _ => Throw out_of_range
    | x => Ok x
    end
  else Throw invalid_argument.

(** ** Concrete sources for the examples *)

Definition nl : string := String newline EmptyString.

(** The text whose lines are [lines], each ended by a newline. *)
Definition text (lines : list string) : string :=
  foldr (λ l acc, l +:+ nl +:+ acc) EmptyString lines.

(** A record of ten tokens that ends with the first transmit counter. *)
Definition net_short : string := text ["eth0: 1 2 3 4 5 6 7 8 9"].

(** A clock that reads zero. *)
Definition clock0 : nat → Z := λ _, 0.

(** A clock that advances by a microsecond from one reading to the next. *)
Definition clock_us : nat → Z := λ k, 1000 * Z.of_nat k.

(** A network source with one interface. *)
Definition net_once : string :=
  text ["Inter-|   Receive                            |  Transmit";
        " face |bytes packets errs drop fifo frame compressed multicast|bytes packets";
        "  eth0: 1100 11 0 0 0 0 0 0 2200 22 0 0 0 0 0 0"].

(** A CPU-time source with one core. *)
Definition stat_cpu0 : string :=
  text ["cpu0 400 10 200 1300 50 20 20 0 0 0"].

(** The ten interrupt-class rows of a softirq source with two CPUs. *)
Definition softirq_rows : list string :=
  ["          HI:          1          2";
   "       TIMER:       1100          4";
   "      NET_TX:          5          6";
   "      NET_RX:          7          8";
   "       BLOCK:          9         10";
   "    IRQ_POLL:         11         12";
   "     TASKLET:         13         14";
   "       SCHED:         15         16";
   "     HRTIMER:         17         18";
   "         RCU:         19         20"].

(** The source with the header row as the kernel prints it: each CPU
    name is padded on its right. *)
Definition softirq_padded : string :=
  text ("                    CPU0       CPU1       " :: softirq_rows).

(** The first record of [net_once] that names an interface. *)
Definition eth0_record : list string :=
  ["eth0:"; "1100"; "11"; "0"; "0"; "0"; "0"; "0"; "0"; "2200"; "22"; "0"; "0";
   "0"; "0"; "0"; "0"].

(** The sample of [eth0] taken five seconds before [clock_5s] reads. *)
Definition eth0_before : NetMonitor.NetInfo :=
  NetMonitor.mkNetInfo "eth0" 100 1 0 0 200 2 0 0 0.

Definition clock_5s : nat → Z := λ _, 5000000000.

(** The sample of [eth0] that [net_once] yields when the clock reads 5 s. *)
Definition eth0_now : NetMonitor.NetInfo :=
  NetMonitor.mkNetInfo "eth0" 1100 11 0 0 2200 22 0 0 5000000000.

(** The sample of [cpu0] that [stat_cpu0] yields. *)
Definition cpu0_before : CpuStatMonitor.CpuStat :=
  CpuStatMonitor.mkCpuStat "cpu0" (F32.of_Z 400) (F32.of_Z 200) (F32.of_Z 1300)
    (F32.of_Z 10) (F32.of_Z 50) (F32.of_Z 20) (F32.of_Z 20) (F32.of_Z 0)
    (F32.of_Z 0) (F32.of_Z 0).

(** [stat_cpu0] one tick later: 300 more jiffies in user mode, 700 idle. *)
Definition stat_cpu0_later : string :=
  text ["cpu0 700 10 200 2000 50 20 20 0 0 0"].

Definition cpu0_later : CpuStatMonitor.CpuStat :=
  CpuStatMonitor.mkCpuStat "cpu0" (F32.of_Z 700) (F32.of_Z 200) (F32.of_Z 2000)
    (F32.of_Z 10) (F32.of_Z 50) (F32.of_Z 20) (F32.of_Z 20) (F32.of_Z 0)
    (F32.of_Z 0) (F32.of_Z 0).

(** [stat_cpu0] one tick later with an iowait counter that went back by
    10 jiffies (the kernel documents that this counter can decrease),
    the other counters standing still. *)
Definition stat_cpu0_iowait : string :=
  text ["cpu0 400 10 200 1300 40 20 20 0 0 0"].

Definition cpu0_iowait : CpuStatMonitor.CpuStat :=
  CpuStatMonitor.mkCpuStat "cpu0" (F32.of_Z 400) (F32.of_Z 200) (F32.of_Z 1300)
    (F32.of_Z 10) (F32.of_Z 40) (F32.of_Z 20) (F32.of_Z 20) (F32.of_Z 0)
    (F32.of_Z 0) (F32.of_Z 0).

(** A memory source; [SwapTotal:] is not a label of the chain. *)
Definition meminfo : string :=
  text ["MemTotal:       16000000 kB";
        "MemFree:         3000000 kB";
        "MemAvailable:    8000000 kB";
        "Buffers:          298416 kB";
        "Cached:          5940484 kB";
        "SwapTotal:       2097148 kB";
        "Dirty:                72 kB"].

(** Members that all hold zero before the first assignment. *)
Definition mem_zero : MemMonitor.MenInfo := MemMonitor.of_members (λ _, 0).

(** A load source, and a network source with a malformed counter. *)
Definition loadavg : string := text ["0.45 0.67 0.89 2/345 12345"].

Definition net_malformed : string :=
  text ["  eth0: x 11 0 0 0 0 0 0 2200 22 0 0 0 0 0 0"].

(** The five pseudo-files, all well formed; and the same with the
    malformed network source. *)
Definition fs_good : gmap string string :=
  {[ CpuSoftIrqMonitor.path := softirq_padded;
     CpuLoadMonitor.path := loadavg;
     CpuStatMonitor.path := stat_cpu0;
     MemMonitor.path := meminfo;
     NetMonitor.path := net_once ]}.

Definition fs_bad : gmap string string := <[ NetMonitor.path := net_malformed ]> fs_good.

Definition env_good : Main.Env := Main.mkEnv fs_good clock_us clock_us mem_zero true.
Definition env_bad : Main.Env := Main.mkEnv fs_bad clock_us clock_us mem_zero true.

(** The monitors as the process starts: empty histories. *)
Definition monitors0 : Main.Monitors :=
  Main.mkMonitors ∅ (CpuLoadMonitor.mk F32.zero F32.zero F32.zero) ∅ ∅.

(** ** Vocabulary of the properties of the reader *)

(** [s] holds no newline. *)
Definition newline_free (s : string) : Prop := find_index newline s = None.

(** The lines before the first empty one. *)
Fixpoint upto_blank (lines : list string) : list string :=
  match lines with
  | [] => []
  | l :: rest => if ReadFile.is_empty l then [] else l :: upto_blank rest
  end.

(** [s] holds a white-space character; [s] is made of them only. *)
Fixpoint has_space (s : string) : bool :=
  match s with
  | EmptyString => false
  | String c s' => isspace c || has_space s'
  end.

Fixpoint all_space (s : string) : bool :=
  match s with
  | EmptyString => true
  | String c s' => isspace c && all_space s'
  end.

(** A word: not empty, no white space. *)
Definition is_word (w : string) : Prop := w ≠ EmptyString ∧ has_space w = false.

(** Words, each followed by its gap. *)
Fixpoint join (items : list (string * string)) : string :=
  match items with
  | [] => EmptyString
  | (w, gap) :: rest => w +:+ gap +:+ join rest
  end.

(** Every gap but the last is not empty. *)
Fixpoint separated (items : list (string * string)) : Prop :=
  match items with
  | [] => True
  | [_] => True
  | (_, gap) :: rest => gap ≠ EmptyString ∧ separated rest
  end.

(** The line ends in the middle of a word. *)
Definition ends_in_word (items : list (string * string)) : bool :=
  match last items with
  | Some (_, gap) => ReadFile.is_empty gap
  | None => false
  end.

(** A sample of [wlan0], an interface that [net_once] does not list. *)
Definition wlan0_before : NetMonitor.NetInfo :=
  NetMonitor.mkNetInfo "wlan0" 5 1 0 0 7 1 0 0 0.

(** [net_once] one tick later. *)
Definition net_once_later : string :=
  text ["Inter-|   Receive                            |  Transmit";
        " face |bytes packets errs drop fifo frame compressed multicast|bytes packets";
        "  eth0: 2100 21 0 0 0 0 0 0 4200 42 0 0 0 0 0 0"].

Definition eth0_later : NetMonitor.NetInfo :=
  NetMonitor.mkNetInfo "eth0" 2100 21 0 0 4200 42 0 0 10000000000.

Definition clock_10s : nat → Z := λ _, 10000000000.

(** ** Vocabulary of the properties of the loop *)

(** The snapshots of the passes whose RPC reached the server. *)
Fixpoint delivered (envs : list Main.Env) (sent : list proto.MonitorInfo)
  : list proto.MonitorInfo :=
  match envs, sent with
  | env :: envs', monitor_info :: sent' =>
      if Main.rpc_ok env then monitor_info :: delivered envs' sent'
      else delivered envs' sent'
  | _, _ => []
  end.

(** [env_good] with an RPC that does not get through. *)
Definition env_offline : Main.Env := Main.mkEnv fs_good clock_us clock_us mem_zero false.

(** ** Vocabulary of the properties of the display *)

(** The cells of the rows that the table models build, in column order. *)
Definition soft_irq_cells (r : proto.SoftIrq.t) : list Qt.QVariant :=
  [Qt.QString (proto.SoftIrq.cpu r); Qt.Number (proto.SoftIrq.hi r);
   Qt.Number (proto.SoftIrq.timer r); Qt.Number (proto.SoftIrq.net_tx r);
   Qt.Number (proto.SoftIrq.net_rx r); Qt.Number (proto.SoftIrq.block r);
   Qt.Number (proto.SoftIrq.irq_poll r); Qt.Number (proto.SoftIrq.tasklet r);
   Qt.Number (proto.SoftIrq.sched r); Qt.Number (proto.SoftIrq.hrtimer r);
   Qt.Number (proto.SoftIrq.rcu r)].

Definition cpu_stat_cells (r : proto.CpuStat.t) : list Qt.QVariant :=
  [Qt.QString (proto.CpuStat.cpu_name r); Qt.Number (proto.CpuStat.cpu_percent r);
   Qt.Number (proto.CpuStat.usr_percent r); Qt.Number (proto.CpuStat.system_percent r)].

Definition net_info_cells (r : proto.NetInfo.t) : list Qt.QVariant :=
  [Qt.QString (proto.NetInfo.name r); Qt.Number (proto.NetInfo.send_rate r);
   Qt.Number (proto.NetInfo.rcv_rate r); Qt.Number (proto.NetInfo.send_packets_rate r);
   Qt.Number (proto.NetInfo.rcv_packets_rate r)].

Definition cpu_load_cells (r : proto.CpuLoad.t) : list Qt.QVariant :=
  [Qt.Number (proto.CpuLoad.load_avg_1 r); Qt.Number (proto.CpuLoad.load_avg_3 r);
   Qt.Number (proto.CpuLoad.load_avg_15 r)].

(** What a cell shows for the display role: the cell of [cells], the
    invalid value outside the table. *)
Definition shown {A} (cells : A → list Qt.QVariant) (records : list A)
    (row col : Z) : Qt.QVariant :=
  if (0 <=? row) && (0 <=? col)
  then default Qt.Invalid (a ← records !! Z.to_nat row; cells a !! Z.to_nat col)
  else Qt.Invalid.

(** The memory record [m] with other values for the two gauges
    [active_file] and [inactive_file]. *)
Definition with_file_gauges (m : proto.MemInfo.t) (active_file inactive_file : spec_float)
  : proto.MemInfo.t :=
  proto.MemInfo.mk (proto.MemInfo.used_percent m) (proto.MemInfo.total m)
    (proto.MemInfo.free m) (proto.MemInfo.avail m) (proto.MemInfo.buffers m)
    (proto.MemInfo.cached m) (proto.MemInfo.swap_cached m)
    (proto.MemInfo.active m) (proto.MemInfo.inactive m)
    (proto.MemInfo.active_anon m) (proto.MemInfo.inactive_anon m)
    active_file inactive_file
    (proto.MemInfo.dirty m) (proto.MemInfo.writeback m)
    (proto.MemInfo.anon_pages m) (proto.MemInfo.mapped m)
    (proto.MemInfo.kreclaimable m) (proto.MemInfo.sreclaimable m)
    (proto.MemInfo.sunreclaim m).

(** The field that each column of the memory table shows, in the order of
    the enumerators [USED_PERCENT], ..., [SUNRECLAIM]. *)
Definition mem_columns : list (proto.MemInfo.t → spec_float) :=
  [proto.MemInfo.used_percent; proto.MemInfo.total; proto.MemInfo.free;
   proto.MemInfo.avail; proto.MemInfo.buffers; proto.MemInfo.cached;
   proto.MemInfo.swap_cached; proto.MemInfo.active; proto.MemInfo.inactive;
   proto.MemInfo.active_anon; proto.MemInfo.inactive_anon; proto.MemInfo.dirty;
   proto.MemInfo.writeback; proto.MemInfo.anon_pages; proto.MemInfo.mapped;
   proto.MemInfo.kreclaimable; proto.MemInfo.sreclaimable; proto.MemInfo.sunreclaim].

(** The tables of the widget once every model has been updated from
    [monitor_info]. *)
Definition tables_of (monitor_info : proto.MonitorInfo) : MonitorWidget.t :=
  MonitorWidget.mk
    (Some (soft_irq_cells <$> proto.soft_irq monitor_info))
    (Some [cpu_load_cells (CpuLoadModel.cpu_load monitor_info)])
    (Some (cpu_stat_cells <$> proto.cpu_stat monitor_info))
    (Some [(λ g, Qt.Number (g (MemModel.mem_info monitor_info))) <$> mem_columns])
    (Some (net_info_cells <$> proto.net_info monitor_info)).

(** Every model of the widget has been allocated. *)
Definition allocated (w : MonitorWidget.t) : Prop :=
  is_Some (MonitorWidget.monitor_model_ w) ∧ is_Some (MonitorWidget.cpu_load_model_ w) ∧
  is_Some (MonitorWidget.cpu_stat_model_ w) ∧ is_Some (MonitorWidget.mem_model_ w) ∧
  is_Some (MonitorWidget.net_model_ w).

(** * Properties *)

(** ** The outcome monad *)

Lemma obind_Ok {A B} (m : Outcome A) (k : A → Outcome B) (b : B) :
  obind m k = Ok b ↔ ∃ a, m = Ok a ∧ k a = Ok b.
Proof.
  split.
  - destruct m as [a| |]; simpl; intros H; try discriminate. by exists a.
  - intros (a & -> & H). exact H.
Qed.

Lemma vec_at_Ok {A} (v : list A) (i : nat) (x : A) :
  vec_at v i = Ok x ↔ v !! i = Some x.
Proof.
  unfold vec_at. destruct (v !! i); split; intros H; try discriminate; congruence.
Qed.

Ltac inv_bind H :=
  repeat match type of H with
  | obind _ _ = Ok _ =>
      let a := fresh "a" in
      let Ha := fresh "Ha" in
      apply obind_Ok in H; destruct H as (a & Ha & H)
  end.

(** ** The reader *)

Lemma append_cons (c : ascii) (s l : string) :
  String c s +:+ l = String c (s +:+ l).
Proof. reflexivity. Qed.

Lemma append_empty_r (s : string) : s +:+ EmptyString = s.
Proof. induction s as [|c s IH]; [done | by rewrite append_cons, IH]. Qed.

Lemma append_snoc_assoc (a : string) (c : ascii) (l : string) :
  (a +:+ String c EmptyString) +:+ l = a +:+ String c l.
Proof. induction a as [|x a IH]; [done | by rewrite !append_cons, IH]. Qed.

Lemma records_from_acc (s a : string) :
  a ≠ EmptyString →
  ReadFile.records_from (Some a) s =
    match ReadFile.getline s with
    | (line, Some rest) =>
        ReadFile.split_ws None (a +:+ line) :: ReadFile.records_from None rest
    | (_, None) => []
    end.
Proof.
  revert a. induction s as [|c s IH]; intros a Ha; simpl; [done|].
  destruct (ascii_eqb c newline).
  - by rewrite append_empty_r.
  - rewrite IH by (destruct a; done).
    destruct (ReadFile.getline s) as [line [rest|]]; [|done].
    by rewrite append_snoc_assoc.
Qed.

Lemma records_from_getline (s : string) :
  ReadFile.records_from None s =
    match ReadFile.getline s with
    | (line, Some rest) =>
        if ReadFile.is_empty line then []
        else ReadFile.split_ws None line :: ReadFile.records_from None rest
    | (_, None) => []
    end.
Proof.
  destruct s as [|c s]; simpl; [done|].
  destruct (ascii_eqb c newline); [done|].
  rewrite records_from_acc by done.
  by destruct (ReadFile.getline s) as [line [rest|]].
Qed.

(** The records a sampler's [while] loop sees are those of the successive
    calls of [ReadLine], up to the first that returns [false]. *)
Lemma ReadAll_ReadLine (ifs_ : ReadFile.ifstream) :
  ReadFile.ReadAll ifs_ =
    match ReadFile.ReadLine ifs_ with
    | (Some args, ifs') => args :: ReadFile.ReadAll ifs'
    | (None, _) => []
    end.
Proof.
  destruct ifs_ as [s|]; simpl; [|done].
  rewrite records_from_getline.
  destruct (ReadFile.getline s) as [line [rest|]]; [|done].
  by destruct (ReadFile.is_empty line).
Qed.

Lemma split_ws_word (s w : string) :
  w ≠ EmptyString →
  ∃ h t, ReadFile.split_ws (Some w) s = h :: t ∧ h ≠ EmptyString.
Proof.
  revert w. induction s as [|c s IH]; intros w Hw; simpl.
  - by exists w, [].
  - destruct (isspace c).
    + by exists w, (ReadFile.split_ws None s).
    + apply IH. by destruct w.
Qed.

(** A record always has a first token; when that token is empty (a line of
    white space only) it is the only one. *)
Lemma split_ws_first (s : string) :
  ∃ h t, ReadFile.split_ws None s = h :: t ∧ (h = EmptyString → t = []).
Proof.
  induction s as [|c s IH]; simpl.
  - by exists EmptyString, [].
  - destruct (isspace c); [done|].
    destruct (split_ws_word s (String c EmptyString)) as (h & t & -> & Hh); [done|].
    by exists h, t.
Qed.

Lemma records_from_first (s : string) (acc : option string) (r : list string) :
  r ∈ ReadFile.records_from acc s →
  ∃ h t, r = h :: t ∧ (h = EmptyString → t = []).
Proof.
  revert acc. induction s as [|c s IH]; intros acc; simpl.
  - by intros ?%elem_of_nil.
  - destruct (ascii_eqb c newline).
    + destruct acc as [line|]; [|by intros ?%elem_of_nil].
      intros [->|Hin]%elem_of_cons; [apply split_ws_first | by eapply IH].
    + destruct acc; apply IH.
Qed.

Lemma ReadAll_first (ifs_ : ReadFile.ifstream) (r : list string) :
  r ∈ ReadFile.ReadAll ifs_ →
  ∃ h t, r = h :: t ∧ (h = EmptyString → t = []).
Proof.
  destruct ifs_ as [s|]; simpl; [apply records_from_first | by intros ?%elem_of_nil].
Qed.

(** ** The history discipline *)

Section observe_facts.
Context {V Msg : Type}.
Variable derive : V → V → option Msg.

Lemma observe_all_app (ss1 ss2 : list (string * V)) (st : gmap string V * list Msg) :
  History.observe_all derive (ss1 ++ ss2) st =
  History.observe_all derive ss2 (History.observe_all derive ss1 st).
Proof. apply fold_left_app. Qed.

Lemma observe_all_out (ss : list (string * V)) (h : gmap string V) (out : list Msg) :
  History.observe_all derive ss (h, out) =
  ((History.observe_all derive ss (h, [])).1,
   out ++ (History.observe_all derive ss (h, [])).2).
Proof.
  revert h out. induction ss as [|kv ss IH]; intros h out; simpl.
  - by rewrite app_nil_r.
  - unfold History.observe; simpl.
    rewrite IH. rewrite (IH _ (History.derived _ _ _)).
    simpl. by rewrite app_assoc.
Qed.

Lemma observe_all_lookup (ss : list (string * V)) (st : gmap string V * list Msg)
    (e : string) :
  e ∉ ss.*1 →
  (History.observe_all derive ss st).1 !! e = st.1 !! e.
Proof.
  revert st. induction ss as [|[k v] ss IH]; intros st Hnot; simpl; [done|].
  apply not_elem_of_cons in Hnot as [Hne Hnot].
  rewrite IH by done. simpl. by rewrite lookup_insert_ne.
Qed.

Lemma observe_all_last (pre post : list (string * V)) (e : string) (v : V)
    (st : gmap string V * list Msg) :
  e ∉ post.*1 →
  (History.observe_all derive (pre ++ (e, v) :: post) st).1 !! e = Some v.
Proof.
  intros Hnot. rewrite observe_all_app. simpl.
  rewrite observe_all_lookup by done. simpl. by rewrite lookup_insert_eq.
Qed.

(** Every message comes from a sample observed while the history held an
    older sample of the same entity. *)
Lemma observe_all_provenance (ss : list (string * V)) (h : gmap string V) (msg : Msg) :
  msg ∈ (History.observe_all derive ss (h, [])).2 →
  ∃ pre e v post old,
    ss = pre ++ (e, v) :: post ∧
    (History.observe_all derive pre (h, [])).1 !! e = Some old ∧
    derive v old = Some msg.
Proof.
  induction ss as [|[k v] ss IH] using rev_ind; simpl.
  - by intros ?%elem_of_nil.
  - rewrite observe_all_app. simpl.
    intros [Hin|Hin]%elem_of_app.
    + destruct (IH Hin) as (pre & e & v' & post & old & -> & Hold & Hd).
      exists pre, e, v', (post ++ [(k, v)]), old.
      by rewrite <- app_assoc.
    + unfold History.derived in Hin.
      destruct ((History.observe_all derive ss (h, [])).1 !! k) as [old|] eqn:Hold;
        [|by apply elem_of_nil in Hin].
      destruct (derive v old) as [m|] eqn:Hd; [|by apply elem_of_nil in Hin].
      apply list_elem_of_singleton in Hin as ->.
      by exists ss, k, v, [], old.
Qed.

(** Conversely, a sample observed over an older one yields its message. *)
Lemma observe_all_derived (pre post : list (string * V)) (e : string) (v old : V)
    (h : gmap string V) (msg : Msg) :
  (History.observe_all derive pre (h, [])).1 !! e = Some old →
  derive v old = Some msg →
  msg ∈ (History.observe_all derive (pre ++ (e, v) :: post) (h, [])).2.
Proof.
  intros Hold Hd. rewrite observe_all_app. simpl.
  destruct (History.observe_all derive pre (h, [])) as [h1 out1] eqn:E1.
  unfold History.observe. simpl in *.
  rewrite observe_all_out. simpl.
  rewrite Hold. simpl. rewrite Hd.
  apply elem_of_app. left. apply elem_of_app. right. by apply list_elem_of_singleton.
Qed.

End observe_facts.

(** ** The snapshot message *)

Lemma append_net_info_nil (m : proto.MonitorInfo) : proto.append_net_info [] m = m.
Proof. destruct m. unfold proto.append_net_info. simpl. by rewrite app_nil_r. Qed.

Lemma append_net_info_app (l1 l2 : list proto.NetInfo.t) (m : proto.MonitorInfo) :
  proto.append_net_info l2 (proto.append_net_info l1 m) = proto.append_net_info (l1 ++ l2) m.
Proof. unfold proto.append_net_info. simpl. by rewrite app_assoc. Qed.

Lemma append_soft_irq_nil (m : proto.MonitorInfo) : proto.append_soft_irq [] m = m.
Proof. destruct m. unfold proto.append_soft_irq. simpl. by rewrite app_nil_r. Qed.

Lemma append_soft_irq_app (l1 l2 : list proto.SoftIrq.t) (m : proto.MonitorInfo) :
  proto.append_soft_irq l2 (proto.append_soft_irq l1 m) = proto.append_soft_irq (l1 ++ l2) m.
Proof. unfold proto.append_soft_irq. simpl. by rewrite app_assoc. Qed.

Lemma append_cpu_stat_nil (m : proto.MonitorInfo) : proto.append_cpu_stat [] m = m.
Proof. destruct m. unfold proto.append_cpu_stat. simpl. by rewrite app_nil_r. Qed.

Lemma append_cpu_stat_app (l1 l2 : list proto.CpuStat.t) (m : proto.MonitorInfo) :
  proto.append_cpu_stat l2 (proto.append_cpu_stat l1 m) = proto.append_cpu_stat (l1 ++ l2) m.
Proof. unfold proto.append_cpu_stat. simpl. by rewrite app_assoc. Qed.

(** ** The network sampler is its parsing phase followed by the history
    discipline *)

Lemma net_emit_derived (h : gmap string NetMonitor.NetInfo) (key : string)
    (v : NetMonitor.NetInfo) (mi : proto.MonitorInfo) :
  NetMonitor.emit h key v mi =
  proto.append_net_info (History.derived NetMonitor.derive (h !! key) v) mi.
Proof.
  unfold NetMonitor.emit, History.derived, NetMonitor.derive.
  destruct (h !! key) as [old|]; [|by rewrite append_net_info_nil].
  destruct (gt0 _); [done | by rewrite append_net_info_nil].
Qed.

Lemma net_line_sample (now : Z) (r : list string) (h : gmap string NetMonitor.NetInfo)
    (mi : proto.MonitorInfo) :
  NetMonitor.line now r (h, mi) =
  (s <- NetMonitor.sample_of now r ;;
   Ok (match s with
       | Some kv =>
           let st := History.observe NetMonitor.derive (h, []) kv in
           (st.1, proto.append_net_info st.2 mi)
       | None => (h, mi)
       end)).
Proof.
  unfold NetMonitor.line, NetMonitor.sample_of.
  destruct (vec_at r 0) as [name0| |]; simpl; try done.
  destruct (NetMonitor.is_interface name0 r); simpl; [|done].
  destruct (pop_back name0) as [name| |]; simpl; try done.
  destruct (NetMonitor.parse name r now) as [v| |]; simpl; try done.
  by rewrite net_emit_derived.
Qed.

Lemma net_loop_samples (now : nat → Z) (records : list (list string)) (k : nat)
    (h : gmap string NetMonitor.NetInfo) (mi : proto.MonitorInfo) :
  NetMonitor.loop now k records (h, mi) =
  (ss <- NetMonitor.samples now k records ;;
   let st := History.observe_all NetMonitor.derive ss (h, []) in
   Ok (st.1, proto.append_net_info st.2 mi)).
Proof.
  revert k h mi. induction records as [|r records IH]; intros k h mi.
  - simpl. by rewrite append_net_info_nil.
  - cbn [NetMonitor.loop NetMonitor.samples]. rewrite net_line_sample.
    destruct (NetMonitor.sample_of (now k) r) as [[kv|]| |]; simpl; try done.
    + rewrite IH.
      destruct (NetMonitor.samples now (S k) records) as [ss| |]; simpl; try done.
      unfold History.observe. simpl.
      rewrite (observe_all_out _ ss (<[kv.1:=kv.2]> h)
                 (History.derived NetMonitor.derive (h !! kv.1) kv.2)).
      simpl. by rewrite append_net_info_app.
    + rewrite IH.
      by destruct (NetMonitor.samples now (S k) records) as [ss| |].
Qed.

(** Every sample of the parsing phase is stored under the name it holds. *)
Lemma net_sample_of_name (now : Z) (r : list string) (e : string)
    (v : NetMonitor.NetInfo) :
  NetMonitor.sample_of now r = Ok (Some (e, v)) →
  NetMonitor.name v = e ∧ NetMonitor.timepoint v = now ∧
  NetMonitor.parse e r now = Ok v ∧
  ∃ name0, r !! 0%nat = Some name0 ∧ NetMonitor.is_interface name0 r = true ∧
           pop_back name0 = Ok e.
Proof.
  unfold NetMonitor.sample_of. intros H. inv_bind H.
  destruct (NetMonitor.is_interface a r) eqn:Hi; [|done].
  inv_bind H. injection H as <- <-.
  apply vec_at_Ok in Ha.
  assert (NetMonitor.name a1 = a0 ∧ NetMonitor.timepoint a1 = now) as [? ?].
  { unfold NetMonitor.parse in Ha1. inv_bind Ha1. by injection Ha1 as <-. }
  eauto 10.
Qed.

Lemma net_samples_name (now : nat → Z) (records : list (list string)) (k : nat)
    (ss : list (string * NetMonitor.NetInfo)) :
  NetMonitor.samples now k records = Ok ss →
  Forall (λ kv, NetMonitor.name kv.2 = kv.1) ss.
Proof.
  revert k ss. induction records as [|r records IH]; intros k ss H; simpl in H.
  - injection H as <-. constructor.
  - inv_bind H. injection H as <-.
    destruct a as [[e v]|]; [|by eapply IH].
    constructor; [|by eapply IH].
    by apply net_sample_of_name in Ha as (? & _).
Qed.

(** ** The softirq sampler, in the same two phases *)

Lemma softirq_emit_derived (h : gmap string CpuSoftIrqMonitor.SoftIrq) (key : string)
    (v : CpuSoftIrqMonitor.SoftIrq) (mi : proto.MonitorInfo) :
  CpuSoftIrqMonitor.emit h key v mi =
  proto.append_soft_irq (History.derived CpuSoftIrqMonitor.derive (h !! key) v) mi.
Proof.
  unfold CpuSoftIrqMonitor.emit, History.derived, CpuSoftIrqMonitor.derive.
  destruct (h !! key) as [old|]; [|by rewrite append_soft_irq_nil].
  destruct (gt0 _); [done | by rewrite append_soft_irq_nil].
Qed.

Lemma softirq_column_sample (softirq : list (list string)) (i : nat) (now : Z)
    (h : gmap string CpuSoftIrqMonitor.SoftIrq) (mi : proto.MonitorInfo) :
  CpuSoftIrqMonitor.column softirq i now (h, mi) =
  (kv <- CpuSoftIrqMonitor.sample_of softirq i now ;;
   let st := History.observe CpuSoftIrqMonitor.derive (h, []) kv in
   Ok (st.1, proto.append_soft_irq st.2 mi)).
Proof.
  unfold CpuSoftIrqMonitor.column, CpuSoftIrqMonitor.sample_of.
  destruct (vec_at softirq 0) as [header| |]; simpl; try done.
  destruct (vec_at header i) as [name| |]; simpl; try done.
  destruct (CpuSoftIrqMonitor.parse softirq i name now) as [v| |]; simpl; try done.
  by rewrite softirq_emit_derived.
Qed.

Lemma softirq_columns_samples (now : nat → Z) (softirq : list (list string)) (n i : nat)
    (h : gmap string CpuSoftIrqMonitor.SoftIrq) (mi : proto.MonitorInfo) :
  CpuSoftIrqMonitor.columns now softirq i n (h, mi) =
  (ss <- CpuSoftIrqMonitor.samples now softirq i n ;;
   let st := History.observe_all CpuSoftIrqMonitor.derive ss (h, []) in
   Ok (st.1, proto.append_soft_irq st.2 mi)).
Proof.
  revert i h mi. induction n as [|n IH]; intros i h mi.
  - simpl. by rewrite append_soft_irq_nil.
  - cbn [CpuSoftIrqMonitor.columns CpuSoftIrqMonitor.samples].
    rewrite softirq_column_sample.
    destruct (CpuSoftIrqMonitor.sample_of softirq i (now i)) as [kv| |]; simpl; try done.
    rewrite IH.
    destruct (CpuSoftIrqMonitor.samples now softirq (S i) n) as [ss| |]; simpl; try done.
    unfold History.observe. simpl.
    rewrite (observe_all_out _ ss (<[kv.1:=kv.2]> h)
               (History.derived CpuSoftIrqMonitor.derive (h !! kv.1) kv.2)).
    simpl. by rewrite append_soft_irq_app.
Qed.

Lemma softirq_sample_of_name (softirq : list (list string)) (i : nat) (now : Z)
    (e : string) (v : CpuSoftIrqMonitor.SoftIrq) :
  CpuSoftIrqMonitor.sample_of softirq i now = Ok (e, v) →
  CpuSoftIrqMonitor.cpu_name v = e ∧ CpuSoftIrqMonitor.timepoint v = now ∧
  CpuSoftIrqMonitor.parse softirq i e now = Ok v ∧
  ∃ header, softirq !! 0%nat = Some header ∧ header !! i = Some e.
Proof.
  unfold CpuSoftIrqMonitor.sample_of. intros H. inv_bind H.
  injection H as <- <-.
  apply vec_at_Ok in Ha, Ha0.
  assert (CpuSoftIrqMonitor.cpu_name a1 = a0 ∧ CpuSoftIrqMonitor.timepoint a1 = now)
    as [? ?].
  { unfold CpuSoftIrqMonitor.parse in Ha1. inv_bind Ha1. by injection Ha1 as <-. }
  eauto 10.
Qed.

Lemma softirq_samples_name (now : nat → Z) (softirq : list (list string)) (n i : nat)
    (ss : list (string * CpuSoftIrqMonitor.SoftIrq)) :
  CpuSoftIrqMonitor.samples now softirq i n = Ok ss →
  Forall (λ kv, CpuSoftIrqMonitor.cpu_name kv.2 = kv.1) ss.
Proof.
  revert i ss. induction n as [|n IH]; intros i ss H; simpl in H.
  - injection H as <-. constructor.
  - inv_bind H. injection H as <-. destruct a as [e v].
    constructor; [|by eapply IH].
    by apply softirq_sample_of_name in Ha as (? & _).
Qed.

(** ** The CPU-time sampler, in the same two phases *)

Lemma cpu_emit_derived (h : gmap string CpuStatMonitor.CpuStat)
    (v : CpuStatMonitor.CpuStat) (mi : proto.MonitorInfo) :
  CpuStatMonitor.emit h v mi =
  proto.append_cpu_stat
    (History.derived CpuStatMonitor.derive (h !! CpuStatMonitor.cpu_name v) v) mi.
Proof.
  unfold CpuStatMonitor.emit, History.derived, CpuStatMonitor.derive.
  destruct (h !! CpuStatMonitor.cpu_name v) as [old|]; [done|].
  by rewrite append_cpu_stat_nil.
Qed.

Lemma cpu_line_sample (stof : string → Outcome F32.t) (r : list string)
    (h : gmap string CpuStatMonitor.CpuStat) (mi : proto.MonitorInfo) :
  CpuStatMonitor.line stof r (h, mi) =
  (s <- CpuStatMonitor.sample_of stof r ;;
   Ok (match s with
       | Some kv =>
           let st := History.observe CpuStatMonitor.derive (h, []) kv in
           (st.1, proto.append_cpu_stat st.2 mi)
       | None => (h, mi)
       end)).
Proof.
  unfold CpuStatMonitor.line, CpuStatMonitor.sample_of.
  destruct (vec_at r 0) as [name0| |]; simpl; try done.
  destruct (str_contains CpuStatMonitor.marker name0); simpl; [|done].
  destruct (CpuStatMonitor.parse stof r) as [v| |]; simpl; try done.
  by rewrite cpu_emit_derived.
Qed.

Lemma cpu_loop_samples (stof : string → Outcome F32.t) (records : list (list string))
    (h : gmap string CpuStatMonitor.CpuStat) (mi : proto.MonitorInfo) :
  CpuStatMonitor.loop stof records (h, mi) =
  (ss <- CpuStatMonitor.samples stof records ;;
   let st := History.observe_all CpuStatMonitor.derive ss (h, []) in
   Ok (st.1, proto.append_cpu_stat st.2 mi)).
Proof.
  revert h mi. induction records as [|r records IH]; intros h mi.
  - simpl. by rewrite append_cpu_stat_nil.
  - cbn [CpuStatMonitor.loop CpuStatMonitor.samples]. rewrite cpu_line_sample.
    destruct (CpuStatMonitor.sample_of stof r) as [[kv|]| |]; simpl; try done.
    + rewrite IH.
      destruct (CpuStatMonitor.samples stof records) as [ss| |]; simpl; try done.
      unfold History.observe. simpl.
      rewrite (observe_all_out _ ss (<[kv.1:=kv.2]> h)
                 (History.derived CpuStatMonitor.derive (h !! kv.1) kv.2)).
      simpl. by rewrite append_cpu_stat_app.
    + rewrite IH.
      by destruct (CpuStatMonitor.samples stof records) as [ss| |].
Qed.

Lemma cpu_sample_of_name (stof : string → Outcome F32.t) (r : list string) (e : string)
    (v : CpuStatMonitor.CpuStat) :
  CpuStatMonitor.sample_of stof r = Ok (Some (e, v)) →
  CpuStatMonitor.cpu_name v = e ∧ r !! 0%nat = Some e ∧
  str_contains CpuStatMonitor.marker e = true ∧
  CpuStatMonitor.parse stof r = Ok v.
Proof.
  unfold CpuStatMonitor.sample_of. intros H. inv_bind H.
  destruct (str_contains CpuStatMonitor.marker a) eqn:Hc; [|done].
  inv_bind H. injection H as <- <-.
  apply vec_at_Ok in Ha.
  assert (CpuStatMonitor.cpu_name a0 = a) as Hn.
  { unfold CpuStatMonitor.parse in Ha0. inv_bind Ha0. injection Ha0 as <-.
    simpl. apply vec_at_Ok in Ha1. congruence. }
  rewrite Hn. eauto.
Qed.

Lemma cpu_samples_name (stof : string → Outcome F32.t) (records : list (list string))
    (ss : list (string * CpuStatMonitor.CpuStat)) :
  CpuStatMonitor.samples stof records = Ok ss →
  Forall (λ kv, CpuStatMonitor.cpu_name kv.2 = kv.1 ∧
                str_contains CpuStatMonitor.marker kv.1 = true) ss.
Proof.
  revert ss. induction records as [|r records IH]; intros ss H; simpl in H.
  - injection H as <-. constructor.
  - inv_bind H. injection H as <-.
    destruct a as [[e v]|]; [|by eapply IH].
    constructor; [|by eapply IH].
    apply cpu_sample_of_name in Ha as (? & _ & ? & _). done.
Qed.

(** The whole call, for each of the three samplers. *)
Lemma net_UpdateOnce_samples (fs : gmap string string) (now : nat → Z)
    (h : gmap string NetMonitor.NetInfo) (mi : proto.MonitorInfo) :
  NetMonitor.UpdateOnce fs now h mi =
  (ss <- NetMonitor.all_samples fs now ;;
   let st := History.observe_all NetMonitor.derive ss (h, []) in
   Ok (st.1, proto.append_net_info st.2 mi)).
Proof. apply net_loop_samples. Qed.

Lemma softirq_UpdateOnce_samples (fs : gmap string string) (now : nat → Z)
    (h : gmap string CpuSoftIrqMonitor.SoftIrq) (mi : proto.MonitorInfo) :
  CpuSoftIrqMonitor.UpdateOnce fs now h mi =
  (ss <- CpuSoftIrqMonitor.all_samples fs now ;;
   let st := History.observe_all CpuSoftIrqMonitor.derive ss (h, []) in
   Ok (st.1, proto.append_soft_irq st.2 mi)).
Proof.
  unfold CpuSoftIrqMonitor.UpdateOnce, CpuSoftIrqMonitor.all_samples.
  destruct (vec_at _ 0) as [[|tok header]| |]; simpl; try done.
  apply softirq_columns_samples.
Qed.

Lemma cpu_UpdateOnce_samples (stof : string → Outcome F32.t) (fs : gmap string string)
    (h : gmap string CpuStatMonitor.CpuStat) (mi : proto.MonitorInfo) :
  CpuStatMonitor.UpdateOnce stof fs h mi =
  (ss <- CpuStatMonitor.all_samples stof fs ;;
   let st := History.observe_all CpuStatMonitor.derive ss (h, []) in
   Ok (st.1, proto.append_cpu_stat st.2 mi)).
Proof. apply cpu_loop_samples. Qed.

(** ** The snapshot cache *)

Lemma serve_state (calls : list GrpcManagerImpl.call) (s : GrpcManagerImpl.t) :
  (GrpcManagerImpl.serve calls s).2 =
  default s (GrpcManagerImpl.last_set calls).
Proof.
  revert s. induction calls as [|[request|] calls IH]; intros s; simpl; [done| |].
  - rewrite IH. by destruct (GrpcManagerImpl.last_set calls).
  - specialize (IH s). destruct (GrpcManagerImpl.serve calls s) as [responses s'].
    simpl in *. rewrite IH. by destruct (GrpcManagerImpl.last_set calls).
Qed.

Lemma serve_app (calls1 calls2 : list GrpcManagerImpl.call) (s : GrpcManagerImpl.t) :
  GrpcManagerImpl.serve (calls1 ++ calls2) s =
  ((GrpcManagerImpl.serve calls1 s).1 ++
   (GrpcManagerImpl.serve calls2 (GrpcManagerImpl.serve calls1 s).2).1,
   (GrpcManagerImpl.serve calls2 (GrpcManagerImpl.serve calls1 s).2).2).
Proof.
  revert s. induction calls1 as [|[request|] calls1 IH]; intros s; simpl.
  - by destruct (GrpcManagerImpl.serve calls2 s).
  - apply IH.
  - rewrite IH. destruct (GrpcManagerImpl.serve calls1 s) as [r1 s1]. simpl.
    by destruct (GrpcManagerImpl.serve calls2 s1).
Qed.

Lemma serve_gets (n : nat) (s : GrpcManagerImpl.t) :
  GrpcManagerImpl.serve (repeat GrpcManagerImpl.Get_ n) s = (repeat s n, s).
Proof. induction n as [|n IH]; simpl; [done | by rewrite IH]. Qed.

(** C5. The cache is last-write-wins: [SetMonitorInfo] replaces the stored
    snapshot whatever it was; a read issued after any history of calls
    returns the request of the last write of that history, and the empty
    snapshot when the history has no write; in particular every read that
    follows set(A), set(B) returns B, and reads before any write return the
    empty snapshot. *)
Theorem C5_cache_last_write_wins :
  (∀ request s, (GrpcManagerImpl.SetMonitorInfo request s).2 = request) ∧
  (∀ before,
     (GrpcManagerImpl.serve (before ++ [GrpcManagerImpl.Get_]) GrpcManagerImpl.init).1 =
     (GrpcManagerImpl.serve before GrpcManagerImpl.init).1 ++
     [default proto.empty (GrpcManagerImpl.last_set before)]) ∧
  (∀ before A B n,
     (GrpcManagerImpl.serve
        (before ++ GrpcManagerImpl.Set_ A :: GrpcManagerImpl.Set_ B ::
                   repeat GrpcManagerImpl.Get_ n) GrpcManagerImpl.init).1 =
     (GrpcManagerImpl.serve before GrpcManagerImpl.init).1 ++ repeat B n) ∧
  (∀ n, (GrpcManagerImpl.serve (repeat GrpcManagerImpl.Get_ n) GrpcManagerImpl.init).1 =
        repeat proto.empty n).
Proof.
  repeat split.
  - intros before. rewrite serve_app. simpl. by rewrite serve_state.
  - intros before A B n. rewrite serve_app. simpl. by rewrite serve_gets.
  - intros n. by rewrite serve_gets.
Qed.

(** ** The interface filter of the network sampler *)

Lemma find_index_lt (c : ascii) (s : string) (i : nat) :
  find_index c s = Some i → (i < String.length s)%nat.
Proof.
  revert i. induction s as [|a s IH]; intros i; simpl; [done|].
  destruct (ascii_eqb a c).
  - intros [= <-]. lia.
  - destruct (find_index c s) as [j|]; [|done].
    intros [= <-]. specialize (IH j eq_refl). lia.
Qed.

Lemma length_snoc (n : string) (c : ascii) :
  String.length (n +:+ String c EmptyString) = S (String.length n).
Proof. induction n as [|a n IH]; [done | rewrite append_cons; simpl; by rewrite IH]. Qed.

Lemma find_index_snoc (c : ascii) (n : string) :
  find_index c n = None →
  find_index c (n +:+ String c EmptyString) = Some (String.length n).
Proof.
  induction n as [|a n IH]; simpl.
  - intros _. unfold ascii_eqb. by rewrite Ascii.eqb_refl.
  - destruct (ascii_eqb a c); [done|].
    destruct (find_index c n); [done|]. intros _. by rewrite IH.
Qed.

Lemma drop_last_snoc (n : string) (c : ascii) :
  drop_last (n +:+ String c EmptyString) = n.
Proof.
  induction n as [|a n IH]; [done|].
  rewrite append_cons. simpl. rewrite IH.
  by destruct n.
Qed.

Lemma pop_back_snoc (n : string) (c : ascii) :
  pop_back (n +:+ String c EmptyString) = Ok n.
Proof.
  unfold pop_back. rewrite drop_last_snoc. by destruct n.
Qed.

Lemma find_index_last (c : ascii) (s : string) (i : nat) :
  find_index c s = Some i → i = (String.length s - 1)%nat →
  ∃ n, s = n +:+ String c EmptyString ∧ find_index c n = None.
Proof.
  revert i. induction s as [|a s IH]; intros i; simpl; [done|].
  destruct (ascii_eqb a c) eqn:Ea.
  - intros [= <-] Hl. exists EmptyString. split; [|done].
    apply Ascii.eqb_eq in Ea as ->. destruct s; [done | simpl in Hl; lia].
  - destruct (find_index c s) as [j|] eqn:Ej; [|done].
    intros [= <-] Hl. pose proof (find_index_lt _ _ _ Ej) as Hlt.
    destruct (IH j eq_refl) as (n & -> & Hn); [lia|].
    exists (String a n). split; [done|]. simpl. by rewrite Ea, Hn.
Qed.

(** The guard on the name: the first [':'] is the last character. *)
Lemma first_colon_is_last_iff (s : string) :
  s ≠ EmptyString →
  NetMonitor.first_colon_is_last s = true ↔
  ∃ n, s = n +:+ String colon EmptyString ∧ find_index colon n = None.
Proof.
  intros Hs. unfold NetMonitor.first_colon_is_last. split.
  - destruct (find_index colon s) as [i|] eqn:Ei.
    + intros Hi%Nat.eqb_eq. by eapply find_index_last.
    + by destruct s.
  - intros (n & -> & Hn). rewrite find_index_snoc by done.
    rewrite length_snoc. apply Nat.eqb_eq. lia.
Qed.

(** An accepted record of fewer than 13 tokens is never got through: one
    of the reads at the indices 10, 11 and 12 is past its end. *)
Lemma net_short_record (now : Z) (r : list string) (name0 : string)
    (st st' : gmap string NetMonitor.NetInfo * proto.MonitorInfo) :
  r !! 0%nat = Some name0 → NetMonitor.is_interface name0 r = true →
  (length r < 13)%nat →
  NetMonitor.line now r st ≠ Ok st'.
Proof.
  intros H0 Hi Hlen H. destruct st as [h mi].
  unfold NetMonitor.line in H. inv_bind H.
  apply vec_at_Ok in Ha. assert (a = name0) as -> by congruence.
  rewrite Hi in H. inv_bind H.
  unfold NetMonitor.parse, NetMonitor.field in Ha1. inv_bind Ha1.
  match goal with
  | Hf : obind (vec_at r 12) _ = Ok _ |- _ =>
      apply obind_Ok in Hf as (tok & Htok%vec_at_Ok%lookup_lt_Some & _)
  end.
  lia.
Qed.

(** The guard lets such records in, whatever the name and the counters. *)
Lemma net_guard_lets_short_records_in (n : string) (rest : list string) :
  find_index colon n = None → (9 ≤ length rest)%nat →
  NetMonitor.is_interface (n +:+ String colon EmptyString)
    ((n +:+ String colon EmptyString) :: rest) = true.
Proof.
  intros Hn Hlen. unfold NetMonitor.is_interface, NetMonitor.first_colon_is_last.
  rewrite find_index_snoc, length_snoc by done.
  apply andb_true_iff. split.
  - apply Nat.eqb_eq. lia.
  - apply Z.leb_le. simpl. lia.
Qed.

(** C10 fails on a record of ten tokens: the guard accepts it, and the
    sampler then reads [net_datas[10]], which is past its end. *)
Lemma C10_read_past_end :
  ReadFile.ReadAll (Some net_short) =
    [["eth0:"; "1"; "2"; "3"; "4"; "5"; "6"; "7"; "8"; "9"]] ∧
  NetMonitor.is_interface "eth0:" ["eth0:"; "1"; "2"; "3"; "4"; "5"; "6"; "7"; "8"; "9"]
    = true ∧
  vec_at ["eth0:"; "1"; "2"; "3"; "4"; "5"; "6"; "7"; "8"; "9"] 10 = @Undefined string ∧
  NetMonitor.UpdateOnce {[ NetMonitor.path := net_short ]} clock0 ∅ proto.empty
    = Undefined.
Proof. repeat split; vm_compute; reflexivity. Qed.

(** ** The samples and the records of a call *)

Lemma unique_key_split {V : Type} (pre post pre' post' : list (string * V))
    (e : string) (v v' : V) :
  pre ++ (e, v) :: post = pre' ++ (e, v') :: post' →
  e ∉ pre.*1 → e ∉ post.*1 → pre' = pre.
Proof.
  revert pre'. induction pre as [|x pre IH]; intros [|x' pre']; simpl.
  - done.
  - intros [= <- ->] _ Hpost. exfalso. apply Hpost.
    rewrite fmap_app. apply elem_of_app. right. simpl. apply elem_of_cons. by left.
  - intros [= -> _] Hpre _. exfalso. apply Hpre. simpl. apply elem_of_cons. by left.
  - intros [= -> Heq] Hpre Hpost. f_equal.
    apply IH; [done| |done]. simpl in Hpre. by apply not_elem_of_cons in Hpre as [_ ?].
Qed.

Lemma net_derive_name (v old : NetMonitor.NetInfo) (msg : proto.NetInfo.t) :
  NetMonitor.derive v old = Some msg →
  gt0 (Utils.SteadyTimeSecond (NetMonitor.timepoint v) (NetMonitor.timepoint old)) = true ∧
  msg = NetMonitor.rates v old
          (Utils.SteadyTimeSecond (NetMonitor.timepoint v) (NetMonitor.timepoint old)).
Proof.
  unfold NetMonitor.derive. destruct (gt0 _); [|done]. by intros [= <-].
Qed.

Lemma softirq_derive_name (v old : CpuSoftIrqMonitor.SoftIrq) (msg : proto.SoftIrq.t) :
  CpuSoftIrqMonitor.derive v old = Some msg →
  gt0 (Utils.SteadyTimeSecond (CpuSoftIrqMonitor.timepoint v)
                              (CpuSoftIrqMonitor.timepoint old)) = true ∧
  msg = CpuSoftIrqMonitor.rates v old
          (Utils.SteadyTimeSecond (CpuSoftIrqMonitor.timepoint v)
                                  (CpuSoftIrqMonitor.timepoint old)).
Proof.
  unfold CpuSoftIrqMonitor.derive. destruct (gt0 _); [|done]. by intros [= <-].
Qed.

Lemma str_contains_nonempty (s : string) :
  str_contains CpuStatMonitor.marker s = true → s ≠ EmptyString.
Proof. by intros H ->. Qed.

(** ** Rates *)

(** The 64-bit difference is the difference when that fits. *)
Lemma sub64_exact (a b : Z) :
  LLONG_MIN ≤ a - b ≤ LLONG_MAX → sub64 a b = a - b.
Proof.
  unfold sub64, wrap64, LLONG_MIN, LLONG_MAX. intros H.
  rewrite Z.mod_small by lia. lia.
Qed.

Lemma observe_all_held {V Msg : Type} (derive : V → V → option Msg)
    (pre : list (string * V)) (st : gmap string V * list Msg) :
  (History.observe_all derive pre st).1 = History.held pre st.1.
Proof.
  revert st. induction pre as [|kv pre IH]; intros st; simpl; [done|].
  by rewrite IH.
Qed.

Lemma elem_of_middle {A : Type} (pre post : list A) (x : A) : x ∈ pre ++ x :: post.
Proof. apply elem_of_app. right. apply elem_of_cons. by left. Qed.

(** ** The guards *)

(** In the softirq and network samplers a message is derived only under
    [period > 0]. *)
Lemma softirq_guard (v old : CpuSoftIrqMonitor.SoftIrq) :
  gt0 (Utils.SteadyTimeSecond (CpuSoftIrqMonitor.timepoint v)
                              (CpuSoftIrqMonitor.timepoint old)) = false →
  CpuSoftIrqMonitor.derive v old = None.
Proof. unfold CpuSoftIrqMonitor.derive. by intros ->. Qed.

Lemma net_guard (v old : NetMonitor.NetInfo) :
  gt0 (Utils.SteadyTimeSecond (NetMonitor.timepoint v) (NetMonitor.timepoint old)) = false →
  NetMonitor.derive v old = None.
Proof. unfold NetMonitor.derive. by intros ->. Qed.

(** In the CPU-time sampler the message is added before the guard is
    tested, and stays blank when the guard fails. *)
Lemma cpu_guard (v old : CpuStatMonitor.CpuStat) :
  gt0 (CpuStatMonitor.total_time_diff v old) = false →
  CpuStatMonitor.derive v old = Some proto.CpuStat.default.
Proof. unfold CpuStatMonitor.derive. by intros ->. Qed.

(** C2 fails in the CPU-time sampler.  Two successive ticks read the same
    counters for [cpu0]: the total delta is zero, and the second call
    still adds a record to the snapshot, the blank default one; on equal
    time stamps the network sampler adds none. *)
Lemma C2_cpu_blank_record :
  CpuStatMonitor.UpdateOnce stof_plain {[ CpuStatMonitor.path := stat_cpu0 ]}
    ∅ proto.empty
    = Ok ({[ "cpu0" := cpu0_before ]}, proto.empty) ∧
  gt0 (CpuStatMonitor.total_time_diff cpu0_before cpu0_before) = false ∧
  CpuStatMonitor.UpdateOnce stof_plain {[ CpuStatMonitor.path := stat_cpu0 ]}
    {[ "cpu0" := cpu0_before ]} proto.empty
    = Ok ({[ "cpu0" := cpu0_before ]},
          proto.add_cpu_stat proto.CpuStat.default proto.empty) ∧
  NetMonitor.UpdateOnce {[ NetMonitor.path := net_once ]} clock_5s
    {[ "eth0" := eth0_now ]} proto.empty
    = Ok ({[ "eth0" := eth0_now ]}, proto.empty).
Proof. repeat split; vm_compute; reflexivity. Qed.

(** ** The record of a sample of the CPU-time sampler *)

Lemma cpu_derive_percents (v old : CpuStatMonitor.CpuStat) (msg : proto.CpuStat.t) :
  CpuStatMonitor.derive v old = Some msg →
  gt0 (CpuStatMonitor.total_time_diff v old) = true →
  msg = CpuStatMonitor.percents v old.
Proof. unfold CpuStatMonitor.derive. intros [= <-] ->. done. Qed.

(** ** The columns of the softirq source *)

(** The entities sampled are the header tokens [i], ..., [i + n - 1]. *)
Lemma softirq_samples_keys (now : nat → Z) (softirq : list (list string))
    (header : list string) (n i : nat) (ss : list (string * CpuSoftIrqMonitor.SoftIrq)) :
  softirq !! 0%nat = Some header →
  CpuSoftIrqMonitor.samples now softirq i n = Ok ss →
  ss.*1 = take n (drop i header).
Proof.
  intros Hh. revert i ss. induction n as [|n IH]; intros i ss H; simpl in H.
  - injection H as <-. by rewrite take_0.
  - inv_bind H. injection H as <-. destruct a as [e v].
    apply softirq_sample_of_name in Ha as (_ & _ & _ & header' & Hh' & He).
    assert (header' = header) as -> by congruence.
    rewrite (drop_S _ _ _ He). simpl. f_equal. by apply IH.
Qed.

(** One call samples every header token but the last one. *)
Lemma softirq_all_samples_keys (fs : gmap string string) (now : nat → Z)
    (ss : list (string * CpuSoftIrqMonitor.SoftIrq)) :
  CpuSoftIrqMonitor.all_samples fs now = Ok ss →
  ∃ header,
    ReadFile.ReadAll (ReadFile.open fs CpuSoftIrqMonitor.path) !! 0%nat = Some header ∧
    ss.*1 = take (length header - 1) header.
Proof.
  unfold CpuSoftIrqMonitor.all_samples. intros H. inv_bind H.
  apply vec_at_Ok in Ha. exists a. split; [done|].
  destruct a as [|tok header]; [done|].
  by rewrite (softirq_samples_keys _ _ _ _ _ _ Ha H).
Qed.

(** The transposition: the sample of column [i] holds, for each of the ten
    interrupt classes, the token [i + 1] of that class's row. *)
Lemma softirq_sample_cells (softirq : list (list string)) (i : nat) (now : Z)
    (e : string) (v : CpuSoftIrqMonitor.SoftIrq) :
  CpuSoftIrqMonitor.sample_of softirq i now = Ok (e, v) →
  CpuSoftIrqMonitor.cell softirq 1 (i + 1) = Ok (CpuSoftIrqMonitor.hi v) ∧
  CpuSoftIrqMonitor.cell softirq 2 (i + 1) = Ok (CpuSoftIrqMonitor.timer v) ∧
  CpuSoftIrqMonitor.cell softirq 3 (i + 1) = Ok (CpuSoftIrqMonitor.net_tx v) ∧
  CpuSoftIrqMonitor.cell softirq 4 (i + 1) = Ok (CpuSoftIrqMonitor.net_rx v) ∧
  CpuSoftIrqMonitor.cell softirq 5 (i + 1) = Ok (CpuSoftIrqMonitor.block v) ∧
  CpuSoftIrqMonitor.cell softirq 6 (i + 1) = Ok (CpuSoftIrqMonitor.irq_poll v) ∧
  CpuSoftIrqMonitor.cell softirq 7 (i + 1) = Ok (CpuSoftIrqMonitor.tasklet v) ∧
  CpuSoftIrqMonitor.cell softirq 8 (i + 1) = Ok (CpuSoftIrqMonitor.sched v) ∧
  CpuSoftIrqMonitor.cell softirq 9 (i + 1) = Ok (CpuSoftIrqMonitor.hrtimer v) ∧
  CpuSoftIrqMonitor.cell softirq 10 (i + 1) = Ok (CpuSoftIrqMonitor.rcu v).
Proof.
  intros H. apply softirq_sample_of_name in H as (_ & _ & H & _).
  unfold CpuSoftIrqMonitor.parse in H. inv_bind H. injection H as <-.
  simpl. by repeat split.
Qed.

(** ** The memory sampler *)

Lemma mem_get_of_members (f : MemMonitor.member) (g : MemMonitor.member → Z) :
  MemMonitor.get f (MemMonitor.of_members g) = g f.
Proof. by destruct f. Qed.

Lemma mem_get_set (f f' : MemMonitor.member) (v : Z) (m : MemMonitor.MenInfo) :
  MemMonitor.get f (MemMonitor.set f' v m) =
  if decide (f' = f) then v else MemMonitor.get f m.
Proof. unfold MemMonitor.set. apply mem_get_of_members. Qed.

Lemma mem_line_assigns (r : list string) (m m' : MemMonitor.MenInfo) :
  MemMonitor.line r m = Ok m' →
  match MemMonitor.assigns r with
  | Some f => ∃ tok v, r !! 1%nat = Some tok ∧ stoll tok = Ok v ∧ m' = MemMonitor.set f v m
  | None => m' = m
  end.
Proof.
  unfold MemMonitor.line, MemMonitor.assigns. intros H. inv_bind H.
  apply vec_at_Ok in Ha. rewrite Ha.
  destruct (MemMonitor.member_of_label a) as [f|]; [|by injection H].
  inv_bind H. injection H as <-. inv_bind Ha0. apply vec_at_Ok in Ha1. eauto.
Qed.

Lemma mem_loop_app (pre post : list (list string)) (m : MemMonitor.MenInfo) :
  MemMonitor.loop (pre ++ post) m = (m1 <- MemMonitor.loop pre m ;; MemMonitor.loop post m1).
Proof.
  revert m. induction pre as [|r pre IH]; intros m; simpl; [done|].
  destruct (MemMonitor.line r m) as [m1| |]; simpl; [apply IH|done..].
Qed.

(** A member that no record assigns keeps its value. *)
Lemma mem_loop_other (records : list (list string)) (f : MemMonitor.member)
    (m m' : MemMonitor.MenInfo) :
  Forall (λ r, MemMonitor.assigns r ≠ Some f) records →
  MemMonitor.loop records m = Ok m' →
  MemMonitor.get f m' = MemMonitor.get f m.
Proof.
  intros Hall. revert m. induction Hall as [|r records Hr _ IH]; intros m H; simpl in H.
  - by injection H as <-.
  - inv_bind H. rewrite (IH _ H).
    apply mem_line_assigns in Ha.
    destruct (MemMonitor.assigns r) as [f'|]; [|by subst].
    destruct Ha as (tok & v & _ & _ & ->). rewrite mem_get_set.
    destruct (decide (f' = f)); [congruence | done].
Qed.

(** A member holds the value of the last record that assigns it. *)
Lemma mem_loop_last (pre post : list (list string)) (r : list string)
    (f : MemMonitor.member) (tok : string) (v : Z) (m m' : MemMonitor.MenInfo) :
  MemMonitor.loop (pre ++ r :: post) m = Ok m' →
  MemMonitor.assigns r = Some f → r !! 1%nat = Some tok → stoll tok = Ok v →
  Forall (λ r', MemMonitor.assigns r' ≠ Some f) post →
  MemMonitor.get f m' = v.
Proof.
  intros H Hf Htok Hv Hpost. rewrite mem_loop_app in H. inv_bind H.
  simpl in H. inv_bind H.
  rewrite (mem_loop_other _ _ _ _ Hpost H).
  apply mem_line_assigns in Ha0. rewrite Hf in Ha0.
  destruct Ha0 as (tok' & v' & Htok' & Hv' & ->).
  rewrite mem_get_set. destruct (decide (f = f)); [congruence | done].
Qed.

(** ** The collection loop *)

(** What a sampler adds does not depend on what the snapshot holds: a call
    on any snapshot is the call on the empty one, merged. *)
Lemma softirq_frame (fs : gmap string string) (now : nat → Z)
    (h : gmap string CpuSoftIrqMonitor.SoftIrq) (mi : proto.MonitorInfo) :
  CpuSoftIrqMonitor.UpdateOnce fs now h mi =
  (p <- CpuSoftIrqMonitor.UpdateOnce fs now h proto.empty ;;
   Ok (p.1, proto.append_soft_irq (proto.soft_irq p.2) mi)).
Proof.
  rewrite !softirq_UpdateOnce_samples.
  by destruct (CpuSoftIrqMonitor.all_samples fs now).
Qed.

Lemma cpu_frame (stof : string → Outcome F32.t) (fs : gmap string string)
    (h : gmap string CpuStatMonitor.CpuStat) (mi : proto.MonitorInfo) :
  CpuStatMonitor.UpdateOnce stof fs h mi =
  (p <- CpuStatMonitor.UpdateOnce stof fs h proto.empty ;;
   Ok (p.1, proto.append_cpu_stat (proto.cpu_stat p.2) mi)).
Proof.
  rewrite !cpu_UpdateOnce_samples.
  by destruct (CpuStatMonitor.all_samples stof fs).
Qed.

Lemma net_frame (fs : gmap string string) (now : nat → Z)
    (h : gmap string NetMonitor.NetInfo) (mi : proto.MonitorInfo) :
  NetMonitor.UpdateOnce fs now h mi =
  (p <- NetMonitor.UpdateOnce fs now h proto.empty ;;
   Ok (p.1, proto.append_net_info (proto.net_info p.2) mi)).
Proof.
  rewrite !net_UpdateOnce_samples.
  by destruct (NetMonitor.all_samples fs now).
Qed.

Lemma load_frame (stof : string → Outcome F32.t) (fs : gmap string string)
    (self : CpuLoadMonitor.t) (mi : proto.MonitorInfo) :
  CpuLoadMonitor.UpdateOnce stof fs self mi =
  (p <- CpuLoadMonitor.UpdateOnce stof fs self proto.empty ;;
   Ok (p.1, proto.mkMonitorInfo (proto.name mi) (proto.soft_irq mi)
              (proto.cpu_load p.2) (proto.cpu_stat mi) (proto.mem_info mi)
              (proto.net_info mi))).
Proof.
  unfold CpuLoadMonitor.UpdateOnce.
  repeat match goal with
  | |- context [obind ?m _] =>
      match m with
      | obind _ _ => fail 1
      | _ => destruct m; simpl; try done
      end
  end.
Qed.

Lemma mem_frame (fs : gmap string string) (uninit : MemMonitor.MenInfo)
    (mi : proto.MonitorInfo) :
  MemMonitor.UpdateOnce fs uninit mi =
  (p <- MemMonitor.UpdateOnce fs uninit proto.empty ;;
   Ok (proto.mkMonitorInfo (proto.name mi) (proto.soft_irq mi) (proto.cpu_load mi)
         (proto.cpu_stat mi) (proto.mem_info p) (proto.net_info mi))).
Proof.
  unfold MemMonitor.UpdateOnce.
  by destruct (MemMonitor.loop _ uninit).
Qed.

(** One pass is the five samplers in the order of [runners_], each on its
    own source and history; the first that does not return ends the pass. *)
Lemma collect_samplers (stof : string → Outcome F32.t) (name : option string)
    (env : Main.Env) (m : Main.Monitors) :
  Main.collect stof name env m =
  (p1 <- CpuSoftIrqMonitor.UpdateOnce (Main.fs env) (Main.softirq_clock env)
           (Main.cpu_softirqs_ m) proto.empty ;;
   p2 <- CpuLoadMonitor.UpdateOnce stof (Main.fs env) (Main.cpu_load_ m) proto.empty ;;
   p3 <- CpuStatMonitor.UpdateOnce stof (Main.fs env) (Main.cpu_stat_map_ m) proto.empty ;;
   p4 <- MemMonitor.UpdateOnce (Main.fs env) (Main.mem_uninit env) proto.empty ;;
   p5 <- NetMonitor.UpdateOnce (Main.fs env) (Main.net_clock env)
           (Main.net_info_ m) proto.empty ;;
   Ok (Main.mkMonitors p1.1 p2.1 p3.1 p5.1,
       proto.mkMonitorInfo (Main.host_name name) (proto.soft_irq p1.2)
         (proto.cpu_load p2.2) (proto.cpu_stat p3.2) (proto.mem_info p4)
         (proto.net_info p5.2))).
Proof.
  unfold Main.collect, Main.runners_, Main.run, Main.UpdateOnce.
  rewrite softirq_frame.
  destruct (CpuSoftIrqMonitor.UpdateOnce _ _ _ proto.empty) as [[h1 mi1]| |];
    simpl; try done.
  rewrite load_frame.
  destruct (CpuLoadMonitor.UpdateOnce _ _ _ proto.empty) as [[l2 mi2]| |];
    simpl; try done.
  rewrite cpu_frame.
  destruct (CpuStatMonitor.UpdateOnce _ _ _ proto.empty) as [[h3 mi3]| |];
    simpl; try done.
  rewrite mem_frame.
  destruct (MemMonitor.UpdateOnce _ _ proto.empty) as [mi4| |]; simpl; try done.
  rewrite net_frame.
  destruct (NetMonitor.UpdateOnce _ _ _ proto.empty) as [[h5 mi5]| |]; simpl; try done.
Qed.

(** C6, as the code has it.  The five samplers run one after the other on
    the same snapshot, with no failure isolation: a pass yields a snapshot
    exactly when every sampler returns, and the snapshot then holds, for
    each domain, what that domain's sampler derives from its own source
    and history, and is handed to the RPC client before the next pass; an
    exception raised by any sampler, or undefined behaviour in it, is
    handled nowhere: nothing is sent for that pass and the loop ends. *)
Theorem C6_no_failure_isolation (stof : string → Outcome F32.t) (name : option string)
    (env : Main.Env) (rest : list Main.Env) (m : Main.Monitors)
    (server : GrpcManagerImpl.t) :
  let softirq := CpuSoftIrqMonitor.UpdateOnce (Main.fs env) (Main.softirq_clock env)
                   (Main.cpu_softirqs_ m) proto.empty in
  let load := CpuLoadMonitor.UpdateOnce stof (Main.fs env) (Main.cpu_load_ m) proto.empty in
  let stat := CpuStatMonitor.UpdateOnce stof (Main.fs env) (Main.cpu_stat_map_ m)
                proto.empty in
  let mem := MemMonitor.UpdateOnce (Main.fs env) (Main.mem_uninit env) proto.empty in
  let net := NetMonitor.UpdateOnce (Main.fs env) (Main.net_clock env)
               (Main.net_info_ m) proto.empty in
  (returns (Main.collect stof name env m) ↔
   returns softirq ∧ returns load ∧ returns stat ∧ returns mem ∧ returns net) ∧
  (∀ m' monitor_info,
     Main.collect stof name env m = Ok (m', monitor_info) →
     ∃ p1 p2 p3 p4 p5,
       softirq = Ok p1 ∧ load = Ok p2 ∧ stat = Ok p3 ∧ mem = Ok p4 ∧ net = Ok p5 ∧
       m' = Main.mkMonitors p1.1 p2.1 p3.1 p5.1 ∧
       monitor_info =
         proto.mkMonitorInfo (Main.host_name name) (proto.soft_irq p1.2)
           (proto.cpu_load p2.2) (proto.cpu_stat p3.2) (proto.mem_info p4)
           (proto.net_info p5.2) ∧
       is_Some (proto.cpu_load monitor_info) ∧ is_Some (proto.mem_info monitor_info) ∧
       Main.loop stof name (env :: rest) m server =
         let next := Main.loop stof name rest m' (Main.publish env monitor_info server) in
         (monitor_info :: next.1.1, next.1.2, next.2)) ∧
  (∀ e, Main.collect stof name env m = Throw e →
        (softirq = Throw e ∨ load = Throw e ∨ stat = Throw e ∨ mem = Throw e ∨
         net = Throw e) ∧
        Main.loop stof name (env :: rest) m server = ([], server, Main.Terminated e)) ∧
  (Main.collect stof name env m = Undefined →
   Main.loop stof name (env :: rest) m server = ([], server, Main.Broken)).
Proof.
  intros softirq load stat mem net.
  pose proof (collect_samplers stof name env m) as Hc.
  fold softirq load stat mem net in Hc.
  split; [|split; [|split]].
  - rewrite Hc. unfold returns. split.
    + intros [r H]. inv_bind H. eauto 10.
    + intros ([p1 ->] & [p2 ->] & [p3 ->] & [p4 ->] & [p5 ->]). simpl. eauto.
  - intros m' monitor_info H. rewrite Hc in H. inv_bind H.
    injection H as <- <-.
    exists a, a0, a1, a2, a3. repeat (split; [done|]).
    split; [|split].
    + simpl. unfold load, CpuLoadMonitor.UpdateOnce in Ha0. inv_bind Ha0.
      injection Ha0 as <-. simpl. eauto.
    + simpl. unfold mem, MemMonitor.UpdateOnce in Ha2. inv_bind Ha2.
      injection Ha2 as <-. simpl. eauto.
    + cbn [Main.loop]. rewrite Hc, Ha, Ha0, Ha1, Ha2, Ha3. simpl.
      by destruct (Main.loop stof name rest _ _) as [[sent server'] th].
  - intros e H. split.
    + rewrite Hc in H.
      destruct softirq; simpl in H; [|injection H as <-; eauto|done].
      destruct load; simpl in H; [|injection H as <-; eauto|done].
      destruct stat; simpl in H; [|injection H as <-; eauto|done].
      destruct mem; simpl in H; [|injection H as <-; eauto|done].
      destruct net; simpl in H; [done|injection H as <-; eauto 10|done].
    + cbn [Main.loop]. by rewrite H.
  - intros H. cbn [Main.loop]. by rewrite H.
Qed.

(** C6 as stated fails: with a malformed counter in the network source
    and the four other sources well formed, the four other samplers return
    and the network sampler throws; no snapshot is produced for the pass,
    so the load, memory and CPU domains do not appear, and the loop ends
    without running the next pass.  With the well-formed network source
    the pass sends its snapshot and the loop goes on. *)
Lemma C6_counterexample :
  returns (CpuSoftIrqMonitor.UpdateOnce (Main.fs env_bad) (Main.softirq_clock env_bad)
             (Main.cpu_softirqs_ monitors0) proto.empty) ∧
  returns (CpuLoadMonitor.UpdateOnce stof_plain (Main.fs env_bad)
             (Main.cpu_load_ monitors0) proto.empty) ∧
  returns (CpuStatMonitor.UpdateOnce stof_plain (Main.fs env_bad)
             (Main.cpu_stat_map_ monitors0) proto.empty) ∧
  returns (MemMonitor.UpdateOnce (Main.fs env_bad) (Main.mem_uninit env_bad) proto.empty) ∧
  NetMonitor.UpdateOnce (Main.fs env_bad) (Main.net_clock env_bad)
    (Main.net_info_ monitors0) proto.empty = Throw invalid_argument ∧
  Main.collect stof_plain None env_bad monitors0 = Throw invalid_argument ∧
  Main.loop stof_plain None [env_bad; env_good] monitors0 GrpcManagerImpl.init
    = ([], GrpcManagerImpl.init, Main.Terminated invalid_argument) ∧
  ∃ monitor_info m',
    Main.loop stof_plain None [env_good] monitors0 GrpcManagerImpl.init
      = ([monitor_info], monitor_info, Main.Looping m').
Proof.
  split; [eexists; vm_compute; reflexivity|].
  split; [eexists; vm_compute; reflexivity|].
  split; [eexists; vm_compute; reflexivity|].
  split; [eexists; vm_compute; reflexivity|].
  split; [vm_compute; reflexivity|].
  split; [vm_compute; reflexivity|].
  split; [vm_compute; reflexivity|].
  eexists _, _. vm_compute. reflexivity.
Qed.

(** C6 on a pass over the five well-formed sources. *)
Lemma C6_no_failure_isolation_witness :
  ∃ m' monitor_info,
    Main.collect stof_plain None env_good monitors0 = Ok (m', monitor_info) ∧
    is_Some (proto.cpu_load monitor_info) ∧ is_Some (proto.mem_info monitor_info) ∧
    Main.loop stof_plain None [env_good] monitors0 GrpcManagerImpl.init =
      ([monitor_info], Main.publish env_good monitor_info GrpcManagerImpl.init,
       Main.Looping m').
Proof.
  eexists _, _. split; [vm_compute; reflexivity|].
  edestruct (proj1 (proj2 (C6_no_failure_isolation stof_plain None env_good []
                             monitors0 GrpcManagerImpl.init)))
    as (p1 & p2 & p3 & p4 & p5 & _ & _ & _ & _ & _ & _ & _ & Hload & Hmem & Hloop).
  { vm_compute; reflexivity. }
  split; [exact Hload|]. split; [exact Hmem|]. exact Hloop.
Defined.

(** ** Elapsed time and the guards, over all inputs *)

(** Rounding keeps the sign it is given. *)
Lemma binary_round_aux_sign (prec emax : Z) (s : bool) (m e : Z) (l : location) :
  match binary_round_aux prec emax s m e l with
  | S754_zero s' | S754_infinity s' | S754_finite s' _ _ => s' = s
  | S754_nan => True
  end.
Proof.
  unfold binary_round_aux.
  destruct (shr_fexp prec emax m e l) as [mrs' e'].
  destruct (shr_fexp prec emax _ e' loc_Exact) as [mrs'' e''].
  destruct (shr_m mrs''); [done| |done].
  by destruct (e'' <=? emax - prec).
Qed.

Lemma gt0_negative_sign (prec emax : Z) (m e : Z) (l : location) :
  gt0 (binary_round_aux prec emax true m e l) = false.
Proof.
  pose proof (binary_round_aux_sign prec emax true m e l) as H.
  by destruct (binary_round_aux prec emax true m e l) as [s'|s'| |s' ? ?]; subst.
Qed.

(** Two time stamps that do not advance give a period that is not
    positive. *)
Lemma steady_time_nonpositive (t1 t2 : Z) :
  sub64 t1 t2 ≤ 0 → gt0 (Utils.SteadyTimeSecond t1 t2) = false.
Proof.
  intros Hle. unfold Utils.SteadyTimeSecond.
  assert (F64.of_Z 1000000000 = S754_finite false 8388608000000000 (-23)) as ->
    by (vm_compute; reflexivity).
  destruct (sub64 t1 t2) as [|p|p]; [done|lia|].
  unfold F64.of_Z, binary_normalize, binary_round.
  destruct (shl_align _ _ _) as [mz ez].
  pose proof (binary_round_aux_sign F64.prec F64.emax true (Z.pos mz) ez loc_Exact) as H.
  destruct (binary_round_aux F64.prec F64.emax true (Z.pos mz) ez loc_Exact)
    as [s'|s'| |s' m' e']; subst; try done.
  unfold F64.div, SFdiv.
  destruct (SFdiv_core_binary _ _ _ _ _ _) as [[mq eq] lq].
  apply gt0_negative_sign.
Qed.

(** In the softirq and network samplers, a sample whose time stamp does
    not advance over the older one's yields no message, and no division. *)
Lemma elapsed_time_guard :
  (∀ v old, sub64 (CpuSoftIrqMonitor.timepoint v) (CpuSoftIrqMonitor.timepoint old) ≤ 0 →
            CpuSoftIrqMonitor.derive v old = None) ∧
  (∀ v old, sub64 (NetMonitor.timepoint v) (NetMonitor.timepoint old) ≤ 0 →
            NetMonitor.derive v old = None).
Proof.
  split; intros v old H.
  - apply softirq_guard. by apply steady_time_nonpositive.
  - apply net_guard. by apply steady_time_nonpositive.
Qed.

(** In the CPU-time sampler, whenever a call returns, every sample
    observed over an older one with a total delta that is not positive
    adds the blank record to the snapshot. *)
Lemma cpu_blank_record_whenever_guard_fails (stof : string → Outcome F32.t)
    (fs : gmap string string) (h h' : gmap string CpuStatMonitor.CpuStat)
    (mi mi' : proto.MonitorInfo) (pre post : list (string * CpuStatMonitor.CpuStat))
    (e : string) (cur old : CpuStatMonitor.CpuStat) :
  CpuStatMonitor.UpdateOnce stof fs h mi = Ok (h', mi') →
  CpuStatMonitor.all_samples stof fs = Ok (pre ++ (e, cur) :: post) →
  History.held pre h !! e = Some old →
  gt0 (CpuStatMonitor.total_time_diff cur old) = false →
  ∃ l, mi' = proto.append_cpu_stat l mi ∧ proto.CpuStat.default ∈ l.
Proof.
  intros H Hs Hold Hgt.
  rewrite cpu_UpdateOnce_samples, Hs in H. simpl in H. injection H as <- <-.
  eexists. split; [done|].
  eapply observe_all_derived.
  - by rewrite observe_all_held.
  - by apply cpu_guard.
Qed.

(** ** The reader *)

Lemma getline_line (l rest : string) :
  newline_free l → ReadFile.getline (l +:+ nl +:+ rest) = (l, Some rest).
Proof.
  unfold newline_free. induction l as [|c l IH]; intros H.
  - reflexivity.
  - rewrite append_cons. simpl in *.
    destruct (ascii_eqb c newline); [done|].
    destruct (find_index newline l); [done|]. by rewrite IH.
Qed.

Lemma getline_tail (t : string) :
  newline_free t → ReadFile.getline t = (t, None).
Proof.
  unfold newline_free. induction t as [|c t IH]; intros H; [done|].
  simpl in *. destruct (ascii_eqb c newline); [done|].
  destruct (find_index newline t); [done|]. by rewrite IH.
Qed.

Lemma getline_newline_free (s : string) :
  newline_free (ReadFile.getline s).1.
Proof.
  unfold newline_free. induction s as [|c s IH]; [done|]. simpl.
  destruct (ascii_eqb c newline) eqn:E; [done|].
  destruct (ReadFile.getline s) as [line rest]. simpl in *.
  by rewrite E, IH.
Qed.

Lemma text_cons (l : string) (lines : list string) (tail : string) :
  text (l :: lines) +:+ tail = l +:+ nl +:+ (text lines +:+ tail).
Proof.
  unfold text. simpl. generalize (foldr (λ l acc, l +:+ nl +:+ acc) EmptyString lines).
  intros r. induction l as [|c l IH]; [done|].
  by rewrite !append_cons, IH.
Qed.

Lemma stats_lines_eof (n : nat) : ReadFileStats.stats_lines n None = [].
Proof. by destruct n. Qed.

(** X1. [ReadFile::ReadLine], called until it returns false on a text
    made of newline-terminated lines and an unterminated tail, yields
    the token lists of the lines before the first empty one, in order;
    the unterminated tail is never returned. *)
Theorem X1_reader_records (lines : list string) (tail : string) :
  Forall newline_free lines → newline_free tail →
  ReadFile.ReadAll (Some (text lines +:+ tail)) =
    ReadFile.split_ws None <$> upto_blank lines.
Proof.
  intros Hl Ht. simpl. induction Hl as [|l lines Hn _ IH].
  - change (text [] +:+ tail) with tail.
    rewrite records_from_getline. by rewrite (getline_tail _ Ht).
  - rewrite text_cons, records_from_getline, (getline_line _ _ Hn).
    simpl. destruct (ReadFile.is_empty l); [done|]. by rewrite IH.
Qed.

Lemma X1_reader_records_witness :
  ReadFile.ReadAll (Some (text ["a b"; "c"; ""; "d"] +:+ "e f")) =
    [["a"; "b"]; ["c"]].
Proof.
  rewrite (X1_reader_records ["a b"; "c"; ""; "d"] "e f").
  - reflexivity.
  - repeat constructor.
  - reflexivity.
Defined.

(** X2. [ReadFile::GetStatsLines] returns the first [line_count] lines
    before the first empty one, the unterminated tail counting as a
    line; it returns nothing for a file that cannot be opened or a
    count that is not positive. *)
Theorem X2_stats_lines (fs : gmap string string) (stat_file : string)
    (lines : list string) (tail : string) (line_count : Z) :
  Forall newline_free lines → newline_free tail →
  (fs !! stat_file = Some (text lines +:+ tail) →
   ReadFileStats.GetStatsLines fs stat_file line_count =
     take (Z.to_nat line_count) (upto_blank (lines ++ [tail])))
  ∧ (fs !! stat_file = None ∨ line_count <= 0 →
     ReadFileStats.GetStatsLines fs stat_file line_count = []).
Proof.
  intros Hl Ht. unfold ReadFileStats.GetStatsLines, ReadFile.open. split.
  - intros ->. generalize (Z.to_nat line_count). clear line_count.
    induction Hl as [|l lines Hn _ IH]; intros [|n]; try done.
    + change (text [] +:+ tail) with tail.
      cbn [ReadFileStats.stats_lines]. rewrite (getline_tail _ Ht). simpl.
      destruct (ReadFile.is_empty tail); [done|].
      rewrite stats_lines_eof. simpl. by rewrite take_nil.
    + rewrite text_cons. cbn [ReadFileStats.stats_lines upto_blank app].
      rewrite (getline_line _ _ Hn).
      destruct (ReadFile.is_empty l); [done|]. simpl. by rewrite IH.
  - intros [-> | Hn].
    + apply stats_lines_eof.
    + by replace (Z.to_nat line_count) with O by lia.
Qed.

Lemma X2_stats_lines_witness :
  ReadFileStats.GetStatsLines {[ "f" := text ["a"; "b"] +:+ "c" ]} "f" 5 = ["a"; "b"; "c"]
  ∧ ReadFileStats.GetStatsLines {[ "f" := text ["a"; "b"] +:+ "c" ]} "f" 0 = [].
Proof.
  split.
  - rewrite (proj1 (X2_stats_lines {[ "f" := text ["a"; "b"] +:+ "c" ]} "f"
                      ["a"; "b"] "c" 5 ltac:(repeat constructor) eq_refl)).
    + reflexivity.
    + reflexivity.
  - apply (proj2 (X2_stats_lines {[ "f" := text ["a"; "b"] +:+ "c" ]} "f"
                    ["a"; "b"] "c" 0 ltac:(repeat constructor) eq_refl)).
    right. lia.
Defined.

(** ** The tokenizer *)

Lemma split_ws_gap (g s : string) :
  all_space g = true → ReadFile.split_ws None (g +:+ s) = ReadFile.split_ws None s.
Proof.
  induction g as [|c g IH]; intros H; [done|].
  rewrite append_cons. simpl in *. apply andb_true_iff in H as [-> H]. auto.
Qed.

Lemma split_ws_in_word (w a s : string) :
  has_space w = false →
  ReadFile.split_ws (Some a) (w +:+ s) = ReadFile.split_ws (Some (a +:+ w)) s.
Proof.
  revert a. induction w as [|c w IH]; intros a H.
  - by rewrite append_empty_r.
  - rewrite append_cons. simpl in *. apply orb_false_iff in H as [-> H].
    rewrite IH by done. f_equal. f_equal. apply append_snoc_assoc.
Qed.

Lemma split_ws_at_word (w s : string) :
  is_word w → ReadFile.split_ws None (w +:+ s) = ReadFile.split_ws (Some w) s.
Proof.
  intros [Hne H]. destruct w as [|c w]; [done|].
  rewrite append_cons. simpl in *. apply orb_false_iff in H as [-> H].
  by rewrite split_ws_in_word.
Qed.

Lemma split_ws_end_word (a g s : string) :
  g ≠ EmptyString → all_space g = true →
  ReadFile.split_ws (Some a) (g +:+ s) = a :: ReadFile.split_ws None s.
Proof.
  intros Hne H. destruct g as [|c g]; [done|].
  rewrite append_cons. simpl in *. apply andb_true_iff in H as [-> H].
  f_equal. by apply split_ws_gap.
Qed.

(** X3. The tokens of a line: white space before the first word is
    skipped, the words come out in order whatever the white space
    between them, and a line that does not end in the middle of a word
    (it is empty, or blank, or ends with white space) yields one more
    token, which is empty. *)
Theorem X3_tokens_of_line (lead : string) (items : list (string * string)) :
  all_space lead = true →
  Forall (λ wg, is_word wg.1 ∧ all_space wg.2 = true) items →
  separated items →
  ReadFile.split_ws None (lead +:+ join items) =
    items.*1 ++ (if ends_in_word items then [] else [EmptyString]).
Proof.
  intros Hlead Hitems Hsep. rewrite split_ws_gap by done. clear lead Hlead.
  induction Hitems as [|[w g] items [Hw Hg] Hitems IH]; [done|].
  cbn [join fmap list_fmap fst app]. simpl in Hw, Hg.
  rewrite split_ws_at_word by done.
  destruct items as [|it items].
  - simpl. rewrite append_empty_r. unfold ends_in_word. simpl.
    destruct g as [|c g]; [done|].
    rewrite <- (append_empty_r (String c g)).
    by rewrite split_ws_end_word.
  - destruct Hsep as [Hne Hsep]. destruct it as [w' g'].
    rewrite split_ws_end_word by done.
    rewrite IH by done. f_equal.
Qed.

Lemma X3_tokens_of_line_witness :
  ReadFile.split_ws None "  eth0:  12 7 " = ["eth0:"; "12"; "7"; ""].
Proof.
  apply (X3_tokens_of_line "  " [("eth0:", "  "); ("12", " "); ("7", " ")]).
  - reflexivity.
  - repeat constructor; done.
  - repeat split; done.
Defined.

Lemma split_ws_shape (s : string) (cur : option string) :
  (∀ w, cur = Some w → is_word w) →
  ∃ body final, ReadFile.split_ws cur s = body ++ [final]
    ∧ Forall is_word body ∧ has_space final = false.
Proof.
  revert cur. induction s as [|c s IH]; intros cur Hcur.
  - destruct cur as [w|]; simpl.
    + exists [], w. split; [done|]. split; [done|]. by apply Hcur.
    + by exists [], EmptyString.
  - simpl. destruct (isspace c) eqn:Ec.
    + destruct (IH None) as (body & final & E & Hb & Hf); [done|].
      destruct cur as [w|].
      * exists (w :: body), final. rewrite E. split; [done|].
        split; [|done]. constructor; [by apply Hcur|done].
      * by exists body, final.
    + destruct cur as [w|]; apply IH; intros w' [= <-].
      * destruct (Hcur w eq_refl) as [Hne Hw]. split.
        { by destruct w. }
        clear -Hw Ec. induction w as [|a w IHw]; simpl in *.
        { by rewrite Ec. }
        apply orb_false_iff in Hw as [-> Hw]. auto.
      * split; [done|]. simpl. by rewrite Ec.
Qed.

(** X4. The token list of any line is never empty; no token holds white
    space, and only the last one can be empty. *)
Theorem X4_tokens_shape (line : string) :
  ∃ body final, ReadFile.split_ws None line = body ++ [final]
    ∧ Forall is_word body ∧ has_space final = false.
Proof. by apply split_ws_shape. Qed.

(** ** The histories of the differential samplers *)

Section held_facts.
Context {V : Type}.

Lemma held_app (ss1 ss2 : list (string * V)) (h : gmap string V) :
  History.held (ss1 ++ ss2) h = History.held ss2 (History.held ss1 h).
Proof. apply fold_left_app. Qed.

Lemma held_lookup_other (ss : list (string * V)) (h : gmap string V) (e : string) :
  e ∉ ss.*1 → History.held ss h !! e = h !! e.
Proof.
  revert h. induction ss as [|[k v] ss IH]; intros h Hnot; [done|].
  simpl in *. apply not_elem_of_cons in Hnot as [Hne Hnot].
  rewrite IH by done. by apply lookup_insert_ne.
Qed.

Lemma held_lookup_last (pre post : list (string * V)) (e : string) (v : V)
    (h : gmap string V) :
  e ∉ post.*1 → History.held (pre ++ (e, v) :: post) h !! e = Some v.
Proof.
  intros Hnot. rewrite held_app. simpl.
  rewrite held_lookup_other by done. apply lookup_insert_eq.
Qed.

Lemma held_dom (ss : list (string * V)) (h : gmap string V) :
  dom (History.held ss h) = dom h ∪ list_to_set ss.*1.
Proof.
  revert h. induction ss as [|[k v] ss IH]; intros h; simpl.
  - by rewrite (right_id_L ∅ (∪)).
  - rewrite IH, dom_insert_L.
    by rewrite (comm_L (∪) {[k]} (dom h)), (assoc_L (∪)).
Qed.

Lemma held_nodup (ss : list (string * V)) (h : gmap string V) :
  NoDup ss.*1 → History.held ss h = list_to_map ss ∪ h.
Proof.
  revert h. induction ss as [|[k v] ss IH]; intros h Hnd; simpl.
  - by rewrite (left_id_L ∅ (∪)).
  - apply NoDup_cons in Hnd as [Hk Hnd]. rewrite IH by done.
    rewrite <- insert_union_l. symmetry. apply insert_union_r.
    by apply not_elem_of_list_to_map_1.
Qed.

Lemma held_invariant (P : string → V → Prop) (ss : list (string * V))
    (h : gmap string V) :
  Forall (λ kv, P kv.1 kv.2) ss →
  (∀ k v, h !! k = Some v → P k v) →
  ∀ k v, History.held ss h !! k = Some v → P k v.
Proof.
  intros Hss. revert h. induction Hss as [|[k0 v0] ss H0 _ IH]; intros h Hh; [done|].
  simpl. apply IH. intros k v.
  destruct (decide (k = k0)) as [->|Hne].
  - rewrite lookup_insert_eq. by intros [= <-].
  - rewrite lookup_insert_ne by done. apply Hh.
Qed.

End held_facts.

Section observe_nodup.
Context {V Msg : Type}.
Variable derive : V → V → option Msg.

Lemma flat_map_derived_insert (ss : list (string * V)) (h : gmap string V)
    (k : string) (v : V) :
  k ∉ ss.*1 →
  flat_map (λ kv, History.derived derive (<[k := v]> h !! kv.1) kv.2) ss =
  flat_map (λ kv, History.derived derive (h !! kv.1) kv.2) ss.
Proof.
  induction ss as [|[k' v'] ss IH]; intros Hnot; [done|].
  simpl in *. apply not_elem_of_cons in Hnot as [Hne Hnot].
  rewrite IH by done. by rewrite lookup_insert_ne.
Qed.

Lemma observe_all_nodup (ss : list (string * V)) (h : gmap string V) :
  NoDup ss.*1 →
  (History.observe_all derive ss (h, [])).2 =
  flat_map (λ kv, History.derived derive (h !! kv.1) kv.2) ss.
Proof.
  revert h. induction ss as [|[k v] ss IH]; intros h Hnd; [done|].
  apply NoDup_cons in Hnd as [Hk Hnd]. simpl.
  unfold History.observe. simpl. rewrite observe_all_out. simpl.
  rewrite IH by done. by rewrite flat_map_derived_insert.
Qed.

Lemma flat_map_derived_length (ss : list (string * V)) (h : gmap string V) :
  (length (flat_map (λ kv, History.derived derive (h !! kv.1) kv.2) ss)
   ≤ length ss)%nat.
Proof.
  induction ss as [|[k v] ss IH]; [done|]. simpl. rewrite length_app.
  assert (length (History.derived derive (h !! k) v) ≤ 1)%nat; [|lia].
  unfold History.derived. destruct (h !! k) as [old|]; simpl; [|lia].
  destruct (derive v old); simpl; lia.
Qed.

End observe_nodup.

(** X5. A history only grows.  Whenever a call of the softirq, the
    CPU-time or the network sampler returns, the history holds the
    entities it held before and those of the source read; an entity
    that the source does not name keeps its old sample, however old;
    an entity that the source names holds its last sample there. *)
Theorem X5_history_grows :
  (∀ fs now h mi h' mi',
     CpuSoftIrqMonitor.UpdateOnce fs now h mi = Ok (h', mi') →
     ∃ ss, CpuSoftIrqMonitor.all_samples fs now = Ok ss ∧
       dom h' = dom h ∪ list_to_set ss.*1 ∧
       (∀ e, e ∉ ss.*1 → h' !! e = h !! e) ∧
       (∀ pre e v post, ss = pre ++ (e, v) :: post → e ∉ post.*1 → h' !! e = Some v)) ∧
  (∀ stof fs h mi h' mi',
     CpuStatMonitor.UpdateOnce stof fs h mi = Ok (h', mi') →
     ∃ ss, CpuStatMonitor.all_samples stof fs = Ok ss ∧
       dom h' = dom h ∪ list_to_set ss.*1 ∧
       (∀ e, e ∉ ss.*1 → h' !! e = h !! e) ∧
       (∀ pre e v post, ss = pre ++ (e, v) :: post → e ∉ post.*1 → h' !! e = Some v)) ∧
  (∀ fs now h mi h' mi',
     NetMonitor.UpdateOnce fs now h mi = Ok (h', mi') →
     ∃ ss, NetMonitor.all_samples fs now = Ok ss ∧
       dom h' = dom h ∪ list_to_set ss.*1 ∧
       (∀ e, e ∉ ss.*1 → h' !! e = h !! e) ∧
       (∀ pre e v post, ss = pre ++ (e, v) :: post → e ∉ post.*1 → h' !! e = Some v)).
Proof.
  split; [|split].
  - intros fs now h mi h' mi'. rewrite softirq_UpdateOnce_samples.
    destruct (CpuSoftIrqMonitor.all_samples fs now) as [ss| |]; simpl; try done.
    intros [= <- _]. exists ss. split; [done|]. rewrite observe_all_held. simpl.
    split; [apply held_dom|]. split; [intros; by apply held_lookup_other|].
    intros pre e v post -> Hnot. by apply held_lookup_last.
  - intros stof fs h mi h' mi'. rewrite cpu_UpdateOnce_samples.
    destruct (CpuStatMonitor.all_samples stof fs) as [ss| |]; simpl; try done.
    intros [= <- _]. exists ss. split; [done|]. rewrite observe_all_held. simpl.
    split; [apply held_dom|]. split; [intros; by apply held_lookup_other|].
    intros pre e v post -> Hnot. by apply held_lookup_last.
  - intros fs now h mi h' mi'. rewrite net_UpdateOnce_samples.
    destruct (NetMonitor.all_samples fs now) as [ss| |]; simpl; try done.
    intros [= <- _]. exists ss. split; [done|]. rewrite observe_all_held. simpl.
    split; [apply held_dom|]. split; [intros; by apply held_lookup_other|].
    intros pre e v post -> Hnot. by apply held_lookup_last.
Qed.

Section observe_length.
Context {V Msg : Type}.
Variable derive : V → V → option Msg.

Lemma observe_all_length (ss : list (string * V)) (h : gmap string V) :
  (length (History.observe_all derive ss (h, [])).2 ≤ length ss)%nat.
Proof.
  revert h. induction ss as [|[k v] ss IH]; intros h; [done|].
  simpl. unfold History.observe. simpl. rewrite observe_all_out. simpl.
  rewrite length_app. specialize (IH (<[k := v]> h)).
  assert (length (History.derived derive (h !! k) v) ≤ 1)%nat; [|lia].
  unfold History.derived. destruct (h !! k) as [old|]; simpl; [|lia].
  destruct (derive v old); simpl; lia.
Qed.

Lemma flat_map_derived_empty (ss : list (string * V)) :
  flat_map (λ kv, History.derived derive ((∅ : gmap string V) !! kv.1) kv.2) ss = [].
Proof. induction ss as [|[k v] ss IH]; [done|]. simpl. by rewrite lookup_empty. Qed.

End observe_length.

(** X6. A call adds at most one record per sample it reads, and when the
    source names each entity once, the records are, in the order of the
    source, those of the entities that the history held when the call
    began, each computed against that older sample: the records of one
    call do not depend on each other. *)
Theorem X6_records_of_a_call :
  (∀ fs now h mi h' mi',
     CpuSoftIrqMonitor.UpdateOnce fs now h mi = Ok (h', mi') →
     ∃ ss l, CpuSoftIrqMonitor.all_samples fs now = Ok ss ∧
       mi' = proto.append_soft_irq l mi ∧ (length l ≤ length ss)%nat ∧
       (NoDup ss.*1 →
        l = flat_map (λ kv, History.derived CpuSoftIrqMonitor.derive (h !! kv.1) kv.2) ss)) ∧
  (∀ stof fs h mi h' mi',
     CpuStatMonitor.UpdateOnce stof fs h mi = Ok (h', mi') →
     ∃ ss l, CpuStatMonitor.all_samples stof fs = Ok ss ∧
       mi' = proto.append_cpu_stat l mi ∧ (length l ≤ length ss)%nat ∧
       (NoDup ss.*1 →
        l = flat_map (λ kv, History.derived CpuStatMonitor.derive (h !! kv.1) kv.2) ss)) ∧
  (∀ fs now h mi h' mi',
     NetMonitor.UpdateOnce fs now h mi = Ok (h', mi') →
     ∃ ss l, NetMonitor.all_samples fs now = Ok ss ∧
       mi' = proto.append_net_info l mi ∧ (length l ≤ length ss)%nat ∧
       (NoDup ss.*1 →
        l = flat_map (λ kv, History.derived NetMonitor.derive (h !! kv.1) kv.2) ss)).
Proof.
  split; [|split].
  - intros fs now h mi h' mi'. rewrite softirq_UpdateOnce_samples.
    destruct (CpuSoftIrqMonitor.all_samples fs now) as [ss| |]; simpl; try done.
    intros [= _ <-]. eexists ss, _. split; [done|]. split; [done|].
    split; [apply observe_all_length | apply observe_all_nodup].
  - intros stof fs h mi h' mi'. rewrite cpu_UpdateOnce_samples.
    destruct (CpuStatMonitor.all_samples stof fs) as [ss| |]; simpl; try done.
    intros [= _ <-]. eexists ss, _. split; [done|]. split; [done|].
    split; [apply observe_all_length | apply observe_all_nodup].
  - intros fs now h mi h' mi'. rewrite net_UpdateOnce_samples.
    destruct (NetMonitor.all_samples fs now) as [ss| |]; simpl; try done.
    intros [= _ <-]. eexists ss, _. split; [done|]. split; [done|].
    split; [apply observe_all_length | apply observe_all_nodup].
Qed.

Lemma X6_records_of_a_call_witness :
  ∃ h' mi',
    NetMonitor.UpdateOnce {[ NetMonitor.path := net_once ]} clock_5s
      {[ "eth0" := eth0_before; "wlan0" := wlan0_before ]} proto.empty = Ok (h', mi') ∧
    proto.net_info mi' =
      [NetMonitor.rates eth0_now eth0_before (Utils.SteadyTimeSecond 5000000000 0)].
Proof.
  eexists _, _. split; [vm_compute; reflexivity|].
  edestruct (proj2 (proj2 X6_records_of_a_call) {[ NetMonitor.path := net_once ]}
               clock_5s {[ "eth0" := eth0_before; "wlan0" := wlan0_before ]} proto.empty)
    as (ss & l & Hss & Hmi & _ & Hl).
  { vm_compute; reflexivity. }
  vm_compute in Hss. injection Hss as <-.
  rewrite Hmi, Hl by apply NoDup_singleton. vm_compute; reflexivity.
Defined.

Lemma X5_history_grows_witness :
  ∃ mi',
    NetMonitor.UpdateOnce {[ NetMonitor.path := net_once ]} clock_5s
      {[ "wlan0" := wlan0_before ]} proto.empty
      = Ok (<[ "eth0" := eth0_now ]> {[ "wlan0" := wlan0_before ]}, mi') ∧
    (<[ "eth0" := eth0_now ]> {[ "wlan0" := wlan0_before ]}
       : gmap string NetMonitor.NetInfo) !! "wlan0" = Some wlan0_before ∧
    (<[ "eth0" := eth0_now ]> {[ "wlan0" := wlan0_before ]}
       : gmap string NetMonitor.NetInfo) !! "eth0" = Some eth0_now.
Proof.
  exists proto.empty.
  assert (NetMonitor.UpdateOnce {[ NetMonitor.path := net_once ]} clock_5s
            {[ "wlan0" := wlan0_before ]} proto.empty
          = Ok (<[ "eth0" := eth0_now ]> {[ "wlan0" := wlan0_before ]}, proto.empty))
    as Hrun.
  { vm_compute; reflexivity. }
  split; [exact Hrun|].
  destruct (proj2 (proj2 X5_history_grows) _ _ _ _ _ _ Hrun)
    as (ss & Hss & _ & Hother & Hlast).
  assert (ss = [("eth0", eth0_now)]) as ->.
  { vm_compute in Hss. injection Hss as <-. reflexivity. }
  split.
  - rewrite Hother; [vm_compute; reflexivity|].
    intros [Heq|Hin]%elem_of_cons; [discriminate | by apply elem_of_nil in Hin].
  - apply (Hlast [] "eth0" _ []); [reflexivity | apply not_elem_of_nil].
Defined.

(** X7. The softirq and the network samplers never report a rate across
    time stamps that do not advance: every record a call adds comes from
    a sample whose time stamp is strictly later, as a 64-bit difference,
    than that of the older sample it is compared with. *)
Theorem X7_records_need_advancing_clock :
  (∀ fs now h mi h' mi',
     CpuSoftIrqMonitor.UpdateOnce fs now h mi = Ok (h', mi') →
     ∃ ss l, CpuSoftIrqMonitor.all_samples fs now = Ok ss ∧
       mi' = proto.append_soft_irq l mi ∧
       ∀ msg, msg ∈ l →
         ∃ pre e cur post old,
           ss = pre ++ (e, cur) :: post ∧ History.held pre h !! e = Some old ∧
           CpuSoftIrqMonitor.derive cur old = Some msg ∧
           0 < sub64 (CpuSoftIrqMonitor.timepoint cur) (CpuSoftIrqMonitor.timepoint old)) ∧
  (∀ fs now h mi h' mi',
     NetMonitor.UpdateOnce fs now h mi = Ok (h', mi') →
     ∃ ss l, NetMonitor.all_samples fs now = Ok ss ∧
       mi' = proto.append_net_info l mi ∧
       ∀ msg, msg ∈ l →
         ∃ pre e cur post old,
           ss = pre ++ (e, cur) :: post ∧ History.held pre h !! e = Some old ∧
           NetMonitor.derive cur old = Some msg ∧
           0 < sub64 (NetMonitor.timepoint cur) (NetMonitor.timepoint old)).
Proof.
  split.
  - intros fs now h mi h' mi'. rewrite softirq_UpdateOnce_samples.
    destruct (CpuSoftIrqMonitor.all_samples fs now) as [ss| |]; simpl; try done.
    intros [= _ <-]. eexists ss, _. split; [done|]. split; [done|].
    intros msg (pre & e & cur & post & old & -> & Hold & Hd)%observe_all_provenance.
    rewrite observe_all_held in Hold. exists pre, e, cur, post, old.
    repeat split; try done.
    destruct (Z.le_gt_cases
                (sub64 (CpuSoftIrqMonitor.timepoint cur) (CpuSoftIrqMonitor.timepoint old)) 0)
      as [Hle|Hgt]; [|lia].
    apply steady_time_nonpositive, softirq_guard in Hle. congruence.
  - intros fs now h mi h' mi'. rewrite net_UpdateOnce_samples.
    destruct (NetMonitor.all_samples fs now) as [ss| |]; simpl; try done.
    intros [= _ <-]. eexists ss, _. split; [done|]. split; [done|].
    intros msg (pre & e & cur & post & old & -> & Hold & Hd)%observe_all_provenance.
    rewrite observe_all_held in Hold. exists pre, e, cur, post, old.
    repeat split; try done.
    destruct (Z.le_gt_cases
                (sub64 (NetMonitor.timepoint cur) (NetMonitor.timepoint old)) 0)
      as [Hle|Hgt]; [|lia].
    apply steady_time_nonpositive, net_guard in Hle. congruence.
Qed.

Lemma X7_records_need_advancing_clock_witness :
  ∃ h' mi',
    NetMonitor.UpdateOnce {[ NetMonitor.path := net_once ]} clock_5s
      {[ "eth0" := eth0_before ]} proto.empty = Ok (h', mi') ∧
    ∃ ss l, NetMonitor.all_samples {[ NetMonitor.path := net_once ]} clock_5s = Ok ss ∧
      mi' = proto.append_net_info l proto.empty ∧
      ∀ msg, msg ∈ l →
        ∃ pre e cur post old,
          ss = pre ++ (e, cur) :: post ∧
          History.held pre {[ "eth0" := eth0_before ]} !! e = Some old ∧
          NetMonitor.derive cur old = Some msg ∧
          0 < sub64 (NetMonitor.timepoint cur) (NetMonitor.timepoint old).
Proof.
  eexists _, _. split; [vm_compute; reflexivity|].
  eapply (proj2 X7_records_need_advancing_clock {[ NetMonitor.path := net_once ]}
            clock_5s {[ "eth0" := eth0_before ]} proto.empty).
  vm_compute; reflexivity.
Defined.

(** X8. Two calls in a row, the first on an empty history, on sources
    that name each entity once: the first call adds nothing, and the
    second adds, in the order of its source, the records of the
    entities that the first source named too, each computed against
    the sample of the first call. *)
Theorem X8_two_calls :
  (∀ fs1 now1 fs2 now2 mi h1 mi1 h2 mi2,
     CpuSoftIrqMonitor.UpdateOnce fs1 now1 ∅ mi = Ok (h1, mi1) →
     CpuSoftIrqMonitor.UpdateOnce fs2 now2 h1 proto.empty = Ok (h2, mi2) →
     ∃ ss1 ss2,
       CpuSoftIrqMonitor.all_samples fs1 now1 = Ok ss1 ∧
       CpuSoftIrqMonitor.all_samples fs2 now2 = Ok ss2 ∧
       (NoDup ss1.*1 → NoDup ss2.*1 →
        mi1 = mi ∧
        proto.soft_irq mi2 =
          flat_map (λ kv, History.derived CpuSoftIrqMonitor.derive
                            (list_to_map (M := gmap string _) ss1 !! kv.1) kv.2) ss2)) ∧
  (∀ stof fs1 fs2 mi h1 mi1 h2 mi2,
     CpuStatMonitor.UpdateOnce stof fs1 ∅ mi = Ok (h1, mi1) →
     CpuStatMonitor.UpdateOnce stof fs2 h1 proto.empty = Ok (h2, mi2) →
     ∃ ss1 ss2,
       CpuStatMonitor.all_samples stof fs1 = Ok ss1 ∧
       CpuStatMonitor.all_samples stof fs2 = Ok ss2 ∧
       (NoDup ss1.*1 → NoDup ss2.*1 →
        mi1 = mi ∧
        proto.cpu_stat mi2 =
          flat_map (λ kv, History.derived CpuStatMonitor.derive
                            (list_to_map (M := gmap string _) ss1 !! kv.1) kv.2) ss2)) ∧
  (∀ fs1 now1 fs2 now2 mi h1 mi1 h2 mi2,
     NetMonitor.UpdateOnce fs1 now1 ∅ mi = Ok (h1, mi1) →
     NetMonitor.UpdateOnce fs2 now2 h1 proto.empty = Ok (h2, mi2) →
     ∃ ss1 ss2,
       NetMonitor.all_samples fs1 now1 = Ok ss1 ∧
       NetMonitor.all_samples fs2 now2 = Ok ss2 ∧
       (NoDup ss1.*1 → NoDup ss2.*1 →
        mi1 = mi ∧
        proto.net_info mi2 =
          flat_map (λ kv, History.derived NetMonitor.derive
                            (list_to_map (M := gmap string _) ss1 !! kv.1) kv.2) ss2)).
Proof.
  split; [|split].
  - intros fs1 now1 fs2 now2 mi h1 mi1 h2 mi2.
    rewrite !softirq_UpdateOnce_samples.
    destruct (CpuSoftIrqMonitor.all_samples fs1 now1) as [ss1| |]; simpl; try done.
    intros [= <- <-].
    destruct (CpuSoftIrqMonitor.all_samples fs2 now2) as [ss2| |]; simpl; try done.
    intros [= _ <-]. exists ss1, ss2. split; [done|]. split; [done|].
    intros Hnd1 Hnd2. rewrite !observe_all_nodup by done.
    rewrite observe_all_held, held_nodup by done. simpl.
    rewrite flat_map_derived_empty, append_soft_irq_nil.
    by rewrite (right_id_L ∅ (∪)).
  - intros stof fs1 fs2 mi h1 mi1 h2 mi2.
    rewrite !cpu_UpdateOnce_samples.
    destruct (CpuStatMonitor.all_samples stof fs1) as [ss1| |]; simpl; try done.
    intros [= <- <-].
    destruct (CpuStatMonitor.all_samples stof fs2) as [ss2| |]; simpl; try done.
    intros [= _ <-]. exists ss1, ss2. split; [done|]. split; [done|].
    intros Hnd1 Hnd2. rewrite !observe_all_nodup by done.
    rewrite observe_all_held, held_nodup by done. simpl.
    rewrite flat_map_derived_empty, append_cpu_stat_nil.
    by rewrite (right_id_L ∅ (∪)).
  - intros fs1 now1 fs2 now2 mi h1 mi1 h2 mi2.
    rewrite !net_UpdateOnce_samples.
    destruct (NetMonitor.all_samples fs1 now1) as [ss1| |]; simpl; try done.
    intros [= <- <-].
    destruct (NetMonitor.all_samples fs2 now2) as [ss2| |]; simpl; try done.
    intros [= _ <-]. exists ss1, ss2. split; [done|]. split; [done|].
    intros Hnd1 Hnd2. rewrite !observe_all_nodup by done.
    rewrite observe_all_held, held_nodup by done. simpl.
    rewrite flat_map_derived_empty, append_net_info_nil.
    by rewrite (right_id_L ∅ (∪)).
Qed.

Lemma X8_two_calls_witness :
  ∃ h1 mi1 h2 mi2,
    NetMonitor.UpdateOnce {[ NetMonitor.path := net_once ]} clock_5s ∅ proto.empty
      = Ok (h1, mi1) ∧
    NetMonitor.UpdateOnce {[ NetMonitor.path := net_once_later ]} clock_10s h1 proto.empty
      = Ok (h2, mi2) ∧
    mi1 = proto.empty ∧
    proto.net_info mi2 =
      [NetMonitor.rates eth0_later eth0_now (Utils.SteadyTimeSecond 10000000000 5000000000)].
Proof.
  eexists _, _, _, _. split; [vm_compute; reflexivity|].
  split; [vm_compute; reflexivity|].
  edestruct (proj2 (proj2 X8_two_calls) {[ NetMonitor.path := net_once ]} clock_5s
               {[ NetMonitor.path := net_once_later ]} clock_10s proto.empty)
    as (ss1 & ss2 & Hss1 & Hss2 & H).
  { vm_compute; reflexivity. }
  { vm_compute; reflexivity. }
  vm_compute in Hss1. injection Hss1 as <-.
  vm_compute in Hss2. injection Hss2 as <-.
  destruct H as [H1 H2]; [apply NoDup_singleton | apply NoDup_singleton |].
  split; [exact H1|]. rewrite H2. vm_compute; reflexivity.
Defined.

(** X9. Every history entry is stored under its own name.  A returning
    call of the softirq, the CPU-time or the network sampler keeps that
    true, and every key of the CPU-time history holds the marker
    ["cpu"]; all three hold of the empty histories the process starts
    with. *)
Theorem X9_keys_are_names :
  (∀ fs now h mi h' mi',
     CpuSoftIrqMonitor.UpdateOnce fs now h mi = Ok (h', mi') →
     (∀ k v, h !! k = Some v → CpuSoftIrqMonitor.cpu_name v = k) →
     ∀ k v, h' !! k = Some v → CpuSoftIrqMonitor.cpu_name v = k) ∧
  (∀ stof fs h mi h' mi',
     CpuStatMonitor.UpdateOnce stof fs h mi = Ok (h', mi') →
     (∀ k v, h !! k = Some v →
             CpuStatMonitor.cpu_name v = k ∧ str_contains CpuStatMonitor.marker k = true) →
     ∀ k v, h' !! k = Some v →
            CpuStatMonitor.cpu_name v = k ∧ str_contains CpuStatMonitor.marker k = true) ∧
  (∀ fs now h mi h' mi',
     NetMonitor.UpdateOnce fs now h mi = Ok (h', mi') →
     (∀ k v, h !! k = Some v → NetMonitor.name v = k) →
     ∀ k v, h' !! k = Some v → NetMonitor.name v = k).
Proof.
  split; [|split].
  - intros fs now h mi h' mi'. rewrite softirq_UpdateOnce_samples.
    destruct (CpuSoftIrqMonitor.all_samples fs now) as [ss| |] eqn:Ess; simpl; try done.
    intros [= <- _]. rewrite observe_all_held. simpl.
    apply (held_invariant (λ k v, CpuSoftIrqMonitor.cpu_name v = k)).
    unfold CpuSoftIrqMonitor.all_samples in Ess.
    destruct (vec_at _ 0) as [header| |]; simpl in Ess; try done.
    destruct header; [done|]. by eapply softirq_samples_name.
  - intros stof fs h mi h' mi'. rewrite cpu_UpdateOnce_samples.
    destruct (CpuStatMonitor.all_samples stof fs) as [ss| |] eqn:Ess; simpl; try done.
    intros [= <- _]. rewrite observe_all_held. simpl.
    apply (held_invariant (λ k v, CpuStatMonitor.cpu_name v = k
                                  ∧ str_contains CpuStatMonitor.marker k = true)).
    by eapply cpu_samples_name.
  - intros fs now h mi h' mi'. rewrite net_UpdateOnce_samples.
    destruct (NetMonitor.all_samples fs now) as [ss| |] eqn:Ess; simpl; try done.
    intros [= <- _]. rewrite observe_all_held. simpl.
    apply (held_invariant (λ k v, NetMonitor.name v = k)).
    by eapply net_samples_name.
Qed.

Lemma X9_keys_are_names_witness :
  ∃ h' mi',
    NetMonitor.UpdateOnce {[ NetMonitor.path := net_once ]} clock_5s
      {[ "eth0" := eth0_before; "wlan0" := wlan0_before ]} proto.empty = Ok (h', mi') ∧
    ∀ k v, h' !! k = Some v → NetMonitor.name v = k.
Proof.
  eexists _, _. split; [vm_compute; reflexivity|].
  eapply (proj2 (proj2 X9_keys_are_names) {[ NetMonitor.path := net_once ]} clock_5s
            {[ "eth0" := eth0_before; "wlan0" := wlan0_before ]} proto.empty).
  - vm_compute; reflexivity.
  - intros k v. destruct (decide (k = "eth0")) as [->|Hne].
    + rewrite lookup_insert_eq. by intros [= <-].
    + rewrite lookup_insert_ne by done.
      destruct (decide (k = "wlan0")) as [->|Hne'].
      * rewrite lookup_singleton_eq. by intros [= <-].
      * by rewrite lookup_singleton_ne.
Defined.

(** ** When a call returns *)

Lemma returns_Ok {A} (a : A) : returns (Ok a).
Proof. by exists a. Qed.

Lemma returns_bind {A B} (m : Outcome A) (k : A → Outcome B) :
  returns (obind m k) ↔ ∃ a, m = Ok a ∧ returns (k a).
Proof.
  split.
  - intros [b Hb]. apply obind_Ok in Hb as (a & Ha & Hk). exists a. split; [done|].
    by exists b.
  - intros (a & -> & Hk). done.
Qed.

Lemma not_returns_Throw {A} (e : Exn) : ¬ returns (Throw e : Outcome A).
Proof. by intros [a Ha]. Qed.

Lemma not_returns_Undefined {A} : ¬ returns (Undefined : Outcome A).
Proof. by intros [a Ha]. Qed.

Lemma ReadAll_nonempty (ifs_ : ReadFile.ifstream) :
  Forall (λ r, r ≠ []) (ReadFile.ReadAll ifs_).
Proof.
  apply list.Forall_forall. intros r Hr.
  by destruct (ReadAll_first _ _ Hr) as (h & t & -> & _).
Qed.

Lemma cpu_parse_length (stof : string → Outcome F32.t) (r : list string) :
  returns (CpuStatMonitor.parse stof r) → (11 ≤ length r)%nat.
Proof.
  intros [v Hv]. unfold CpuStatMonitor.parse in Hv. inv_bind Hv.
  match goal with
  | Hf : CpuStatMonitor.field stof r 10 = Ok _ |- _ =>
      unfold CpuStatMonitor.field in Hf; apply obind_Ok in Hf as (tok & Htok & _);
      apply vec_at_Ok, lookup_lt_Some in Htok; lia
  end.
Qed.

Lemma cpu_parse_extra (stof : string → Outcome F32.t) (r extra : list string) :
  (11 ≤ length r)%nat →
  CpuStatMonitor.parse stof (r ++ extra) = CpuStatMonitor.parse stof r.
Proof.
  intros Hlen. unfold CpuStatMonitor.parse, CpuStatMonitor.field, vec_at.
  by rewrite !lookup_app_l by lia.
Qed.

Lemma cpu_samples_returns (stof : string → Outcome F32.t) (records : list (list string)) :
  Forall (λ r, r ≠ []) records →
  returns (CpuStatMonitor.samples stof records) ↔
  Forall (λ r, ∀ name0, r !! 0%nat = Some name0 →
               str_contains CpuStatMonitor.marker name0 = true →
               returns (CpuStatMonitor.parse stof r)) records.
Proof.
  induction 1 as [|r records Hr _ IH]; simpl.
  - split; [constructor | intros _; apply returns_Ok].
  - destruct r as [|name0 t]; [done|]. clear Hr.
    rewrite Forall_cons, <- IH. unfold CpuStatMonitor.sample_of. simpl.
    destruct (str_contains CpuStatMonitor.marker name0) eqn:E; simpl.
    + destruct (CpuStatMonitor.parse stof (name0 :: t)) as [v| |] eqn:P; simpl.
      * split.
        -- intros (ss & Hss & _)%returns_bind.
           split; [intros ? _ _; apply returns_Ok | by exists ss].
        -- intros [_ [ss ->]]. apply returns_Ok.
      * split; [by intros ?%not_returns_Throw|].
        intros [Hp _]. by destruct (not_returns_Throw _ (Hp name0 eq_refl E)).
      * split; [by intros ?%not_returns_Undefined|].
        intros [Hp _]. by destruct (not_returns_Undefined (Hp name0 eq_refl E)).
    + split.
      * intros (ss & Hss & _)%returns_bind.
        split; [|by exists ss]. intros ? [= <-]. by rewrite E.
      * intros [_ [ss ->]]. apply returns_Ok.
Qed.

(** ** The load sampler *)

Lemma ReadLine_first_line (l rest : string) :
  newline_free l → l ≠ EmptyString →
  ReadFile.ReadLine (Some (l +:+ nl +:+ rest)) =
    (Some (ReadFile.split_ws None l), Some rest).
Proof.
  intros Hl Hne. unfold ReadFile.ReadLine. rewrite (getline_line _ _ Hl).
  by destruct l.
Qed.

(** X12. The load sampler reads the first line of its source only, and
    of it the first three tokens: what follows them, the rest of the
    source and the gauges of the previous call have no effect.  It
    returns only on a first line with at least three tokens that [stof]
    reads, and then reports exactly these three values.  On a source
    that cannot be opened, that holds no newline, or that starts with an
    empty line, it reads the first element of an empty vector: the
    behaviour is undefined. *)
Theorem X12_load_sampler (stof : string → Outcome F32.t) (fs : gmap string string)
    (self : CpuLoadMonitor.t) (mi : proto.MonitorInfo) :
  (fs !! CpuLoadMonitor.path = None
   ∨ (∃ s, fs !! CpuLoadMonitor.path = Some s ∧
           (newline_free s ∨ ∃ rest, s = nl +:+ rest)) →
   CpuLoadMonitor.UpdateOnce stof fs self mi = Undefined) ∧
  (∀ self' mi',
     CpuLoadMonitor.UpdateOnce stof fs self mi = Ok (self', mi') →
     ∃ t1 t3 t15 rest ifs',
       ReadFile.ReadLine (ReadFile.open fs CpuLoadMonitor.path)
         = (Some (t1 :: t3 :: t15 :: rest), ifs') ∧
       stof t1 = Ok (CpuLoadMonitor.load_avg_1_ self') ∧
       stof t3 = Ok (CpuLoadMonitor.load_avg_3_ self') ∧
       stof t15 = Ok (CpuLoadMonitor.load_avg_15_ self') ∧
       mi' = proto.set_cpu_load
               (proto.CpuLoad.mk (CpuLoadMonitor.load_avg_1_ self')
                  (CpuLoadMonitor.load_avg_3_ self')
                  (CpuLoadMonitor.load_avg_15_ self')) mi) ∧
  (∀ l rest, newline_free l → l ≠ EmptyString →
     fs !! CpuLoadMonitor.path = Some (l +:+ nl +:+ rest) →
     ∀ rest' self',
       CpuLoadMonitor.UpdateOnce stof fs self mi =
       CpuLoadMonitor.UpdateOnce stof {[ CpuLoadMonitor.path := l +:+ nl +:+ rest' ]}
         self' mi).
Proof.
  split; [|split].
  - unfold CpuLoadMonitor.UpdateOnce, ReadFile.open.
    intros [-> | (s & -> & [Hs | [rest ->]])]; [done| |done].
    unfold ReadFile.ReadLine. by rewrite (getline_tail _ Hs).
  - intros self' mi'. unfold CpuLoadMonitor.UpdateOnce.
    destruct (ReadFile.ReadLine _) as [[args|] ifs']; [|done].
    intros H. inv_bind H. injection H as <- <-.
    repeat match goal with
           | Hb : obind (vec_at _ _) _ = Ok _ |- _ =>
               apply obind_Ok in Hb as (? & ?%vec_at_Ok & ?)
           end.
    destruct args as [|t1 [|t3 [|t15 rest]]]; simplify_eq/=.
    by eexists _, _, _, _, _.
  - intros l rest Hl Hne Hfs rest' self'.
    unfold CpuLoadMonitor.UpdateOnce, ReadFile.open.
    by rewrite Hfs, lookup_singleton_eq, !ReadLine_first_line.
Qed.

Lemma X12_load_sampler_witness :
  CpuLoadMonitor.UpdateOnce stof_plain ∅
    (CpuLoadMonitor.mk F32.zero F32.zero F32.zero) proto.empty = Undefined ∧
  ∃ a1 a3 a15,
    CpuLoadMonitor.UpdateOnce stof_plain {[ CpuLoadMonitor.path := loadavg ]}
      (CpuLoadMonitor.mk F32.zero F32.zero F32.zero) proto.empty
      = Ok (CpuLoadMonitor.mk a1 a3 a15,
            proto.set_cpu_load (proto.CpuLoad.mk a1 a3 a15) proto.empty) ∧
    stof_plain "0.45" = Ok a1 ∧ stof_plain "0.67" = Ok a3 ∧ stof_plain "0.89" = Ok a15.
Proof.
  split.
  - apply (proj1 (X12_load_sampler stof_plain ∅
                    (CpuLoadMonitor.mk F32.zero F32.zero F32.zero) proto.empty)).
    left. reflexivity.
  - eexists _, _, _. split; [vm_compute; reflexivity|].
    edestruct (proj1 (proj2 (X12_load_sampler stof_plain
                               {[ CpuLoadMonitor.path := loadavg ]}
                               (CpuLoadMonitor.mk F32.zero F32.zero F32.zero)
                               proto.empty)))
      as (t1 & t3 & t15 & rest & ifs' & Hline & H1 & H3 & H15 & _).
    { vm_compute; reflexivity. }
    vm_compute in Hline. injection Hline as <- <- <- _ _.
    split; [exact H1|]. split; [exact H3 | exact H15].
Defined.

(** ** The softirq sampler: when a call returns *)

Lemma softirq_parse_returns (softirq : list (list string)) (i : nat) (name : string)
    (now : Z) :
  returns (CpuSoftIrqMonitor.parse softirq i name now) ↔
  ∀ r, (1 ≤ r ≤ 10)%nat → returns (CpuSoftIrqMonitor.cell softirq r (i + 1)).
Proof.
  unfold CpuSoftIrqMonitor.parse. split.
  - intros [v Hv]. inv_bind Hv. intros r Hr.
    assert (r = 1 ∨ r = 2 ∨ r = 3 ∨ r = 4 ∨ r = 5 ∨ r = 6 ∨ r = 7 ∨ r = 8 ∨ r = 9
            ∨ r = 10)%nat as Hcases by lia.
    repeat (destruct Hcases as [-> | Hcases]; [eexists; eassumption|]).
    subst r. eexists; eassumption.
  - intros H.
    destruct (H 1%nat) as [v1 ->]; [lia|]. destruct (H 2%nat) as [v2 ->]; [lia|].
    destruct (H 3%nat) as [v3 ->]; [lia|]. destruct (H 4%nat) as [v4 ->]; [lia|].
    destruct (H 5%nat) as [v5 ->]; [lia|]. destruct (H 6%nat) as [v6 ->]; [lia|].
    destruct (H 7%nat) as [v7 ->]; [lia|]. destruct (H 8%nat) as [v8 ->]; [lia|].
    destruct (H 9%nat) as [v9 ->]; [lia|]. destruct (H 10%nat) as [v10 ->]; [lia|].
    apply returns_Ok.
Qed.

Lemma softirq_sample_of_returns (softirq : list (list string)) (header : list string)
    (i : nat) (now : Z) :
  softirq !! 0%nat = Some header → (i < length header)%nat →
  returns (CpuSoftIrqMonitor.sample_of softirq i now) ↔
  ∀ r, (1 ≤ r ≤ 10)%nat → returns (CpuSoftIrqMonitor.cell softirq r (i + 1)).
Proof.
  intros Hh Hi. unfold CpuSoftIrqMonitor.sample_of.
  apply vec_at_Ok in Hh. rewrite Hh. simpl.
  destruct (lookup_lt_is_Some_2 header i Hi) as [name Hn].
  apply vec_at_Ok in Hn. rewrite Hn. simpl.
  rewrite <- (softirq_parse_returns softirq i name now).
  destruct (CpuSoftIrqMonitor.parse softirq i name now) as [v| |]; simpl.
  - split; intros _; apply returns_Ok.
  - split; by intros ?%not_returns_Throw.
  - split; by intros ?%not_returns_Undefined.
Qed.

Lemma softirq_samples_returns (now : nat → Z) (softirq : list (list string))
    (n i : nat) :
  returns (CpuSoftIrqMonitor.samples now softirq i n) ↔
  ∀ j, (j < n)%nat → returns (CpuSoftIrqMonitor.sample_of softirq (i + j) (now (i + j)%nat)).
Proof.
  revert i. induction n as [|n IH]; intros i; simpl.
  - split; [intros _ j Hj; lia | intros _; apply returns_Ok].
  - rewrite returns_bind. split.
    + intros (kv & Hkv & (ss & Hss & _)%returns_bind) j Hj.
      destruct j as [|j].
      * rewrite Nat.add_0_r, Hkv. apply returns_Ok.
      * rewrite Nat.add_succ_r. apply (proj1 (IH (S i))); [by exists ss | lia].
    + intros H. destruct (H 0%nat) as [kv Hkv]; [lia|].
      rewrite Nat.add_0_r in Hkv. exists kv. split; [done|].
      destruct (proj2 (IH (S i))) as [ss ->]; [|apply returns_Ok].
      intros j Hj. specialize (H (S j)). rewrite Nat.add_succ_r in H. apply H. lia.
Qed.

(** X13. A call of the softirq sampler returns exactly when the source
    has a first record and, for each of its tokens but the last, the
    token at the next position of each of the records 1 to 10 is there
    and is read by [stoll]; nothing else is looked at: not the first
    token of a row, not a row beyond the tenth.  With no record at all
    the behaviour is undefined; with a header of one token the call
    returns and leaves the history and the snapshot as they are. *)
Theorem X13_softirq_returns (fs : gmap string string) (now : nat → Z)
    (h : gmap string CpuSoftIrqMonitor.SoftIrq) (mi : proto.MonitorInfo) :
  let softirq := ReadFile.ReadAll (ReadFile.open fs CpuSoftIrqMonitor.path) in
  (returns (CpuSoftIrqMonitor.UpdateOnce fs now h mi) ↔
   ∃ header, softirq !! 0%nat = Some header ∧
     ∀ i r, (i < length header - 1)%nat → (1 ≤ r ≤ 10)%nat →
            returns (CpuSoftIrqMonitor.cell softirq r (i + 1))) ∧
  (softirq = [] → CpuSoftIrqMonitor.UpdateOnce fs now h mi = Undefined) ∧
  (∀ name, softirq !! 0%nat = Some [name] →
           CpuSoftIrqMonitor.UpdateOnce fs now h mi = Ok (h, mi)).
Proof.
  intros softirq. split; [|split].
  - rewrite softirq_UpdateOnce_samples. unfold CpuSoftIrqMonitor.all_samples.
    fold softirq. rewrite returns_bind. split.
    + intros (ss & (header & Hh%vec_at_Ok & Hss)%obind_Ok & _).
      exists header. split; [done|]. intros i r Hi Hr.
      destruct header as [|name0 header]; [done|].
      assert (returns (CpuSoftIrqMonitor.samples now softirq 0
                         (length (name0 :: header) - 1))) as Hret by by exists ss.
      apply (proj1 (softirq_samples_returns _ _ _ _)) with (j := i) in Hret; [|done].
      simpl in Hret.
      apply (proj1 (softirq_sample_of_returns _ _ i (now i) Hh
                      ltac:(simpl in *; lia))); done.
    + intros (header & Hh & Hcells).
      assert (returns (CpuSoftIrqMonitor.samples now softirq 0 (length header - 1)))
        as [ss Hss].
      { apply softirq_samples_returns. intros j Hj. simpl.
        apply (proj2 (softirq_sample_of_returns _ _ j (now j) Hh ltac:(lia))).
        intros r Hr. by apply Hcells. }
      exists ss. split; [|apply returns_Ok].
      apply vec_at_Ok in Hh. rewrite Hh. simpl.
      destruct header as [|name0 header]; [|done].
      assert (Hne : Forall (λ r, r ≠ []) softirq) by apply ReadAll_nonempty.
      apply vec_at_Ok in Hh. destruct softirq as [|r0 rest]; [done|].
      apply Forall_cons in Hne as [Hne _]. simpl in Hh. by injection Hh as ->.
  - unfold CpuSoftIrqMonitor.UpdateOnce. fold softirq. by intros ->.
  - intros name Hh. unfold CpuSoftIrqMonitor.UpdateOnce. fold softirq.
    apply vec_at_Ok in Hh. by rewrite Hh.
Qed.

Lemma X13_softirq_returns_witness :
  returns (CpuSoftIrqMonitor.UpdateOnce {[ CpuSoftIrqMonitor.path := softirq_padded ]}
             clock_us ∅ proto.empty) ∧
  CpuSoftIrqMonitor.UpdateOnce ∅ clock_us ∅ proto.empty = Undefined ∧
  CpuSoftIrqMonitor.UpdateOnce {[ CpuSoftIrqMonitor.path := text ["CPU0"; "HI: x"] ]}
    clock_us ∅ proto.empty = Ok (∅, proto.empty).
Proof.
  split; [|split].
  - apply (proj2 (proj1 (X13_softirq_returns
                           {[ CpuSoftIrqMonitor.path := softirq_padded ]}
                           clock_us ∅ proto.empty))).
    exists ["CPU0"; "CPU1"; ""]. split; [vm_compute; reflexivity|].
    intros i r Hi Hr. simpl in Hi.
    assert (i = 0 ∨ i = 1)%nat as [-> | ->] by lia;
      assert (r = 1 ∨ r = 2 ∨ r = 3 ∨ r = 4 ∨ r = 5 ∨ r = 6 ∨ r = 7 ∨ r = 8 ∨ r = 9
              ∨ r = 10)%nat as Hcases by lia;
      repeat (destruct Hcases as [-> | Hcases];
              [eexists; vm_compute; reflexivity|]);
      subst r; eexists; vm_compute; reflexivity.
  - apply (proj1 (proj2 (X13_softirq_returns ∅ clock_us ∅ proto.empty))).
    reflexivity.
  - apply (proj2 (proj2 (X13_softirq_returns
                           {[ CpuSoftIrqMonitor.path := text ["CPU0"; "HI: x"] ]}
                           clock_us ∅ proto.empty)) "CPU0").
    vm_compute; reflexivity.
Defined.

(** ** The memory sampler: when a call returns *)

Lemma mem_line_returns (r : list string) (m : MemMonitor.MenInfo) :
  r ≠ [] →
  returns (MemMonitor.line r m) ↔
  ∀ f, MemMonitor.assigns r = Some f →
       ∃ tok v, r !! 1%nat = Some tok ∧ stoll tok = Ok v.
Proof.
  intros Hne. destruct r as [|label t]; [done|].
  unfold MemMonitor.line, MemMonitor.assigns. simpl.
  destruct (MemMonitor.member_of_label label) as [f|].
  - split.
    + intros (v & (tok & Htok%vec_at_Ok & Hv)%obind_Ok & _)%returns_bind f' _.
      by exists tok, v.
    + intros H. destruct (H f eq_refl) as (tok & v & Htok & Hv).
      unfold vec_at. simpl. rewrite Htok. simpl. rewrite Hv. apply returns_Ok.
  - split; [by intros _ f' | intros _; apply returns_Ok].
Qed.

Lemma mem_loop_returns_iff (records : list (list string)) (m : MemMonitor.MenInfo) :
  Forall (λ r, r ≠ []) records →
  returns (MemMonitor.loop records m) ↔
  Forall (λ r, ∀ f, MemMonitor.assigns r = Some f →
                    ∃ tok v, r !! 1%nat = Some tok ∧ stoll tok = Ok v) records.
Proof.
  intros Hne. revert m. induction Hne as [|r records Hr _ IH]; intros m; simpl.
  - split; [constructor | intros _; apply returns_Ok].
  - rewrite Forall_cons, <- (mem_line_returns r m Hr), returns_bind. split.
    + intros (m1 & Hm1 & Hrest). split; [by exists m1 | by apply (IH m1)].
    + intros [[m1 Hm1] Hrest]. exists m1. split; [done | by apply IH].
Qed.

(** X14. A call of the memory sampler returns exactly when every record
    whose label is one of the chain carries a second token that [stoll]
    reads.  The first record that does not decides how the call fails:
    with no second token the behaviour is undefined, otherwise the
    exception of [stoll] leaves the call.  Records with another label are
    skipped, whatever they hold.  On a source with no record (it cannot be
    opened, or starts with an empty line) the call returns and reports the
    gauges of members that were never assigned. *)
Theorem X14_mem_returns (fs : gmap string string) (uninit : MemMonitor.MenInfo)
    (mi : proto.MonitorInfo) :
  let records := ReadFile.ReadAll (ReadFile.open fs MemMonitor.path) in
  let reads := λ r : list string,
    ∀ f, MemMonitor.assigns r = Some f →
         ∃ tok v, r !! 1%nat = Some tok ∧ stoll tok = Ok v in
  (returns (MemMonitor.UpdateOnce fs uninit mi) ↔ Forall reads records) ∧
  (∀ pre r post f,
     records = pre ++ r :: post → Forall reads pre → MemMonitor.assigns r = Some f →
     (r !! 1%nat = None → MemMonitor.UpdateOnce fs uninit mi = Undefined) ∧
     (∀ tok e, r !! 1%nat = Some tok → stoll tok = Throw e →
               MemMonitor.UpdateOnce fs uninit mi = Throw e)) ∧
  (records = [] →
   MemMonitor.UpdateOnce fs uninit mi
     = Ok (proto.set_mem_info (MemMonitor.fill uninit) mi)).
Proof.
  intros records reads. subst reads.
  assert (Hne : Forall (λ r, r ≠ []) records) by apply ReadAll_nonempty.
  unfold MemMonitor.UpdateOnce. fold records. split; [|split].
  - rewrite <- (mem_loop_returns_iff records uninit Hne).
    destruct (MemMonitor.loop records uninit) as [m| |]; simpl.
    + split; intros _; apply returns_Ok.
    + split; by intros ?%not_returns_Throw.
    + split; by intros ?%not_returns_Undefined.
  - intros pre r post f E Hpre Hf. rewrite E in Hne |- *.
    apply Forall_app in Hne as [Hne_pre Hne_r].
    apply (mem_loop_returns_iff pre uninit Hne_pre) in Hpre as [m1 Hm1].
    rewrite mem_loop_app, Hm1. simpl.
    unfold MemMonitor.assigns in Hf. unfold MemMonitor.line.
    destruct r as [|label t]; [done|]. simpl in *. rewrite Hf. split.
    + intros Hnone. unfold vec_at. simpl. by rewrite Hnone.
    + intros tok e Htok Hv. unfold vec_at. simpl. rewrite Htok. simpl. by rewrite Hv.
  - by intros ->.
Qed.

Lemma X14_mem_returns_witness :
  returns (MemMonitor.UpdateOnce {[ MemMonitor.path := meminfo ]} mem_zero proto.empty) ∧
  MemMonitor.UpdateOnce {[ MemMonitor.path := text ["MemTotal: 1 kB"; "MemFree:"] ]}
    mem_zero proto.empty = Undefined ∧
  MemMonitor.UpdateOnce {[ MemMonitor.path := text ["MemTotal: 1 kB"; "MemFree: x"] ]}
    mem_zero proto.empty = Throw invalid_argument ∧
  MemMonitor.UpdateOnce ∅ mem_zero proto.empty
    = Ok (proto.set_mem_info (MemMonitor.fill mem_zero) proto.empty).
Proof.
  split; [|split; [|split]].
  - apply (proj2 (proj1 (X14_mem_returns {[ MemMonitor.path := meminfo ]} mem_zero
                           proto.empty))).
    assert (ReadFile.ReadAll (ReadFile.open {[ MemMonitor.path := meminfo ]}
                                MemMonitor.path)
            = [["MemTotal:"; "16000000"; "kB"]; ["MemFree:"; "3000000"; "kB"];
               ["MemAvailable:"; "8000000"; "kB"]; ["Buffers:"; "298416"; "kB"];
               ["Cached:"; "5940484"; "kB"]; ["SwapTotal:"; "2097148"; "kB"];
               ["Dirty:"; "72"; "kB"]]) as ->.
    { vm_compute; reflexivity. }
    repeat constructor; intros f _; eexists _, _; (split; [reflexivity|]);
      vm_compute; reflexivity.
  - apply (proj1 (proj2 (X14_mem_returns
                           {[ MemMonitor.path := text ["MemTotal: 1 kB"; "MemFree:"] ]}
                           mem_zero proto.empty))
             [["MemTotal:"; "1"; "kB"]] ["MemFree:"] [] MemMonitor.m_free).
    + vm_compute; reflexivity.
    + repeat constructor. intros f _. exists "1", 1. split; [reflexivity|].
      vm_compute; reflexivity.
    + reflexivity.
    + reflexivity.
  - apply (proj1 (proj2 (X14_mem_returns
                           {[ MemMonitor.path := text ["MemTotal: 1 kB"; "MemFree: x"] ]}
                           mem_zero proto.empty))
             [["MemTotal:"; "1"; "kB"]] ["MemFree:"; "x"] [] MemMonitor.m_free) with "x".
    + vm_compute; reflexivity.
    + repeat constructor. intros f _. exists "1", 1. split; [reflexivity|].
      vm_compute; reflexivity.
    + reflexivity.
    + reflexivity.
    + vm_compute; reflexivity.
  - apply (proj2 (proj2 (X14_mem_returns ∅ mem_zero proto.empty))). reflexivity.
Defined.

(** ** The network sampler: when a call returns *)

Lemma ReadAll_shape (ifs_ : ReadFile.ifstream) :
  Forall (λ r, ∃ h t, r = h :: t ∧ (h = EmptyString → t = [])) (ReadFile.ReadAll ifs_).
Proof. apply list.Forall_forall. intros r Hr. by apply (ReadAll_first ifs_). Qed.

Ltac in_list :=
  repeat first [apply list_elem_of_here | apply list_elem_of_further].

Lemma net_parse_returns (name : string) (r : list string) (now : Z) :
  returns (NetMonitor.parse name r now) ↔
  ∀ i, i ∈ [1; 2; 3; 4; 9; 10; 11; 12]%nat → returns (NetMonitor.field r i).
Proof.
  unfold NetMonitor.parse. split.
  - intros [v Hv]. inv_bind Hv. intros i Hi.
    repeat (apply elem_of_cons in Hi as [-> | Hi]; [eexists; eassumption|]).
    by apply elem_of_nil in Hi.
  - intros H.
    destruct (H 1%nat) as [v1 ->]; [in_list|].
    destruct (H 2%nat) as [v2 ->]; [in_list|].
    destruct (H 3%nat) as [v3 ->]; [in_list|].
    destruct (H 4%nat) as [v4 ->]; [in_list|].
    destruct (H 9%nat) as [v9 ->]; [in_list|].
    destruct (H 10%nat) as [v10 ->]; [in_list|].
    destruct (H 11%nat) as [v11 ->]; [in_list|].
    destruct (H 12%nat) as [v12 ->]; [in_list|].
    apply returns_Ok.
Qed.

Lemma net_parse_reads (name : string) (r r' : list string) (now : Z) :
  (∀ i, i ∈ [1; 2; 3; 4; 9; 10; 11; 12]%nat → r !! i = r' !! i) →
  NetMonitor.parse name r now = NetMonitor.parse name r' now.
Proof.
  intros H. unfold NetMonitor.parse, NetMonitor.field, vec_at.
  rewrite (H 1%nat), (H 2%nat), (H 3%nat), (H 4%nat), (H 9%nat), (H 10%nat),
    (H 11%nat), (H 12%nat) by in_list.
  done.
Qed.

Lemma net_sample_of_returns (now : Z) (r : list string) :
  (∃ h t, r = h :: t ∧ (h = EmptyString → t = [])) →
  returns (NetMonitor.sample_of now r) ↔
  ∀ name0, r !! 0%nat = Some name0 → NetMonitor.is_interface name0 r = true →
    ∀ i, i ∈ [1; 2; 3; 4; 9; 10; 11; 12]%nat → returns (NetMonitor.field r i).
Proof.
  intros (name0 & t & -> & Hempty). unfold NetMonitor.sample_of. simpl.
  destruct (NetMonitor.is_interface name0 (name0 :: t)) eqn:E.
  - assert (∃ name, pop_back name0 = Ok name) as [name ->].
    { destruct name0 as [|c s]; [|by eexists].
      rewrite (Hempty eq_refl) in E. done. }
    simpl. transitivity (returns (NetMonitor.parse name (name0 :: t) now)).
    { destruct (NetMonitor.parse name (name0 :: t) now) as [v| |]; simpl.
      - split; intros _; apply returns_Ok.
      - split; by intros ?%not_returns_Throw.
      - split; by intros ?%not_returns_Undefined. }
    rewrite net_parse_returns. split.
    + intros H ? _ _. exact H.
    + intros H. exact (H name0 eq_refl E).
  - split; [|intros _; apply returns_Ok].
    intros _ ? [= <-]. by rewrite E.
Qed.

Lemma net_samples_returns (now : nat → Z) (records : list (list string)) (k : nat) :
  Forall (λ r, ∃ h t, r = h :: t ∧ (h = EmptyString → t = [])) records →
  returns (NetMonitor.samples now k records) ↔
  Forall (λ r, ∀ name0, r !! 0%nat = Some name0 →
               NetMonitor.is_interface name0 r = true →
               ∀ i, i ∈ [1; 2; 3; 4; 9; 10; 11; 12]%nat →
                    returns (NetMonitor.field r i)) records.
Proof.
  intros Hshape. revert k. induction Hshape as [|r records Hr _ IH]; intros k; simpl.
  - split; [constructor | intros _; apply returns_Ok].
  - rewrite Forall_cons, <- (net_sample_of_returns (now k) r Hr), returns_bind. split.
    + intros (s & Hs & (ss & Hss & _)%returns_bind).
      split; [by exists s | apply (IH (S k)); by exists ss].
    + intros [[s Hs] [ss Hss]%(IH (S k))]. exists s. split; [done|].
      rewrite Hss. apply returns_Ok.
Qed.

(** X15. A call of the network sampler returns exactly when every record
    that the guard accepts carries, at the positions 1, 2, 3, 4, 9, 10,
    11 and 12, a token that [stoll] reads.  These eight are the only
    tokens an accepted record is parsed from: two records that agree on
    them yield the same sample, whatever the receive columns 5 to 8 and
    the columns after the twelfth hold. *)
Theorem X15_net_returns (fs : gmap string string) (now : nat → Z)
    (h : gmap string NetMonitor.NetInfo) (mi : proto.MonitorInfo) :
  (returns (NetMonitor.UpdateOnce fs now h mi) ↔
   Forall (λ r, ∀ name0, r !! 0%nat = Some name0 →
                NetMonitor.is_interface name0 r = true →
                ∀ i, i ∈ [1; 2; 3; 4; 9; 10; 11; 12]%nat →
                     returns (NetMonitor.field r i))
     (ReadFile.ReadAll (ReadFile.open fs NetMonitor.path))) ∧
  (∀ name r r' t,
     (∀ i, i ∈ [1; 2; 3; 4; 9; 10; 11; 12]%nat → r !! i = r' !! i) →
     NetMonitor.parse name r t = NetMonitor.parse name r' t).
Proof.
  split.
  - rewrite <- (net_samples_returns now _ 0) by apply ReadAll_shape.
    rewrite net_UpdateOnce_samples. unfold NetMonitor.all_samples.
    destruct (NetMonitor.samples now 0 _) as [ss| |]; simpl.
    + split; intros _; apply returns_Ok.
    + split; by intros ?%not_returns_Throw.
    + split; by intros ?%not_returns_Undefined.
  - intros name r r' t. apply net_parse_reads.
Qed.

Lemma X15_net_returns_witness :
  returns (NetMonitor.UpdateOnce {[ NetMonitor.path := net_once ]} clock_5s ∅ proto.empty) ∧
  NetMonitor.parse "eth0" eth0_record 5000000000 =
  NetMonitor.parse "eth0"
    ["eth0:"; "1100"; "11"; "0"; "0"; "x"; "y"; "z"; ""; "2200"; "22"; "0"; "0"]
    5000000000.
Proof.
  split.
  - apply (proj2 (proj1 (X15_net_returns {[ NetMonitor.path := net_once ]} clock_5s
                           ∅ proto.empty))).
    assert (ReadFile.ReadAll (ReadFile.open {[ NetMonitor.path := net_once ]}
                                NetMonitor.path)
            = [["Inter-|"; "Receive"; "|"; "Transmit"];
               ["face"; "|bytes"; "packets"; "errs"; "drop"; "fifo"; "frame";
                "compressed"; "multicast|bytes"; "packets"];
               eth0_record]) as ->.
    { vm_compute; reflexivity. }
    repeat constructor.
    + intros name0 [= <-]. discriminate.
    + intros name0 [= <-]. discriminate.
    + intros name0 _ _ i Hi.
      repeat (apply elem_of_cons in Hi as [-> | Hi]; [eexists; vm_compute; reflexivity|]).
      by apply elem_of_nil in Hi.
  - apply (proj2 (X15_net_returns ∅ clock_5s ∅ proto.empty)).
    intros i Hi.
    repeat (apply elem_of_cons in Hi as [-> | Hi]; [reflexivity|]).
    by apply elem_of_nil in Hi.
Defined.

(** ** The display: one pass of its loop *)

Lemma poll_fetch (ok : bool) (server : GrpcManagerImpl.t)
    (monitor_info : proto.MonitorInfo) (w : MonitorWidget.t) :
  allocated w →
  Display.poll ok server (monitor_info, w) =
  Ok (if ok then server else proto.empty,
      tables_of (if ok then server else proto.empty)).
Proof.
  intros ([d1 E1] & [d2 E2] & [d3 E3] & [d4 E4] & [d5 E5]).
  unfold Display.poll, RpcClient.GetMonitorInfo, MonitorWidget.UpdateData.
  rewrite E1, E2, E3, E4, E5. by destruct ok.
Qed.

(** ** The collection loop *)

Lemma collect_snapshot (stof : string → Outcome F32.t) (name : option string)
    (env : Main.Env) (m m' : Main.Monitors) (monitor_info : proto.MonitorInfo) :
  Main.collect stof name env m = Ok (m', monitor_info) →
  proto.name monitor_info = Main.host_name name ∧
  is_Some (proto.cpu_load monitor_info) ∧ is_Some (proto.mem_info monitor_info).
Proof.
  rewrite collect_samplers. intros H. inv_bind H. injection H as <- <-. simpl.
  split; [done|]. split.
  - match goal with
    | Hl : CpuLoadMonitor.UpdateOnce _ _ _ _ = Ok _ |- _ =>
        unfold CpuLoadMonitor.UpdateOnce in Hl; inv_bind Hl; injection Hl as <-
    end. by eexists.
  - match goal with
    | Hm : MemMonitor.UpdateOnce _ _ _ = Ok _ |- _ =>
        unfold MemMonitor.UpdateOnce in Hm; inv_bind Hm; injection Hm as <-
    end. by eexists.
Qed.

Lemma loop_cons (stof : string → Outcome F32.t) (name : option string)
    (env : Main.Env) (rest : list Main.Env) (m : Main.Monitors)
    (server : GrpcManagerImpl.t) :
  Main.loop stof name (env :: rest) m server =
  match Main.collect stof name env m with
  | Ok (m', monitor_info) =>
      let next := Main.loop stof name rest m' (Main.publish env monitor_info server) in
      (monitor_info :: next.1.1, next.1.2, next.2)
  | Throw e => ([], server, Main.Terminated e)
  | Undefined => ([], server, Main.Broken)
  end.
Proof.
  simpl. destruct (Main.collect stof name env m) as [[m' mi]| |]; try done.
  by destruct (Main.loop _ _ _ _ _) as [[sent server'] th].
Qed.

(** X16. Every pass of the loop that ends hands one snapshot to the RPC
    client, whether the RPC gets through or not: the thread is still
    looping exactly when as many snapshots were handed over as passes
    were given, so that only a sampler can end the loop.  Every snapshot
    handed over carries the host name (the value of [USER], or
    ["unknown_host"]), a load record and a memory record. *)
Theorem X16_every_pass_sends (stof : string → Outcome F32.t) (name : option string)
    (envs : list Main.Env) (m : Main.Monitors) (server : GrpcManagerImpl.t)
    (sent : list proto.MonitorInfo) (server' : GrpcManagerImpl.t) (th : Main.thread) :
  Main.loop stof name envs m server = (sent, server', th) →
  (length sent ≤ length envs)%nat ∧
  ((∃ m', th = Main.Looping m') ↔ length sent = length envs) ∧
  Forall (λ monitor_info,
            proto.name monitor_info = Main.host_name name ∧
            is_Some (proto.cpu_load monitor_info) ∧
            is_Some (proto.mem_info monitor_info)) sent.
Proof.
  revert m server sent server' th.
  induction envs as [|env rest IH]; intros m server sent server' th.
  - simpl. intros [= <- _ <-]. split; [done|]. split; [|done]. split; [done|by eexists].
  - rewrite loop_cons.
    destruct (Main.collect stof name env m) as [[m' mi]| |] eqn:Hc.
    + destruct (Main.loop stof name rest m' (Main.publish env mi server))
        as [[sent0 server0] th0] eqn:Hl. simpl. intros [= <- <- <-].
      destruct (IH _ _ _ _ _ Hl) as (Hlen & Hth & Hall). simpl.
      split; [lia|]. split.
      * rewrite Hth. split; lia.
      * constructor; [by eapply collect_snapshot | done].
    + intros [= <- _ <-]. simpl. split; [lia|]. split; [|done].
      split; [by intros [m' ?] | done].
    + intros [= <- _ <-]. simpl. split; [lia|]. split; [|done].
      split; [by intros [m' ?] | done].
Qed.

Lemma X16_every_pass_sends_witness :
  ∃ sent server' th,
    Main.loop stof_plain None [env_offline; env_bad; env_good] monitors0
      GrpcManagerImpl.init = (sent, server', th) ∧
    length sent = 1%nat ∧ th = Main.Terminated invalid_argument ∧
    Forall (λ monitor_info, proto.name monitor_info = "unknown_host") sent.
Proof.
  destruct (Main.loop stof_plain None [env_offline; env_bad; env_good] monitors0
              GrpcManagerImpl.init) as [[sent server'] th] eqn:Hl.
  exists sent, server', th. split; [reflexivity|].
  destruct (X16_every_pass_sends _ _ _ _ _ _ _ _ Hl) as (_ & _ & Hall).
  vm_compute in Hl. injection Hl as <- _ <-.
  split; [reflexivity|]. split; [reflexivity|].
  apply Forall_cons in Hall as [(Hname & _) _]. by constructor.
Defined.

(** X17. The server's slot after the loop is the snapshot of the last
    pass whose RPC got through, and what it was before when none did: it
    is the slot after the writes of the delivered snapshots, in order.
    A pass of the display whose fetch gets through then shows the tables
    of that snapshot, whatever it showed before. *)
Theorem X17_server_holds_last_delivered (stof : string → Outcome F32.t)
    (name : option string) (envs : list Main.Env) (m : Main.Monitors)
    (server : GrpcManagerImpl.t) (sent : list proto.MonitorInfo)
    (server' : GrpcManagerImpl.t) (th : Main.thread) :
  Main.loop stof name envs m server = (sent, server', th) →
  server' = default server (last (delivered envs sent)) ∧
  server' = (GrpcManagerImpl.serve (GrpcManagerImpl.Set_ <$> delivered envs sent) server).2 ∧
  (∀ before w, allocated w →
     Display.poll true server' (before, w) =
     Ok (default server (last (delivered envs sent)),
         tables_of (default server (last (delivered envs sent))))).
Proof.
  intros Hloop.
  assert (server' = default server (last (delivered envs sent)) ∧
          server' = (GrpcManagerImpl.serve
                       (GrpcManagerImpl.Set_ <$> delivered envs sent) server).2)
    as [Hlast Hserve];
    [|split; [done|]; split; [done|]; intros before w Hw;
      by rewrite (poll_fetch true server' before w Hw), <- Hlast].
  revert Hloop.
  revert m server sent server' th.
  induction envs as [|env rest IH]; intros m server sent server' th.
  - simpl. by intros [= <- <- <-].
  - rewrite loop_cons.
    destruct (Main.collect stof name env m) as [[m' mi]| |] eqn:Hc;
      [|by intros [= <- <- <-] ..].
    destruct (Main.loop stof name rest m' (Main.publish env mi server))
      as [[sent0 server0] th0] eqn:Hl. simpl. intros [= <- <- <-].
    destruct (IH _ _ _ _ _ Hl) as (Hlast & Hserve).
    unfold Main.publish in Hlast, Hserve.
    destruct (Main.rpc_ok env); [|done]. simpl in *. split; [|done].
    rewrite Hlast. rewrite last_cons. by destruct (last (delivered rest sent0)).
Qed.

Lemma X17_server_holds_last_delivered_witness :
  ∃ sent server' th,
    Main.loop stof_plain None [env_good; env_offline] monitors0 GrpcManagerImpl.init
      = (sent, server', th) ∧
    sent !! 0%nat = Some server'.
Proof.
  destruct (Main.loop stof_plain None [env_good; env_offline] monitors0
              GrpcManagerImpl.init) as [[sent server'] th] eqn:Hl.
  exists sent, server', th. split; [reflexivity|].
  destruct (X17_server_holds_last_delivered _ _ _ _ _ _ _ _ Hl) as (-> & _ & _).
  vm_compute in Hl. injection Hl as <- _ _. reflexivity.
Defined.

(** ** The display: the table models *)

Lemma data_rows (n : nat) (rows : list (list Qt.QVariant)) (row col role : Z) :
  Forall (λ r, length r = n) rows →
  TableModel.data (Z.of_nat n) rows (Qt.mkIndex row col) role =
  Ok (if (role =? Qt.DisplayRole) && (0 <=? row) && (0 <=? col)
      then default Qt.Invalid (r ← rows !! Z.to_nat row; r !! Z.to_nat col)
      else Qt.Invalid).
Proof.
  intros Hrows. unfold TableModel.data, Qt.int_lt_size. simpl. rewrite Z.geb_leb.
  destruct (Z.ltb_spec col 0) as [Hc|Hc]; simpl.
  { rewrite (proj2 (Z.leb_gt 0 col)) by lia. by rewrite !andb_false_r. }
  rewrite (proj2 (Z.leb_le 0 col)) by lia. rewrite andb_true_r.
  destruct (Z.leb_spec (Z.of_nat n) col) as [Hc2|Hc2]; simpl.
  { destruct (role =? Qt.DisplayRole); simpl; [|done].
    destruct (0 <=? row); simpl; [|done].
    destruct (rows !! Z.to_nat row) as [r|] eqn:Er; simpl; [|done].
    rewrite lookup_ge_None_2; [done|].
    rewrite (proj1 (list.Forall_forall _ _) Hrows r) by by eapply list_elem_of_lookup_2.
    lia. }
  destruct (role =? Qt.DisplayRole); simpl; [|done].
  destruct (Z.leb_spec 0 row) as [Hr|Hr]; simpl; [|done].
  destruct (Z.ltb_spec row (Z.of_nat (length rows))) as [Hr2|Hr2]; simpl.
  - rewrite (proj2 (Z.ltb_lt col (Z.of_nat n))) by lia. simpl. unfold vec_at.
    destruct (lookup_lt_is_Some_2 rows (Z.to_nat row) ltac:(lia)) as [r Er].
    rewrite Er. simpl.
    assert (length r = n) as Hlen.
    { apply (proj1 (list.Forall_forall _ _) Hrows r). by eapply list_elem_of_lookup_2. }
    destruct (lookup_lt_is_Some_2 r (Z.to_nat col) ltac:(lia)) as [v Ev].
    by rewrite Ev.
  - by rewrite lookup_ge_None_2 by lia.
Qed.

Lemma data_fmap {A} (f : A → list Qt.QVariant) (n : nat) (l : list A)
    (row col role : Z) :
  (∀ a, length (f a) = n) →
  TableModel.data (Z.of_nat n) (f <$> l) (Qt.mkIndex row col) role =
  Ok (if (role =? Qt.DisplayRole) && (0 <=? row) && (0 <=? col)
      then default Qt.Invalid (a ← l !! Z.to_nat row; f a !! Z.to_nat col)
      else Qt.Invalid).
Proof.
  intros Hf. rewrite data_rows.
  - rewrite list_lookup_fmap. by destruct (l !! Z.to_nat row).
  - apply Forall_fmap, list.Forall_forall. intros a _. apply Hf.
Qed.

(** X19. What [data()] of a table model returns, for any stored rows and
    any index and role: it returns the invalid value or a stored cell,
    the latter only for the display role and an index inside the table;
    it never throws; its behaviour is undefined exactly when the display
    role is asked for an index inside the table whose stored row is too
    short, which does not happen when every row has [COLUMN_MAX] cells.
    A negative row or column is answered with the invalid value. *)
Theorem X19_data_reads_cells (COLUMN_MAX : Z) (monitor_data_ : list (list Qt.QVariant))
    (index : Qt.QModelIndex) (role : Z) :
  let inside :=
    0 ≤ Qt.column index < COLUMN_MAX ∧
    0 ≤ Qt.row index < Z.of_nat (length monitor_data_) in
  (∀ v, TableModel.data COLUMN_MAX monitor_data_ index role = Ok v →
        v = Qt.Invalid ∨
        (role = Qt.DisplayRole ∧ inside ∧
         ∃ r, monitor_data_ !! Z.to_nat (Qt.row index) = Some r ∧
              r !! Z.to_nat (Qt.column index) = Some v)) ∧
  (∀ e, TableModel.data COLUMN_MAX monitor_data_ index role ≠ Throw e) ∧
  (TableModel.data COLUMN_MAX monitor_data_ index role = Undefined ↔
   role = Qt.DisplayRole ∧ inside ∧
   ∃ r, monitor_data_ !! Z.to_nat (Qt.row index) = Some r ∧
        Z.of_nat (length r) ≤ Qt.column index) ∧
  (Forall (λ r, Z.of_nat (length r) = COLUMN_MAX) monitor_data_ →
   returns (TableModel.data COLUMN_MAX monitor_data_ index role)) ∧
  (Qt.row index < 0 ∨ Qt.column index < 0 →
   TableModel.data COLUMN_MAX monitor_data_ index role = Ok Qt.Invalid).
Proof.
  destruct index as [row col]. simpl.
  assert (TableModel.data COLUMN_MAX monitor_data_ (Qt.mkIndex row col) role =
          if (role =? Qt.DisplayRole) && (0 <=? col) && (col <? COLUMN_MAX)
             && (0 <=? row) && (row <? Z.of_nat (length monitor_data_))
          then match monitor_data_ !! Z.to_nat row with
               | Some r => match r !! Z.to_nat col with
                           | Some v => Ok v
                           | None => Undefined
                           end
               | None => Undefined
               end
          else Ok Qt.Invalid) as ->.
  { unfold TableModel.data, Qt.int_lt_size, vec_at. simpl. rewrite Z.geb_leb.
    destruct (Z.ltb_spec col 0), (Z.leb_spec COLUMN_MAX col), (Z.leb_spec 0 col),
      (Z.ltb_spec col COLUMN_MAX); simpl; try lia; try by rewrite ?andb_false_r.
    destruct (role =? Qt.DisplayRole); simpl; [|done].
    destruct (0 <=? row), (row <? Z.of_nat (length monitor_data_)); simpl; try done.
    destruct (monitor_data_ !! Z.to_nat row) as [r|]; simpl; [|done].
    by destruct (r !! Z.to_nat col). }
  destruct (Z.eqb_spec role Qt.DisplayRole) as [Hrole|Hrole]; simpl;
    [|by repeat split; try done; try (intros [? ?]; done); try (intros ? [= <-]; by left);
         try (by eexists)].
  destruct (Z.leb_spec 0 col) as [Hc|Hc]; simpl;
    [|by repeat split; try done; try lia; try (intros (? & (? & ?) & ?); lia);
         try (intros ? [= <-]; by left); try (by eexists)].
  destruct (Z.ltb_spec col COLUMN_MAX) as [Hc2|Hc2]; simpl;
    [|by repeat split; try done; try lia; try (intros (? & (? & ?) & ?); lia);
         try (intros ? [= <-]; by left); try (by eexists)].
  destruct (Z.leb_spec 0 row) as [Hr|Hr]; simpl;
    [|by repeat split; try done; try lia; try (intros (? & (? & ?) & ?); lia);
         try (intros ? [= <-]; by left); try (by eexists)].
  destruct (Z.ltb_spec row (Z.of_nat (length monitor_data_))) as [Hr2|Hr2]; simpl;
    [|by repeat split; try done; try lia; try (intros (? & (? & ?) & ?); lia);
         try (intros ? [= <-]; by left); try (by eexists)].
  destruct (lookup_lt_is_Some_2 monitor_data_ (Z.to_nat row) ltac:(lia)) as [r Er].
  rewrite Er. destruct (r !! Z.to_nat col) as [v|] eqn:Ev.
  - repeat split; try done; try lia.
    + intros v' [= <-]. right. repeat split; try done; try lia. by exists r.
    + intros (_ & _ & r' & [= <-] & Hlen).
      apply lookup_lt_Some in Ev. lia.
    + intros _. by eexists.
  - apply lookup_ge_None in Ev. repeat split; try done; try lia.
    + exists r. split; [done | lia].
    + intros Hall.
      pose proof (proj1 (list.Forall_forall _ _) Hall r
                    ltac:(by eapply list_elem_of_lookup_2)) as Hlen.
      simpl in Hlen. lia.
Qed.

Lemma X19_data_reads_cells_witness :
  TableModel.data 2 [[Qt.QString "a"; Qt.QString "b"]] (Qt.mkIndex 0 1) Qt.DisplayRole
    = Ok (Qt.QString "b") ∧
  TableModel.data 2 [[Qt.QString "a"]] (Qt.mkIndex 0 1) Qt.DisplayRole = Undefined ∧
  TableModel.data 2 [[Qt.QString "a"; Qt.QString "b"]] (Qt.mkIndex (-1) 1) Qt.DisplayRole
    = Ok Qt.Invalid.
Proof.
  split; [|split].
  - destruct (proj1 (proj2 (proj2 (proj2 (X19_data_reads_cells 2
                 [[Qt.QString "a"; Qt.QString "b"]] (Qt.mkIndex 0 1) Qt.DisplayRole)))))
      as [v Hv].
    { repeat constructor. }
    destruct (proj1 (X19_data_reads_cells 2 [[Qt.QString "a"; Qt.QString "b"]]
                       (Qt.mkIndex 0 1) Qt.DisplayRole) v Hv)
      as [-> | (_ & _ & r & [= <-] & [= <-])]; [discriminate Hv | exact Hv].
  - apply (proj2 (proj1 (proj2 (proj2 (X19_data_reads_cells 2 [[Qt.QString "a"]]
                                         (Qt.mkIndex 0 1) Qt.DisplayRole))))).
    split; [reflexivity|]. split; [simpl; lia|].
    exists [Qt.QString "a"]. split; [reflexivity | simpl; lia].
  - apply (proj2 (proj2 (proj2 (proj2 (X19_data_reads_cells 2
                 [[Qt.QString "a"; Qt.QString "b"]] (Qt.mkIndex (-1) 1)
                 Qt.DisplayRole))))).
    left. simpl. lia.
Defined.

Lemma data_shown {A} (f cells : A → list Qt.QVariant) (n : nat) (l : list A)
    (row col role : Z) :
  (∀ a, f a = cells a) → (∀ a, length (cells a) = n) →
  TableModel.data (Z.of_nat n) (f <$> l) (Qt.mkIndex row col) role =
  Ok (if role =? Qt.DisplayRole then shown cells l row col else Qt.Invalid).
Proof.
  intros Hf Hn. rewrite data_fmap by (intros a; by rewrite Hf).
  unfold shown. destruct (role =? Qt.DisplayRole); simpl; [|done].
  destruct ((0 <=? row) && (0 <=? col)); [|done].
  destruct (l !! Z.to_nat row) as [a|]; simpl; [|done]. by rewrite Hf.
Qed.

(** X20. The three list tables (softirq, CPU time, network) after an
    update, whatever they held before: one row per record of the
    snapshot, in order, each of [COLUMN_MAX] cells; for the display role
    the cell at (row, column) is the field of that record that the
    column stands for (the name, then the numbers in the order of the
    header), and the invalid value outside the table; for every other
    role it is the invalid value.  [data()] never fails on them.  Of a
    CPU-time record only the name and the overall, user and system
    percentages are shown. *)
Theorem X20_list_tables (monitor_info : proto.MonitorInfo)
    (old : list (list Qt.QVariant)) (row col role : Z) :
  (let rows := MonitorBaseModel.UpdateMonitorInfo monitor_info old in
   rows = soft_irq_cells <$> proto.soft_irq monitor_info ∧
   TableModel.rowCount rows = Z.of_nat (length (proto.soft_irq monitor_info)) ∧
   TableModel.data (Z.of_nat MonitorBaseModel.COLUMN_MAX) rows (Qt.mkIndex row col) role =
     Ok (if role =? Qt.DisplayRole
         then shown soft_irq_cells (proto.soft_irq monitor_info) row col
         else Qt.Invalid)) ∧
  (let rows := CpuStatModel.UpdateMonitorInfo monitor_info old in
   rows = cpu_stat_cells <$> proto.cpu_stat monitor_info ∧
   TableModel.rowCount rows = Z.of_nat (length (proto.cpu_stat monitor_info)) ∧
   TableModel.data (Z.of_nat CpuStatModel.COLUMN_MAX) rows (Qt.mkIndex row col) role =
     Ok (if role =? Qt.DisplayRole
         then shown cpu_stat_cells (proto.cpu_stat monitor_info) row col
         else Qt.Invalid)) ∧
  (let rows := NetModel.UpdateMonitorInfo monitor_info old in
   rows = net_info_cells <$> proto.net_info monitor_info ∧
   TableModel.rowCount rows = Z.of_nat (length (proto.net_info monitor_info)) ∧
   TableModel.data (Z.of_nat NetModel.COLUMN_MAX) rows (Qt.mkIndex row col) role =
     Ok (if role =? Qt.DisplayRole
         then shown net_info_cells (proto.net_info monitor_info) row col
         else Qt.Invalid)).
Proof.
  unfold MonitorBaseModel.UpdateMonitorInfo, CpuStatModel.UpdateMonitorInfo,
    NetModel.UpdateMonitorInfo, TableModel.rowCount. cbv zeta.
  rewrite !length_fmap.
  split; [|split]; (split; [done|]); (split; [done|]).
  - by apply (data_shown MonitorBaseModel.insert_one_soft_irq soft_irq_cells 11).
  - by apply (data_shown CpuStatModel.insert_one_cpu_stat cpu_stat_cells 4).
  - by apply (data_shown NetModel.insert_one_net_info net_info_cells 5).
Qed.

(** X21. The load table and the memory table hold exactly one row after
    an update, whatever the snapshot: the gauges of its load record,
    resp. eighteen of its memory gauges, and a row of zeros when the
    snapshot has no such record (as after a fetch that failed).  The
    memory row does not depend on the two gauges [active_file] and
    [inactive_file], which no column shows. *)
Theorem X21_single_row_tables (monitor_info : proto.MonitorInfo)
    (old : list (list Qt.QVariant)) (row col role : Z) :
  (let rows := CpuLoadModel.UpdateMonitorInfo monitor_info old in
   TableModel.rowCount rows = 1 ∧
   rows = [cpu_load_cells (CpuLoadModel.cpu_load monitor_info)] ∧
   (proto.cpu_load monitor_info = None →
    rows = [[Qt.Number F32.zero; Qt.Number F32.zero; Qt.Number F32.zero]]) ∧
   TableModel.data (Z.of_nat CpuLoadModel.COLUMN_MAX) rows (Qt.mkIndex row col) role =
     Ok (if role =? Qt.DisplayRole
         then shown cpu_load_cells [CpuLoadModel.cpu_load monitor_info] row col
         else Qt.Invalid)) ∧
  (let rows := MemModel.UpdateMonitorInfo monitor_info old in
   TableModel.rowCount rows = 1 ∧
   (proto.mem_info monitor_info = None →
    rows = [repeat (Qt.Number F32.zero) 18]) ∧
   (∀ r, rows !! 0%nat = Some r → length r = MemModel.COLUMN_MAX) ∧
   returns (TableModel.data (Z.of_nat MemModel.COLUMN_MAX) rows (Qt.mkIndex row col) role) ∧
   (∀ m a i a' i',
      MemModel.insert_one_mem_info (with_file_gauges m a i) =
      MemModel.insert_one_mem_info (with_file_gauges m a' i')) ∧
   (∀ m, with_file_gauges m (proto.MemInfo.active_file m) (proto.MemInfo.inactive_file m)
         = m)).
Proof.
  split.
  - simpl. split; [done|]. split; [done|]. split.
    + unfold CpuLoadModel.UpdateMonitorInfo, CpuLoadModel.cpu_load. by intros ->.
    + apply (data_shown CpuLoadModel.insert_one_cpu_load cpu_load_cells 3
               [CpuLoadModel.cpu_load monitor_info]); done.
  - simpl. split; [done|]. split.
    { unfold MemModel.UpdateMonitorInfo, MemModel.mem_info. by intros ->. }
    split.
    { unfold MemModel.UpdateMonitorInfo. by intros r [= <-]. }
    split; [|split; [done | by intros []]].
    change (MemModel.UpdateMonitorInfo monitor_info old)
      with (MemModel.insert_one_mem_info <$> [MemModel.mem_info monitor_info]).
    rewrite (data_fmap MemModel.insert_one_mem_info 18) by done.
    apply returns_Ok.
Qed.

Lemma X21_single_row_tables_witness :
  MemModel.UpdateMonitorInfo proto.empty [] = [repeat (Qt.Number F32.zero) 18] ∧
  CpuLoadModel.UpdateMonitorInfo proto.empty []
    = [[Qt.Number F32.zero; Qt.Number F32.zero; Qt.Number F32.zero]].
Proof.
  split.
  - apply (proj1 (proj2 (proj2 (X21_single_row_tables proto.empty [] 0 0 0)))).
    reflexivity.
  - apply (proj1 (proj2 (proj2 (proj1 (X21_single_row_tables proto.empty [] 0 0 0))))).
    reflexivity.
Defined.

(** X22. The memory table has eighteen columns but twenty header labels.
    Up to column 10 the label of a column names the gauge it shows.
    From column 11 on the label is the one of another gauge: the column
    shows the gauge that the label two places further names, so that the
    columns titled [active_file] and [inactive_file] show [dirty] and
    [writeback], and the labels [sReclaimable] and [sUnreclaim] are
    beyond the last column. *)
Theorem X22_mem_headers (monitor_info : proto.MonitorInfo)
    (old : list (list Qt.QVariant)) (section : Z) :
  let rows := MemModel.UpdateMonitorInfo monitor_info old in
  length MemModel.header_ = 20%nat ∧
  TableModel.columnCount (Z.of_nat MemModel.COLUMN_MAX) = 18 ∧
  (0 ≤ section < 18 →
   ∃ label g,
     mem_columns !! Z.to_nat section = Some g ∧
     TableModel.headerData MemModel.header_ section Qt.Horizontal Qt.DisplayRole
       = Ok (Qt.QString label) ∧
     TableModel.data (Z.of_nat MemModel.COLUMN_MAX) rows (Qt.mkIndex 0 section)
       Qt.DisplayRole = Ok (Qt.Number (g (MemModel.mem_info monitor_info))) ∧
     (section ≤ 10 → MemModel.field_named label = Some g) ∧
     (11 ≤ section →
      ∃ other, MemModel.header_ !! Z.to_nat (section + 2) = Some other ∧
               other ≠ label ∧ MemModel.field_named other = Some g)).
Proof.
  intros rows. split; [done|]. split; [done|]. intros Hs.
  assert (section = 0 ∨ section = 1 ∨ section = 2 ∨ section = 3 ∨ section = 4
          ∨ section = 5 ∨ section = 6 ∨ section = 7 ∨ section = 8 ∨ section = 9
          ∨ section = 10 ∨ section = 11 ∨ section = 12 ∨ section = 13
          ∨ section = 14 ∨ section = 15 ∨ section = 16 ∨ section = 17) as Hcases by lia.
  repeat (destruct Hcases as [-> | Hcases];
          [eexists _, _; split; [reflexivity|]; split; [reflexivity|];
           split; [reflexivity|]; split;
           [intros ?; first [reflexivity | lia]
           |intros ?; first [lia | eexists; split; [reflexivity|]; split; done]]|]).
  subst section. eexists _, _. split; [reflexivity|]. split; [reflexivity|].
  split; [reflexivity|]. split; [lia|]. intros _. eexists. split; [reflexivity|].
  split; done.
Qed.

Lemma X22_mem_headers_witness :
  TableModel.headerData MemModel.header_ 11 Qt.Horizontal Qt.DisplayRole
    = Ok (Qt.QString "active_file") ∧
  ∀ monitor_info,
    TableModel.data (Z.of_nat MemModel.COLUMN_MAX)
      (MemModel.UpdateMonitorInfo monitor_info []) (Qt.mkIndex 0 11) Qt.DisplayRole
    = Ok (Qt.Number (proto.MemInfo.dirty (MemModel.mem_info monitor_info))).
Proof.
  split; [reflexivity|]. intros monitor_info.
  destruct (proj2 (proj2 (X22_mem_headers monitor_info [] 11)))
    as (label & g & Hg & _ & Hdata & _); [lia|].
  injection Hg as <-. exact Hdata.
Defined.

(** X23. [headerData()] of a table model never throws.  For the display
    role of a horizontal header it returns the label at the section, and
    its behaviour is undefined exactly when the section is outside the
    labels; in every other case it returns the style of the base class:
    the bold 10-point font for the font role, light gray for the
    background role, and what Qt's table model returns otherwise.  Each of
    the five models has at least as many labels as columns, so that no
    section below [columnCount()] is outside them. *)
Theorem X23_header_data (header_ : list string) (section : Z)
    (orientation : Qt.Orientation) (role : Z) :
  (∀ e, TableModel.headerData header_ section orientation role ≠ Throw e) ∧
  (TableModel.headerData header_ section orientation role = Undefined ↔
   orientation = Qt.Horizontal ∧ role = Qt.DisplayRole ∧
   ¬ (0 ≤ section < Z.of_nat (length header_))) ∧
  (orientation = Qt.Horizontal → role = Qt.DisplayRole →
   ∀ label, 0 ≤ section → header_ !! Z.to_nat section = Some label →
   TableModel.headerData header_ section orientation role = Ok (Qt.QString label)) ∧
  (orientation = Qt.Vertical ∨ role ≠ Qt.DisplayRole →
   TableModel.headerData header_ section orientation role =
   Ok (if role =? Qt.FontRole then Qt.QFont "Microsoft YaHei" 10 Qt.Bold
       else if role =? Qt.BackgroundRole then Qt.QColor Qt.lightGray
       else Qt.Inherited section orientation role)) ∧
  (MonitorBaseModel.COLUMN_MAX ≤ length MonitorBaseModel.header_ ∧
   CpuLoadModel.COLUMN_MAX ≤ length CpuLoadModel.header_ ∧
   CpuStatModel.COLUMN_MAX ≤ length CpuStatModel.header_ ∧
   MemModel.COLUMN_MAX ≤ length MemModel.header_ ∧
   NetModel.COLUMN_MAX ≤ length NetModel.header_)%nat.
Proof.
  unfold TableModel.headerData, Qt.qlist_at, vec_at, MonitorInterModel.headerData.
  split; [|split; [|split; [|split]]].
  - intros e. destruct orientation; [|done].
    destruct (role =? Qt.DisplayRole); [|done].
    destruct (section <? 0); [done|]. by destruct (header_ !! Z.to_nat section).
  - destruct orientation.
    + destruct (Z.eqb_spec role Qt.DisplayRole) as [Hrole|Hrole].
      * destruct (Z.ltb_spec section 0) as [Hs|Hs]; simpl.
        { split; [intros _; repeat split; try done; lia | done]. }
        destruct (header_ !! Z.to_nat section) as [label|] eqn:El; simpl.
        -- apply lookup_lt_Some in El. split; [done|]. intros (_ & _ & Hn). lia.
        -- apply lookup_ge_None in El. split; [|done]. intros _.
           repeat split; try done. lia.
      * split; [done | by intros (_ & ? & _)].
    + split; [done | by intros (? & _)].
  - intros -> -> label Hs Hl. rewrite Z.eqb_refl.
    rewrite (proj2 (Z.ltb_ge section 0)) by lia. by rewrite Hl.
  - intros [-> | Hrole]; [done|]. destruct orientation; [|done].
    by rewrite (proj2 (Z.eqb_neq role Qt.DisplayRole)).
  - unfold MonitorBaseModel.COLUMN_MAX, CpuLoadModel.COLUMN_MAX, CpuStatModel.COLUMN_MAX,
      MemModel.COLUMN_MAX, NetModel.COLUMN_MAX. simpl. lia.
Qed.

Lemma X23_header_data_witness :
  TableModel.headerData NetModel.header_ 1 Qt.Horizontal Qt.DisplayRole
    = Ok (Qt.QString "send_rate") ∧
  TableModel.headerData NetModel.header_ 5 Qt.Horizontal Qt.DisplayRole = Undefined ∧
  TableModel.headerData NetModel.header_ 5 Qt.Horizontal Qt.FontRole
    = Ok (Qt.QFont "Microsoft YaHei" 10 Qt.Bold).
Proof.
  split; [|split].
  - apply (proj1 (proj2 (proj2 (X23_header_data NetModel.header_ 1 Qt.Horizontal
                                  Qt.DisplayRole)))); [done | done | lia | done].
  - apply (proj2 (proj1 (proj2 (X23_header_data NetModel.header_ 5 Qt.Horizontal
                                  Qt.DisplayRole)))).
    split; [done|]. split; [done|]. simpl. lia.
  - apply (proj1 (proj2 (proj2 (proj2 (X23_header_data NetModel.header_ 5 Qt.Horizontal
                                         Qt.FontRole))))).
    right. done.
Defined.

(** X24. One pass of the display's loop, once the widget has allocated
    its models: the snapshot is cleared and fetched, and the five tables
    are rebuilt from it, so that what was shown before has no effect.
    When the fetch gets through the tables are those of the server's
    slot; when it fails the three list tables are empty and the load and
    memory tables show one row of zeros.  Before the models are
    allocated, an update goes through a null pointer. *)
Theorem X24_display_poll (ok : bool) (server : GrpcManagerImpl.t)
    (monitor_info : proto.MonitorInfo) (name : string) (w : MonitorWidget.t) :
  allocated (MonitorWidget.ShowAllMonitorWidget name w) ∧
  (allocated w →
   Display.poll ok server (monitor_info, w) =
   Ok (if ok then server else proto.empty,
       tables_of (if ok then server else proto.empty))) ∧
  (allocated w → ∀ monitor_info' w', allocated w' →
   Display.poll ok server (monitor_info, w) = Display.poll ok server (monitor_info', w')) ∧
  tables_of proto.empty =
    MonitorWidget.mk (Some [])
      (Some [[Qt.Number F32.zero; Qt.Number F32.zero; Qt.Number F32.zero]])
      (Some []) (Some [repeat (Qt.Number F32.zero) 18]) (Some []) ∧
  Display.poll ok server (monitor_info, MonitorWidget.init) = Undefined.
Proof.
  split; [|split; [|split; [|split]]].
  - unfold allocated. simpl. by repeat split.
  - apply poll_fetch.
  - intros Hw monitor_info' w' Hw'. by rewrite !poll_fetch.
  - done.
  - unfold Display.poll, RpcClient.GetMonitorInfo. by destruct ok.
Qed.

Lemma X24_display_poll_witness :
  Display.poll false GrpcManagerImpl.init
    (proto.empty, MonitorWidget.ShowAllMonitorWidget "host" MonitorWidget.init)
  = Ok (proto.empty,
        MonitorWidget.mk (Some [])
          (Some [[Qt.Number F32.zero; Qt.Number F32.zero; Qt.Number F32.zero]])
          (Some []) (Some [repeat (Qt.Number F32.zero) 18]) (Some [])).
Proof.
  rewrite (proj1 (proj2 (X24_display_poll false GrpcManagerImpl.init proto.empty
                           "host" (MonitorWidget.ShowAllMonitorWidget "host"
                                     MonitorWidget.init)))).
  - reflexivity.
  - apply (X24_display_poll false GrpcManagerImpl.init proto.empty "host"
             MonitorWidget.init).
Defined.

(** ** The display: what the models never return *)

Lemma shown_cells {A} (cells : A → list Qt.QVariant) (records : list A) (row col : Z)
    (P : Qt.QVariant → Prop) :
  P Qt.Invalid → (∀ a, Forall P (cells a)) → P (shown cells records row col).
Proof.
  intros Hinv Hcells. unfold shown.
  destruct ((0 <=? row) && (0 <=? col)); [|done].
  destruct (records !! Z.to_nat row) as [a|]; simpl; [|done].
  destruct (cells a !! Z.to_nat col) as [v|] eqn:Ev; simpl; [|done].
  apply (proj1 (list.Forall_forall _ _) (Hcells a) v).
  by eapply list_elem_of_lookup_2.
Qed.

Ltac plain_cells :=
  repeat (constructor;
          [first [by left | right; left; by eexists | right; right; by eexists]|]);
  constructor.

(** X26. After an update, [data()] of each of the five models returns
    only the invalid value, a string or a number, for every index and
    every role: the alignment and the colours that [data()] of the base
    class returns for the text-alignment, text-colour and background
    roles never reach a view, since no model hands a role over to the
    base class. *)
Theorem X26_styles_never_shown (monitor_info : proto.MonitorInfo)
    (old : list (list Qt.QVariant)) (index : Qt.QModelIndex) (role : Z) :
  let plain := λ v, v = Qt.Invalid ∨ (∃ s, v = Qt.QString s) ∨ (∃ x, v = Qt.Number x) in
  (∃ v, TableModel.data (Z.of_nat MonitorBaseModel.COLUMN_MAX)
          (MonitorBaseModel.UpdateMonitorInfo monitor_info old) index role = Ok v
        ∧ plain v) ∧
  (∃ v, TableModel.data (Z.of_nat CpuLoadModel.COLUMN_MAX)
          (CpuLoadModel.UpdateMonitorInfo monitor_info old) index role = Ok v
        ∧ plain v) ∧
  (∃ v, TableModel.data (Z.of_nat CpuStatModel.COLUMN_MAX)
          (CpuStatModel.UpdateMonitorInfo monitor_info old) index role = Ok v
        ∧ plain v) ∧
  (∃ v, TableModel.data (Z.of_nat MemModel.COLUMN_MAX)
          (MemModel.UpdateMonitorInfo monitor_info old) index role = Ok v
        ∧ plain v) ∧
  (∃ v, TableModel.data (Z.of_nat NetModel.COLUMN_MAX)
          (NetModel.UpdateMonitorInfo monitor_info old) index role = Ok v
        ∧ plain v) ∧
  MonitorInterModel.data index Qt.TextAlignmentRole = Qt.Alignment 129 ∧
  MonitorInterModel.data index Qt.TextColorRole = Qt.QColor Qt.black ∧
  MonitorInterModel.data index Qt.BackgroundRole = Qt.QColor Qt.white.
Proof.
  intros plain. destruct index as [row col].
  assert (Hplain : ∀ {A} (cells : A → list Qt.QVariant) records,
            (∀ a, Forall plain (cells a)) →
            plain (if role =? Qt.DisplayRole then shown cells records row col
                   else Qt.Invalid)).
  { intros A cells records Hcells. destruct (role =? Qt.DisplayRole); [|by left].
    apply shown_cells; [by left | done]. }
  split; [|split; [|split; [|split; [|split]]]].
  - eexists. split.
    + apply (data_shown MonitorBaseModel.insert_one_soft_irq soft_irq_cells 11); done.
    + apply Hplain. intros a. plain_cells.
  - eexists. split.
    + apply (data_shown CpuLoadModel.insert_one_cpu_load cpu_load_cells 3
               [CpuLoadModel.cpu_load monitor_info]); done.
    + apply Hplain. intros a. plain_cells.
  - eexists. split.
    + apply (data_shown CpuStatModel.insert_one_cpu_stat cpu_stat_cells 4); done.
    + apply Hplain. intros a. plain_cells.
  - eexists. split.
    + apply (data_shown MemModel.insert_one_mem_info MemModel.insert_one_mem_info 18
               [MemModel.mem_info monitor_info]); done.
    + apply Hplain. intros a. plain_cells.
  - eexists. split.
    + apply (data_shown NetModel.insert_one_net_info net_info_cells 5); done.
    + apply Hplain. intros a. plain_cells.
  - done.
Qed.

(** ** The softirq sampler: where the counters of a CPU come from *)

Lemma softirq_samples_lookup (now : nat → Z) (softirq : list (list string)) (n i : nat)
    (ss : list (string * CpuSoftIrqMonitor.SoftIrq)) :
  CpuSoftIrqMonitor.samples now softirq i n = Ok ss →
  ∀ j, (j < n)%nat →
    ∃ kv, ss !! j = Some kv ∧
          CpuSoftIrqMonitor.sample_of softirq (i + j) (now (i + j)%nat) = Ok kv.
Proof.
  revert i ss. induction n as [|n IH]; intros i ss Hss j Hj; [lia|].
  simpl in Hss. inv_bind Hss. injection Hss as <-.
  destruct j as [|j].
  - rewrite Nat.add_0_r. by eexists.
  - rewrite Nat.add_succ_r. simpl. eapply (IH (S i)); [done | lia].
Qed.

(** X27. Whenever a call of the softirq sampler returns, the history
    holds, for the token at position [i] of the header (the last token
    apart, and provided no later column carries the same token), a sample
    named by that token, stamped with the clock reading of column [i],
    whose ten counters are the tokens at position [i + 1] of the records
    1 to 10, in the order HI, TIMER, NET_TX, NET_RX, BLOCK, IRQ_POLL,
    TASKLET, SCHED, HRTIMER, RCU. *)
Theorem X27_softirq_counters (fs : gmap string string) (now : nat → Z)
    (h h' : gmap string CpuSoftIrqMonitor.SoftIrq) (mi mi' : proto.MonitorInfo) :
  let softirq := ReadFile.ReadAll (ReadFile.open fs CpuSoftIrqMonitor.path) in
  CpuSoftIrqMonitor.UpdateOnce fs now h mi = Ok (h', mi') →
  ∃ header, softirq !! 0%nat = Some header ∧
    ∀ i e, (i < length header - 1)%nat → header !! i = Some e →
      e ∉ drop (S i) (take (length header - 1) header) →
      ∃ v, h' !! e = Some v ∧
        CpuSoftIrqMonitor.cpu_name v = e ∧
        CpuSoftIrqMonitor.timepoint v = now i ∧
        CpuSoftIrqMonitor.cell softirq 1 (i + 1) = Ok (CpuSoftIrqMonitor.hi v) ∧
        CpuSoftIrqMonitor.cell softirq 2 (i + 1) = Ok (CpuSoftIrqMonitor.timer v) ∧
        CpuSoftIrqMonitor.cell softirq 3 (i + 1) = Ok (CpuSoftIrqMonitor.net_tx v) ∧
        CpuSoftIrqMonitor.cell softirq 4 (i + 1) = Ok (CpuSoftIrqMonitor.net_rx v) ∧
        CpuSoftIrqMonitor.cell softirq 5 (i + 1) = Ok (CpuSoftIrqMonitor.block v) ∧
        CpuSoftIrqMonitor.cell softirq 6 (i + 1) = Ok (CpuSoftIrqMonitor.irq_poll v) ∧
        CpuSoftIrqMonitor.cell softirq 7 (i + 1) = Ok (CpuSoftIrqMonitor.tasklet v) ∧
        CpuSoftIrqMonitor.cell softirq 8 (i + 1) = Ok (CpuSoftIrqMonitor.sched v) ∧
        CpuSoftIrqMonitor.cell softirq 9 (i + 1) = Ok (CpuSoftIrqMonitor.hrtimer v) ∧
        CpuSoftIrqMonitor.cell softirq 10 (i + 1) = Ok (CpuSoftIrqMonitor.rcu v).
Proof.
  intros softirq. rewrite softirq_UpdateOnce_samples.
  unfold CpuSoftIrqMonitor.all_samples. fold softirq.
  intros H. apply obind_Ok in H as (ss & Hss & [= <- _]).
  apply obind_Ok in Hss as (header & Hh%vec_at_Ok & Hss).
  exists header. split; [done|]. intros i e Hi He Hlater.
  destruct header as [|name0 header]; [done|].
  destruct (softirq_samples_lookup _ _ _ _ _ Hss i Hi) as ([e' v] & Hkv & Hsample).
  simpl in Hsample.
  destruct (softirq_sample_of_name _ _ _ _ _ Hsample)
    as (Hname & Htime & _ & header' & Hh' & He').
  assert (e' = e) as -> by congruence.
  exists v. split.
  - rewrite observe_all_held. simpl.
    rewrite <- (take_drop_middle ss i (e, v) Hkv).
    apply held_lookup_last.
    rewrite fmap_drop, (softirq_samples_keys _ _ _ _ _ _ Hh Hss). by rewrite drop_0.
  - split; [done|]. split; [done|]. by eapply softirq_sample_cells.
Qed.

Lemma X27_softirq_counters_witness :
  ∃ h' mi' v,
    CpuSoftIrqMonitor.UpdateOnce {[ CpuSoftIrqMonitor.path := softirq_padded ]}
      clock_us ∅ proto.empty = Ok (h', mi') ∧
    h' !! "CPU1" = Some v ∧
    CpuSoftIrqMonitor.timepoint v = 1000 ∧
    CpuSoftIrqMonitor.hi v = 2 ∧ CpuSoftIrqMonitor.timer v = 4 ∧
    CpuSoftIrqMonitor.rcu v = 20.
Proof.
  destruct (CpuSoftIrqMonitor.UpdateOnce {[ CpuSoftIrqMonitor.path := softirq_padded ]}
              clock_us ∅ proto.empty) as [[h' mi']| |] eqn:Hrun;
    [|vm_compute in Hrun; discriminate Hrun ..].
  destruct (X27_softirq_counters _ _ _ _ _ _ Hrun) as (header & Hh & Hcols).
  assert (header = ["CPU0"; "CPU1"; ""]) as ->.
  { vm_compute in Hh. by injection Hh as <-. }
  destruct (Hcols 1%nat "CPU1") as (v & Hv & _ & Ht & Hhi & Htimer & _ & _ & _ & _ & _
                                    & _ & _ & Hrcu).
  { simpl. lia. }
  { reflexivity. }
  { simpl. apply not_elem_of_nil. }
  exists h', mi', v. split; [reflexivity|]. split; [exact Hv|]. split; [exact Ht|].
  vm_compute in Hhi. injection Hhi as Hhi.
  vm_compute in Htimer. injection Htimer as Htimer.
  vm_compute in Hrcu. injection Hrcu as Hrcu.
  split; [symmetry; exact Hhi|]. split; [symmetry; exact Htimer | symmetry; exact Hrcu].
Defined.

(** ** The elapsed time is positive when the time stamps advance *)

Lemma digits2_pos_bounds (p : positive) :
  2 ^ (Z.pos (digits2_pos p) - 1) ≤ Z.pos p < 2 ^ Z.pos (digits2_pos p).
Proof.
  induction p as [p IH|p IH|]; simpl digits2_pos; [| |simpl; lia].
  - rewrite Pos2Z.inj_succ, (Pos2Z.inj_xI p).
    replace (Z.succ (Z.pos (digits2_pos p)) - 1) with (Z.succ (Z.pos (digits2_pos p) - 1))
      by lia.
    rewrite !Z.pow_succ_r by lia. lia.
  - rewrite Pos2Z.inj_succ, (Pos2Z.inj_xO p).
    replace (Z.succ (Z.pos (digits2_pos p)) - 1) with (Z.succ (Z.pos (digits2_pos p) - 1))
      by lia.
    rewrite !Z.pow_succ_r by lia. lia.
Qed.

Lemma Zdigits2_bounds (m : Z) :
  0 < m → 2 ^ (Zdigits2 m - 1) ≤ m < 2 ^ Zdigits2 m.
Proof. destruct m as [|p|p]; [lia| |lia]. intros _. apply digits2_pos_bounds. Qed.

Lemma Zdigits2_pos (m : Z) : 0 < m → 0 < Zdigits2 m.
Proof. destruct m; simpl; lia. Qed.

(** A lower bound on a positive number bounds its number of digits. *)
Lemma Zdigits2_lower (m k : Z) : 0 < m → 2 ^ k ≤ m → k < Zdigits2 m.
Proof.
  intros Hm Hk. destruct (Zdigits2_bounds m Hm) as [_ Hup].
  destruct (Z.lt_ge_cases k (Zdigits2 m)) as [|Hge]; [done|].
  pose proof (Z.pow_le_mono_r 2 _ _ ltac:(lia) Hge). lia.
Qed.

Lemma shr_1_m (r : shr_record) : 0 ≤ shr_m r → shr_m (shr_1 r) = shr_m r / 2.
Proof.
  destruct r as [m b s]. simpl. intros Hm.
  destruct m as [|[p|p|]|p]; try lia; simpl; try done.
  - rewrite <- Z.div2_div. done.
  - rewrite <- Z.div2_div. done.
Qed.

Lemma iter_shr_1_m (p : positive) (r : shr_record) :
  0 ≤ shr_m r → shr_m (SpecFloat.iter_pos shr_1 p r) = shr_m r / 2 ^ Z.pos p.
Proof.
  revert r. induction p as [p IH|p IH|]; intros r Hr; simpl SpecFloat.iter_pos.
  - assert (0 ≤ shr_m (shr_1 r)) as H1 by (rewrite shr_1_m by done; apply Z.div_pos; lia).
    assert (0 ≤ shr_m (SpecFloat.iter_pos shr_1 p (shr_1 r))) as H2.
    { rewrite IH by done. apply Z.div_pos; [done|]. apply Z.pow_pos_nonneg; lia. }
    rewrite IH, IH, shr_1_m by done.
    rewrite !Z.div_div by (try apply Z.pow_pos_nonneg; lia).
    f_equal. rewrite (Pos2Z.inj_xI p).
    replace (2 * Z.pos p + 1) with (Z.succ (Z.pos p + Z.pos p)) by lia.
    rewrite Z.pow_succ_r, Z.pow_add_r by lia. lia.
  - assert (0 ≤ shr_m (SpecFloat.iter_pos shr_1 p r)) as H2.
    { rewrite IH by done. apply Z.div_pos; [done|]. apply Z.pow_pos_nonneg; lia. }
    rewrite IH, IH by done.
    rewrite !Z.div_div by (try apply Z.pow_pos_nonneg; lia).
    f_equal. rewrite (Pos2Z.inj_xO p).
    replace (2 * Z.pos p) with (Z.pos p + Z.pos p) by lia.
    by rewrite Z.pow_add_r by lia.
  - by rewrite shr_1_m.
Qed.

Lemma shr_m_of_loc (m : Z) (l : location) : shr_m (shr_record_of_loc m l) = m.
Proof. by destruct l as [|[]]. Qed.

(** Shifting a positive mantissa to its format exponent keeps it
    positive and does not lower its magnitude, above the smallest
    subnormal number. *)
Lemma shr_fexp_positive (prec emax : Z) (mx ex : Z) (l : location) :
  0 < prec → 0 < mx → emin prec emax < Zdigits2 mx + ex →
  0 < shr_m (shr_fexp prec emax mx ex l).1 ∧
  Zdigits2 mx + ex ≤ Zdigits2 (shr_m (shr_fexp prec emax mx ex l).1)
                     + (shr_fexp prec emax mx ex l).2.
Proof.
  intros Hprec Hmx Hmin. unfold shr_fexp, shr.
  destruct (fexp prec emax (Zdigits2 mx + ex) - ex) as [|p|p] eqn:En; simpl;
    rewrite ?shr_m_of_loc; try (split; [done|lia]).
  rewrite iter_shr_1_m by (rewrite shr_m_of_loc; lia). rewrite shr_m_of_loc.
  assert (Z.pos p < Zdigits2 mx) as Hp by (unfold fexp in En; lia).
  destruct (Zdigits2_bounds mx Hmx) as [Hlow Hup].
  assert (0 < 2 ^ Z.pos p) as Hpow by (apply Z.pow_pos_nonneg; lia).
  assert (2 ^ Z.pos p ≤ mx) as Hle.
  { etrans; [|exact Hlow]. apply Z.pow_le_mono_r; lia. }
  assert (0 < mx / 2 ^ Z.pos p) as Hq by (apply Z.div_str_pos; lia).
  split; [done|].
  assert (Zdigits2 mx - 1 - Z.pos p < Zdigits2 (mx / 2 ^ Z.pos p)); [|lia].
  apply Zdigits2_lower; [done|].
  apply Z.div_le_lower_bound; [done|].
  rewrite <- Z.pow_add_r by lia.
  replace (Z.pos p + (Zdigits2 mx - 1 - Z.pos p)) with (Zdigits2 mx - 1) by lia. done.
Qed.

Lemma Zdigits2_mono (a b : Z) : 0 < a → a ≤ b → Zdigits2 a ≤ Zdigits2 b.
Proof.
  intros Ha Hab. destruct (Zdigits2_bounds a Ha) as [Hlow _].
  pose proof (Zdigits2_lower b (Zdigits2 a - 1) ltac:(lia) ltac:(lia)). lia.
Qed.

Lemma round_nearest_even_ge (m : Z) (l : location) :
  m ≤ round_nearest_even m l ≤ m + 1.
Proof. destruct l as [|[]]; simpl; try lia. destruct (Z.even m); lia. Qed.

(** Rounding a positive mantissa above the smallest subnormal number
    gives a positive number, of a magnitude that is not lower. *)
Lemma binary_round_aux_positive (prec emax : Z) (mx ex : Z) (l : location) :
  0 < prec → 0 < mx → emin prec emax < Zdigits2 mx + ex →
  binary_round_aux prec emax false mx ex l = S754_infinity false ∨
  ∃ m e, binary_round_aux prec emax false mx ex l = S754_finite false m e ∧
         Zdigits2 mx + ex ≤ Zdigits2 (Z.pos m) + e.
Proof.
  intros Hprec Hmx Hmin. unfold binary_round_aux.
  destruct (shr_fexp_positive prec emax mx ex l Hprec Hmx Hmin) as [Hm1 Hd1].
  destruct (shr_fexp prec emax mx ex l) as [mrs' e']. simpl in Hm1, Hd1.
  pose proof (round_nearest_even_ge (shr_m mrs') (loc_of_shr_record mrs')) as Hr.
  set (m2 := round_nearest_even (shr_m mrs') (loc_of_shr_record mrs')) in *.
  assert (Zdigits2 (shr_m mrs') ≤ Zdigits2 m2) as Hd2 by (apply Zdigits2_mono; lia).
  destruct (shr_fexp_positive prec emax m2 e' loc_Exact Hprec ltac:(lia) ltac:(lia))
    as [Hm3 Hd3].
  destruct (shr_fexp prec emax m2 e' loc_Exact) as [mrs'' e'']. simpl in Hm3, Hd3.
  destruct (shr_m mrs'') as [|m|m] eqn:Em; [lia| |lia].
  destruct (e'' <=? emax - prec); [|by left].
  right. exists m, e''. split; [done|]. lia.
Qed.

Lemma gt0_positive (x : spec_float) :
  x = S754_infinity false ∨ (∃ m e, x = S754_finite false m e) → gt0 x = true.
Proof. by intros [-> | (m & e & ->)]. Qed.

Lemma digits2_pos_iter_xO (p d : positive) :
  digits2_pos (Pos.iter xO p d) = (digits2_pos p + d)%positive.
Proof.
  induction d as [|d IH] using Pos.peano_ind.
  - simpl. by rewrite Pos.add_1_r.
  - rewrite Pos.iter_succ. simpl. by rewrite IH, Pos.add_succ_r.
Qed.

(** The float of a positive integer is positive, of magnitude at least
    one. *)
Lemma of_Z_positive (prec emax : Z) (d : positive) :
  0 < prec → emin prec emax < 1 →
  binary_normalize prec emax (Z.pos d) 0 false = S754_infinity false ∨
  ∃ m e, binary_normalize prec emax (Z.pos d) 0 false = S754_finite false m e ∧
         1 ≤ Zdigits2 (Z.pos m) + e.
Proof.
  intros Hprec Hmin. unfold binary_normalize, binary_round.
  assert (∃ mz ez, shl_align d 0 (fexp prec emax (Z.pos (digits2_pos d) + 0)) = (mz, ez)
                   ∧ 1 ≤ Zdigits2 (Z.pos mz) + ez) as (mz & ez & -> & Hd).
  { unfold shl_align.
    destruct (fexp prec emax (Z.pos (digits2_pos d) + 0) - 0) as [|k|k] eqn:Ek.
    - eexists _, _. split; [done|]. simpl. lia.
    - eexists _, _. split; [done|]. simpl. lia.
    - eexists _, _. split; [done|]. simpl. rewrite digits2_pos_iter_xO.
      unfold fexp in *. lia. }
  destruct (binary_round_aux_positive prec emax (Z.pos mz) ez loc_Exact Hprec
              ltac:(lia) ltac:(lia)) as [Hinf | (m & e & Hfin & Hmag)].
  - by left.
  - right. exists m, e. split; [done|]. lia.
Qed.

(** The quotient of two positive floats is positive when it is above
    the subnormal range. *)
Lemma SFdiv_positive (prec emax : Z) (m1 m2 : positive) (e1 e2 : Z) :
  0 < prec →
  emin prec emax + prec ≤
    (Zdigits2 (Z.pos m1) + e1) - (Zdigits2 (Z.pos m2) + e2) →
  gt0 (SFdiv prec emax (S754_finite false m1 e1) (S754_finite false m2 e2)) = true.
Proof.
  intros Hprec Hnormal. unfold SFdiv, SFdiv_core_binary.
  set (d1 := Zdigits2 (Z.pos m1)) in *. set (d2 := Zdigits2 (Z.pos m2)) in *.
  set (e' := Z.min (fexp prec emax (d1 + e1 - (d2 + e2))) (e1 - e2)).
  set (s := e1 - e2 - e').
  assert (e' ≤ d1 + e1 - (d2 + e2) - prec) as He' by (unfold e', fexp; lia).
  assert (0 ≤ s) as Hs by (unfold s, e'; lia).
  set (m' := match s with Z.pos _ => Z.shiftl (Z.pos m1) s | 0 => Z.pos m1 | _ => 0 end).
  assert (m' = Z.pos m1 * 2 ^ s) as Hm'.
  { unfold m'. destruct s as [|k|k] eqn:Es; [lia| |lia].
    by rewrite Z.shiftl_mul_pow2. }
  destruct (Zdigits2_bounds (Z.pos m1) ltac:(lia)) as [Hlow1 _].
  destruct (Zdigits2_bounds (Z.pos m2) ltac:(lia)) as [_ Hup2].
  fold d1 in Hlow1. fold d2 in Hup2.
  assert (0 < d1) as Hd1 by (apply Zdigits2_pos; lia).
  assert (0 < d2) as Hd2 by (apply Zdigits2_pos; lia).
  assert (2 ^ (d1 - 1 + s - d2) * Z.pos m2 ≤ m') as Hbound.
  { rewrite Hm'. etrans.
    - apply Z.mul_le_mono_nonneg_l; [apply Z.pow_nonneg; lia|].
      apply Z.lt_le_incl, Hup2.
    - rewrite <- Z.pow_add_r by lia.
      replace (d1 - 1 + s - d2 + d2) with (d1 - 1 + s) by lia.
      rewrite Z.pow_add_r by lia. apply Z.mul_le_mono_nonneg_r; [|done].
      apply Z.pow_nonneg; lia. }
  pose proof (Z.div_eucl_eq m' (Z.pos m2) ltac:(lia)) as Heucl.
  pose proof (Z.mod_pos_bound m' (Z.pos m2) ltac:(lia)) as Hmod.
  unfold Z.modulo in Hmod.
  assert (2 ^ (d1 - 1 + s - d2) ≤ m' / Z.pos m2) as Hq.
  { apply Z.div_le_lower_bound; lia. }
  unfold Z.div in Hq.
  destruct (Z.div_eucl m' (Z.pos m2)) as [q r]. simpl in Hq, Hmod.
  assert (0 < 2 ^ (d1 - 1 + s - d2)) as Hpow by (apply Z.pow_pos_nonneg; lia).
  pose proof (Zdigits2_lower q (d1 - 1 + s - d2) ltac:(lia) Hq) as Hdq.
  apply gt0_positive.
  destruct (binary_round_aux_positive prec emax q e' (new_location (Z.pos m2) r)
              Hprec ltac:(lia) ltac:(unfold s in *; lia))
    as [Hinf | (m & e & Hfin & _)].
  - by left.
  - right. by exists m, e.
Qed.

Lemma steady_time_positive (t1 t2 : Z) :
  0 < sub64 t1 t2 → gt0 (Utils.SteadyTimeSecond t1 t2) = true.
Proof.
  intros Hlt. unfold Utils.SteadyTimeSecond.
  assert (F64.of_Z 1000000000 = S754_finite false 8388608000000000 (-23)) as ->
    by (vm_compute; reflexivity).
  destruct (sub64 t1 t2) as [|d|d]; [lia| |lia].
  unfold F64.of_Z.
  destruct (of_Z_positive F64.prec F64.emax d ltac:(done) ltac:(done))
    as [-> | (m & e & -> & Hmag)]; [done|].
  apply SFdiv_positive; [done|].
  change (Zdigits2 8388608000000000) with 53.
  change (emin F64.prec F64.emax) with (-1074). change F64.prec with 53. lia.
Qed.

(** X28. The guard on the elapsed time is exact: the period computed
    from two time stamps is positive exactly when the later one is
    strictly ahead, as a 64-bit nanosecond difference (a period never
    rounds to zero, and is never NaN).  Hence, whenever a call of the
    softirq or the network sampler returns, every sample observed over
    an older sample of the same entity whose time stamp is strictly
    behind yields its record in the snapshot. *)
Theorem X28_guard_exact :
  (∀ t1 t2, gt0 (Utils.SteadyTimeSecond t1 t2) = true ↔ 0 < sub64 t1 t2) ∧
  (∀ fs now h mi h' mi',
     CpuSoftIrqMonitor.UpdateOnce fs now h mi = Ok (h', mi') →
     ∃ ss l, CpuSoftIrqMonitor.all_samples fs now = Ok ss ∧
       mi' = proto.append_soft_irq l mi ∧
       ∀ pre e cur post old,
         ss = pre ++ (e, cur) :: post → History.held pre h !! e = Some old →
         0 < sub64 (CpuSoftIrqMonitor.timepoint cur) (CpuSoftIrqMonitor.timepoint old) →
         CpuSoftIrqMonitor.rates cur old
           (Utils.SteadyTimeSecond (CpuSoftIrqMonitor.timepoint cur)
                                   (CpuSoftIrqMonitor.timepoint old)) ∈ l) ∧
  (∀ fs now h mi h' mi',
     NetMonitor.UpdateOnce fs now h mi = Ok (h', mi') →
     ∃ ss l, NetMonitor.all_samples fs now = Ok ss ∧
       mi' = proto.append_net_info l mi ∧
       ∀ pre e cur post old,
         ss = pre ++ (e, cur) :: post → History.held pre h !! e = Some old →
         0 < sub64 (NetMonitor.timepoint cur) (NetMonitor.timepoint old) →
         NetMonitor.rates cur old
           (Utils.SteadyTimeSecond (NetMonitor.timepoint cur)
                                   (NetMonitor.timepoint old)) ∈ l).
Proof.
  split; [|split].
  - intros t1 t2. split; [|apply steady_time_positive].
    intros Hgt. destruct (Z.lt_ge_cases 0 (sub64 t1 t2)) as [|Hle]; [done|].
    apply steady_time_nonpositive in Hle. congruence.
  - intros fs now h mi h' mi'. rewrite softirq_UpdateOnce_samples.
    destruct (CpuSoftIrqMonitor.all_samples fs now) as [ss| |]; simpl; try done.
    intros [= _ <-]. eexists ss, _. split; [done|]. split; [done|].
    intros pre e cur post old -> Hold Hlt.
    eapply observe_all_derived.
    + by rewrite observe_all_held.
    + unfold CpuSoftIrqMonitor.derive. by rewrite steady_time_positive.
  - intros fs now h mi h' mi'. rewrite net_UpdateOnce_samples.
    destruct (NetMonitor.all_samples fs now) as [ss| |]; simpl; try done.
    intros [= _ <-]. eexists ss, _. split; [done|]. split; [done|].
    intros pre e cur post old -> Hold Hlt.
    eapply observe_all_derived.
    + by rewrite observe_all_held.
    + unfold NetMonitor.derive. by rewrite steady_time_positive.
Qed.

Lemma X28_guard_exact_witness :
  gt0 (Utils.SteadyTimeSecond 1 0) = true ∧
  ∃ h' mi',
    NetMonitor.UpdateOnce {[ NetMonitor.path := net_once ]} clock_5s
      {[ "eth0" := eth0_before ]} proto.empty = Ok (h', mi') ∧
    NetMonitor.rates eth0_now eth0_before (Utils.SteadyTimeSecond 5000000000 0)
      ∈ proto.net_info mi'.
Proof.
  split.
  - apply (proj1 X28_guard_exact 1 0). vm_compute. reflexivity.
  - destruct (NetMonitor.UpdateOnce {[ NetMonitor.path := net_once ]} clock_5s
                {[ "eth0" := eth0_before ]} proto.empty) as [[h' mi']| |] eqn:Hrun;
      [|vm_compute in Hrun; discriminate Hrun ..].
    exists h', mi'. split; [reflexivity|].
    destruct (proj2 (proj2 X28_guard_exact) _ _ _ _ _ _ Hrun) as (ss & l & Hss & -> & Hl).
    assert (ss = [("eth0", eth0_now)]) as ->.
    { vm_compute in Hss. injection Hss as <-. reflexivity. }
    apply (Hl [] "eth0" eth0_now [] eth0_before).
    + reflexivity.
    + reflexivity.
    + vm_compute. reflexivity.
Defined.

(** ** A counter that did not increase *)

Lemma SFdiv_nonpositive (prec emax : Z) (x y : spec_float) :
  gt0 x = false → gt0 y = true → gt0 (SFdiv prec emax x y) = false.
Proof.
  destruct x as [sx|[]| |[] mx ex], y as [sy|[]| |[] my ey]; try done.
  intros _ _. unfold SFdiv.
  destruct (SFdiv_core_binary _ _ _ _ _ _) as [[mq eq] lq].
  apply gt0_negative_sign.
Qed.

Lemma of_Z_nonpositive (prec emax : Z) (d : Z) :
  d ≤ 0 → gt0 (binary_normalize prec emax d 0 false) = false.
Proof.
  intros Hd. destruct d as [|p|p]; [done|lia|].
  unfold binary_normalize, binary_round.
  destruct (shl_align _ _ _) as [mz ez]. apply gt0_negative_sign.
Qed.

(** ** The magnitude of a rounded number *)

Lemma Zdigits2_upper (m k : Z) : 0 < m → m < 2 ^ k → Zdigits2 m ≤ k.
Proof.
  intros Hm Hk. destruct (Zdigits2_bounds m Hm) as [Hlow _].
  destruct (Z.lt_ge_cases k 0) as [Hneg|Hk0].
  { rewrite Z.pow_neg_r in Hk by done. lia. }
  destruct (Z.le_gt_cases (Zdigits2 m) k) as [|Hgt]; [done|].
  pose proof (Z.pow_le_mono_r 2 k (Zdigits2 m - 1) ltac:(lia) ltac:(lia)). lia.
Qed.

(** Shifting a positive mantissa to its format exponent, above the
    smallest subnormal number: the magnitude is kept, and the exponent is
    the larger of the given one and the format's. *)
Lemma shr_fexp_magnitude (prec emax : Z) (mx ex : Z) (l : location) :
  0 < prec → 0 < mx → emin prec emax < Zdigits2 mx + ex →
  0 < shr_m (shr_fexp prec emax mx ex l).1 ∧
  Zdigits2 (shr_m (shr_fexp prec emax mx ex l).1) + (shr_fexp prec emax mx ex l).2
    = Zdigits2 mx + ex ∧
  (shr_fexp prec emax mx ex l).2 = Z.max ex (fexp prec emax (Zdigits2 mx + ex)).
Proof.
  intros Hprec Hmx Hmin. unfold shr_fexp, shr.
  destruct (fexp prec emax (Zdigits2 mx + ex) - ex) as [|p|p] eqn:En; simpl;
    rewrite ?shr_m_of_loc; try (split; [done|]; split; [done|lia]).
  rewrite iter_shr_1_m by (rewrite shr_m_of_loc; lia). rewrite shr_m_of_loc.
  assert (Z.pos p < Zdigits2 mx) as Hp by (unfold fexp in En; lia).
  destruct (Zdigits2_bounds mx Hmx) as [Hlow Hup].
  assert (0 < 2 ^ Z.pos p) as Hpow by (apply Z.pow_pos_nonneg; lia).
  assert (2 ^ Z.pos p ≤ mx) as Hle.
  { etrans; [|exact Hlow]. apply Z.pow_le_mono_r; lia. }
  assert (0 < mx / 2 ^ Z.pos p) as Hq by (apply Z.div_str_pos; lia).
  split; [done|]. split; [|lia].
  assert (Zdigits2 mx - 1 - Z.pos p < Zdigits2 (mx / 2 ^ Z.pos p)) as Hlo.
  { apply Zdigits2_lower; [done|].
    apply Z.div_le_lower_bound; [done|].
    rewrite <- Z.pow_add_r by lia.
    replace (Z.pos p + (Zdigits2 mx - 1 - Z.pos p)) with (Zdigits2 mx - 1) by lia. done. }
  assert (Zdigits2 (mx / 2 ^ Z.pos p) ≤ Zdigits2 mx - Z.pos p) as Hhi.
  { apply Zdigits2_upper; [done|].
    apply Z.div_lt_upper_bound; [done|].
    rewrite <- Z.pow_add_r by lia.
    replace (Z.pos p + (Zdigits2 mx - Z.pos p)) with (Zdigits2 mx) by lia. done. }
  lia.
Qed.

(** Rounding a positive mantissa whose magnitude is within the range of
    the format gives a finite number of the given sign, of the same
    magnitude or one above. *)
Lemma binary_round_aux_finite (prec emax : Z) (sx : bool) (mx ex : Z) (l : location) :
  0 < prec → 1 < emax → 0 < mx →
  emin prec emax < Zdigits2 mx + ex → ex ≤ emax - prec → Zdigits2 mx + ex < emax →
  ∃ m e, binary_round_aux prec emax sx mx ex l = S754_finite sx m e ∧
         Zdigits2 mx + ex ≤ Zdigits2 (Z.pos m) + e ≤ Zdigits2 mx + ex + 1.
Proof.
  intros Hprec Hemax Hmx Hmin Hex Hmag. unfold binary_round_aux.
  destruct (shr_fexp_magnitude prec emax mx ex l Hprec Hmx Hmin) as (Hm1 & Hd1 & He1).
  destruct (shr_fexp prec emax mx ex l) as [mrs' e']. simpl in Hm1, Hd1, He1.
  pose proof (round_nearest_even_ge (shr_m mrs') (loc_of_shr_record mrs')) as Hr.
  set (m2 := round_nearest_even (shr_m mrs') (loc_of_shr_record mrs')) in *.
  assert (Zdigits2 (shr_m mrs') ≤ Zdigits2 m2) as Hd2 by (apply Zdigits2_mono; lia).
  assert (Zdigits2 m2 ≤ Zdigits2 (shr_m mrs') + 1) as Hd2'.
  { apply Zdigits2_upper; [lia|].
    destruct (Zdigits2_bounds (shr_m mrs') Hm1) as [_ Hup].
    pose proof (Zdigits2_pos (shr_m mrs') Hm1).
    rewrite Z.pow_add_r by lia. lia. }
  destruct (shr_fexp_magnitude prec emax m2 e' loc_Exact Hprec ltac:(lia) ltac:(lia))
    as (Hm3 & Hd3 & He3).
  destruct (shr_fexp prec emax m2 e' loc_Exact) as [mrs'' e'']. simpl in Hm3, Hd3, He3.
  destruct (shr_m mrs'') as [|m|m] eqn:Em; [lia| |lia].
  assert (e'' ≤ emax - prec) as Hfin by (unfold fexp, emin in *; lia).
  apply Z.leb_le in Hfin. rewrite Hfin.
  exists m, e''. split; [done|]. lia.
Qed.

(** The float of an integer that is not zero is finite, has the sign
    of the integer and its number of binary digits as magnitude, or one
    more. *)
Lemma of_Z_finite (prec emax : Z) (s : bool) (d : positive) :
  0 < prec → prec ≤ emax → 1 < emax → Z.pos (digits2_pos d) < emax →
  ∃ m e, binary_normalize prec emax (cond_Zopp s (Z.pos d)) 0 false = S754_finite s m e ∧
         Z.pos (digits2_pos d) ≤ Zdigits2 (Z.pos m) + e ≤ Z.pos (digits2_pos d) + 1.
Proof.
  intros Hprec Hle Hemax Hd.
  assert (binary_normalize prec emax (cond_Zopp s (Z.pos d)) 0 false =
          binary_round prec emax s d 0) as -> by by destruct s.
  unfold binary_round.
  assert (∃ mz ez, shl_align d 0 (fexp prec emax (Z.pos (digits2_pos d) + 0)) = (mz, ez)
                   ∧ Zdigits2 (Z.pos mz) + ez = Z.pos (digits2_pos d) ∧ ez ≤ 0)
    as (mz & ez & -> & Hmag & Hez).
  { unfold shl_align.
    destruct (fexp prec emax (Z.pos (digits2_pos d) + 0) - 0) as [|k|k] eqn:Ek.
    - eexists _, _. split; [done|]. simpl. lia.
    - eexists _, _. split; [done|]. simpl. lia.
    - eexists _, _. split; [done|]. simpl. rewrite digits2_pos_iter_xO.
      unfold fexp in *. lia. }
  destruct (binary_round_aux_finite prec emax s (Z.pos mz) ez loc_Exact Hprec Hemax)
    as (m & e & Hfin & Hbounds); [lia| |lia|lia|].
  - unfold emin. lia.
  - exists m, e. split; [done|]. lia.
Qed.

(** The quotient of two finite floats, when it is within the range of
    the format: finite, of the sign of the quotient, and of a magnitude
    that is the difference of the magnitudes, up to two. *)
Lemma SFdiv_finite (prec emax : Z) (s1 s2 : bool) (m1 m2 : positive) (e1 e2 : Z) :
  0 < prec → 1 < emax →
  emin prec emax + prec ≤ (Zdigits2 (Z.pos m1) + e1) - (Zdigits2 (Z.pos m2) + e2) →
  (Zdigits2 (Z.pos m1) + e1) - (Zdigits2 (Z.pos m2) + e2) + 1 < emax →
  ∃ m e, SFdiv prec emax (S754_finite s1 m1 e1) (S754_finite s2 m2 e2)
           = S754_finite (xorb s1 s2) m e ∧
         (Zdigits2 (Z.pos m1) + e1) - (Zdigits2 (Z.pos m2) + e2)
           ≤ Zdigits2 (Z.pos m) + e
           ≤ (Zdigits2 (Z.pos m1) + e1) - (Zdigits2 (Z.pos m2) + e2) + 2.
Proof.
  intros Hprec Hemax Hnormal Hrange. unfold SFdiv, SFdiv_core_binary.
  set (d1 := Zdigits2 (Z.pos m1)) in *. set (d2 := Zdigits2 (Z.pos m2)) in *.
  set (e' := Z.min (fexp prec emax (d1 + e1 - (d2 + e2))) (e1 - e2)).
  set (s := e1 - e2 - e').
  assert (e' ≤ d1 + e1 - (d2 + e2) - prec) as He' by (unfold e', fexp; lia).
  assert (0 ≤ s) as Hs by (unfold s, e'; lia).
  set (m' := match s with Z.pos _ => Z.shiftl (Z.pos m1) s | 0 => Z.pos m1 | _ => 0 end).
  assert (m' = Z.pos m1 * 2 ^ s) as Hm'.
  { unfold m'. destruct s as [|k|k] eqn:Es; [lia| |lia].
    by rewrite Z.shiftl_mul_pow2. }
  destruct (Zdigits2_bounds (Z.pos m1) ltac:(lia)) as [Hlow1 Hup1].
  destruct (Zdigits2_bounds (Z.pos m2) ltac:(lia)) as [Hlow2 Hup2].
  fold d1 in Hlow1, Hup1. fold d2 in Hlow2, Hup2.
  assert (0 < d1) as Hd1 by (apply Zdigits2_pos; lia).
  assert (0 < d2) as Hd2 by (apply Zdigits2_pos; lia).
  assert (0 < 2 ^ s) as Hpows by (apply Z.pow_pos_nonneg; lia).
  assert (0 < 2 ^ (d2 - 1)) as Hpow2 by (apply Z.pow_pos_nonneg; lia).
  assert (2 ^ (d1 - 1 + s - d2) * Z.pos m2 ≤ m') as Hbound.
  { rewrite Hm'. etrans.
    - apply Z.mul_le_mono_nonneg_l; [apply Z.pow_nonneg; lia|].
      apply Z.lt_le_incl, Hup2.
    - rewrite <- Z.pow_add_r by lia.
      replace (d1 - 1 + s - d2 + d2) with (d1 - 1 + s) by lia.
      rewrite Z.pow_add_r by lia. apply Z.mul_le_mono_nonneg_r; [|done].
      apply Z.pow_nonneg; lia. }
  assert (m' < 2 ^ (d1 + s - d2 + 1) * Z.pos m2) as Hbound'.
  { rewrite Hm'.
    assert (Z.pos m1 * 2 ^ s < 2 ^ d1 * 2 ^ s) as H1
      by (apply Z.mul_lt_mono_pos_r; [done | exact Hup1]).
    assert (2 ^ d1 * 2 ^ s = 2 ^ (d1 + s - d2 + 1) * 2 ^ (d2 - 1)) as H2.
    { rewrite <- !Z.pow_add_r by lia. f_equal. lia. }
    assert (2 ^ (d1 + s - d2 + 1) * 2 ^ (d2 - 1) ≤ 2 ^ (d1 + s - d2 + 1) * Z.pos m2) as H3
      by (apply Z.mul_le_mono_nonneg_l; [apply Z.pow_nonneg; lia | done]).
    lia. }
  pose proof (Z.div_eucl_eq m' (Z.pos m2) ltac:(lia)) as Heucl.
  pose proof (Z.mod_pos_bound m' (Z.pos m2) ltac:(lia)) as Hmod.
  unfold Z.modulo in Hmod.
  assert (2 ^ (d1 - 1 + s - d2) ≤ m' / Z.pos m2) as Hq.
  { apply Z.div_le_lower_bound; lia. }
  assert (m' / Z.pos m2 < 2 ^ (d1 + s - d2 + 1)) as Hq'.
  { apply Z.div_lt_upper_bound; lia. }
  unfold Z.div in Hq, Hq'.
  destruct (Z.div_eucl m' (Z.pos m2)) as [q r]. simpl in Hq, Hq', Hmod.
  assert (0 < 2 ^ (d1 - 1 + s - d2)) as Hpow by (apply Z.pow_pos_nonneg; lia).
  pose proof (Zdigits2_lower q (d1 - 1 + s - d2) ltac:(lia) Hq) as Hdq.
  pose proof (Zdigits2_upper q (d1 + s - d2 + 1) ltac:(lia) Hq') as Hdq'.
  destruct (binary_round_aux_finite prec emax (xorb s1 s2) q e'
              (new_location (Z.pos m2) r) Hprec Hemax)
    as (m & e & Hfin & Hbounds); [lia| | | |].
  - unfold s in *. lia.
  - lia.
  - unfold s in *. lia.
  - exists m, e. split; [done|]. unfold s in *. lia.
Qed.

Lemma wrap64_range (z : Z) : - 2 ^ 63 ≤ wrap64 z < 2 ^ 63.
Proof.
  unfold wrap64. pose proof (Z.mod_pos_bound (z + 2 ^ 63) (2 ^ 64) ltac:(lia)). lia.
Qed.

(** An integer of 64 bits has at most 64 binary digits. *)
Lemma digits2_pos_int64 (d : positive) : Z.pos d ≤ 2 ^ 63 → Z.pos (digits2_pos d) ≤ 64.
Proof.
  intros Hd. change (Z.pos (digits2_pos d)) with (Zdigits2 (Z.pos d)).
  apply Zdigits2_upper; lia.
Qed.

(** The float of a 64-bit integer that is not zero. *)
Lemma F64_of_Z_finite (s : bool) (d : positive) :
  Z.pos d ≤ 2 ^ 63 →
  ∃ m e, F64.of_Z (cond_Zopp s (Z.pos d)) = S754_finite s m e ∧
         1 ≤ Zdigits2 (Z.pos m) + e ≤ 65.
Proof.
  intros Hd. pose proof (digits2_pos_int64 d Hd) as H64.
  destruct (of_Z_finite F64.prec F64.emax s d) as (m & e & Hfin & Hb);
    [done | done | done | change F64.emax with 1024; lia |].
  exists m, e. split; [exact Hfin|]. lia.
Qed.

(** The elapsed time between two time stamps that advance is a finite
    positive number of seconds, between 2^-30 and 2^36. *)
Lemma steady_time_finite (t1 t2 : Z) :
  0 < sub64 t1 t2 →
  ∃ m e, Utils.SteadyTimeSecond t1 t2 = S754_finite false m e ∧
         -29 ≤ Zdigits2 (Z.pos m) + e ≤ 37.
Proof.
  intros Hlt. unfold Utils.SteadyTimeSecond.
  assert (F64.of_Z 1000000000 = S754_finite false 8388608000000000 (-23)) as ->
    by (vm_compute; reflexivity).
  pose proof (wrap64_range (t1 - t2)) as Hrange. fold (sub64 t1 t2) in Hrange.
  destruct (sub64 t1 t2) as [|d|d]; [lia| |lia].
  destruct (F64_of_Z_finite false d ltac:(lia)) as (m & e & Hfin & Hb).
  simpl cond_Zopp in Hfin. rewrite Hfin.
  destruct (SFdiv_finite F64.prec F64.emax false false m 8388608000000000 e (-23))
    as (mq & eq & Hq & Hbq); [done | done | | |].
  - change (Zdigits2 8388608000000000) with 53.
    change (emin F64.prec F64.emax) with (-1074). change F64.prec with 53. lia.
  - change (Zdigits2 8388608000000000) with 53. change F64.emax with 1024. lia.
  - exists mq, eq. split; [exact Hq|].
    change (Zdigits2 8388608000000000) with 53 in Hbq. lia.
Qed.

(** A 64-bit difference that is not zero, divided by a finite positive
    period of a magnitude between [lo] and [hi]: a finite number of the
    sign of the difference. *)
Lemma rate_finite (s : bool) (d mp : positive) (ep : Z) :
  Z.pos d ≤ 2 ^ 63 → -900 ≤ Zdigits2 (Z.pos mp) + ep ≤ 900 →
  ∃ m e, F64.div (F64.of_Z (cond_Zopp s (Z.pos d))) (S754_finite false mp ep)
           = S754_finite s m e ∧
         - (Zdigits2 (Z.pos mp) + ep) ≤ Zdigits2 (Z.pos m) + e
           ≤ 68 - (Zdigits2 (Z.pos mp) + ep).
Proof.
  intros Hd Hp.
  destruct (F64_of_Z_finite s d Hd) as (m & e & -> & Hb).
  destruct (SFdiv_finite F64.prec F64.emax s false m mp e ep)
    as (mq & eq & Hq & Hbq); [done | done | | |].
  - change (emin F64.prec F64.emax) with (-1074). change F64.prec with 53. lia.
  - change F64.emax with 1024. lia.
  - exists mq, eq. rewrite xorb_false_r in Hq. split; [exact Hq|]. lia.
Qed.

(** ** First observation of an entity: the records of the call *)

Section observe_first.
Context {V Msg : Type}.
Variable derive : V → V → option Msg.

(** The messages of the samples [ss] depend on the history only through
    the entries of the entities that [ss] names. *)
Lemma observe_all_agree (ss : list (string * V)) (h1 h2 : gmap string V)
    (out : list Msg) :
  (∀ k, k ∈ ss.*1 → h1 !! k = h2 !! k) →
  (History.observe_all derive ss (h1, out)).2 =
  (History.observe_all derive ss (h2, out)).2.
Proof.
  revert h1 h2 out. induction ss as [|[k v] ss IH]; intros h1 h2 out Hagree; [done|].
  simpl. unfold History.observe. simpl.
  rewrite (Hagree k) by (simpl; apply list_elem_of_here).
  apply IH. intros k' Hk'. destruct (decide (k' = k)) as [->|Hne].
  - by rewrite !lookup_insert_eq.
  - rewrite !lookup_insert_ne by done. apply Hagree. simpl. by apply list_elem_of_further.
Qed.

(** A sample of an entity that the history does not hold, and that no
    other sample of the call names, adds nothing: the messages are
    those of the call without that sample. *)
Lemma observe_all_skip_first_seen (pre post : list (string * V)) (e : string) (v : V)
    (h : gmap string V) :
  h !! e = None → e ∉ pre.*1 → e ∉ post.*1 →
  (History.observe_all derive (pre ++ (e, v) :: post) (h, [])).2 =
  (History.observe_all derive (pre ++ post) (h, [])).2.
Proof.
  intros Hh Hpre Hpost. rewrite !observe_all_app. simpl.
  pose proof (observe_all_lookup derive pre (h, []) e Hpre) as Hlook. simpl in Hlook.
  destruct (History.observe_all derive pre (h, [])) as [h1 out1]. simpl in Hlook.
  unfold History.observe. simpl. rewrite Hlook, Hh. simpl. rewrite app_nil_r.
  apply observe_all_agree. intros k Hk.
  apply lookup_insert_ne. by intros ->.
Qed.

End observe_first.

(** C1. For the CPU-time, softirq and network samplers, on a source that
    lists the entity once (the kernel lists each CPU and each interface
    once): when the entity has no entry in the history as the call starts,
    a call that returns adds to the snapshot exactly the records of the
    call that would not have observed that entity at all, each derived
    from the sample of another entity and from that entity's older
    sample, so none from the first observation; the softirq and the
    network records carry the name of that other entity.  After the
    call the history holds the raw sample just observed. *)
Theorem C1_first_observation :
  (∀ stof fs h mi h' mi' e v pre post,
     CpuStatMonitor.UpdateOnce stof fs h mi = Ok (h', mi') →
     h !! e = None →
     CpuStatMonitor.all_samples stof fs = Ok (pre ++ (e, v) :: post) →
     e ∉ pre.*1 → e ∉ post.*1 →
     ∃ l, mi' = proto.append_cpu_stat l mi ∧
       l = (History.observe_all CpuStatMonitor.derive (pre ++ post) (h, [])).2 ∧
       (length l ≤ length pre + length post)%nat ∧
       (∀ msg, msg ∈ l →
          ∃ pre' e' cur post' old,
            pre ++ (e, v) :: post = pre' ++ (e', cur) :: post' ∧ e' ≠ e ∧
            History.held pre' h !! e' = Some old ∧
            CpuStatMonitor.derive cur old = Some msg ∧
            proto.CpuStat.cpu_name msg ≠ e) ∧
       h' !! e = Some v) ∧
  (∀ fs now h mi h' mi' e v pre post,
     CpuSoftIrqMonitor.UpdateOnce fs now h mi = Ok (h', mi') →
     h !! e = None →
     CpuSoftIrqMonitor.all_samples fs now = Ok (pre ++ (e, v) :: post) →
     e ∉ pre.*1 → e ∉ post.*1 →
     ∃ l, mi' = proto.append_soft_irq l mi ∧
       l = (History.observe_all CpuSoftIrqMonitor.derive (pre ++ post) (h, [])).2 ∧
       (length l ≤ length pre + length post)%nat ∧
       (∀ msg, msg ∈ l →
          ∃ pre' e' cur post' old,
            pre ++ (e, v) :: post = pre' ++ (e', cur) :: post' ∧ e' ≠ e ∧
            History.held pre' h !! e' = Some old ∧
            CpuSoftIrqMonitor.derive cur old = Some msg ∧
            proto.SoftIrq.cpu msg = e') ∧
       h' !! e = Some v) ∧
  (∀ fs now h mi h' mi' e v pre post,
     NetMonitor.UpdateOnce fs now h mi = Ok (h', mi') →
     h !! e = None →
     NetMonitor.all_samples fs now = Ok (pre ++ (e, v) :: post) →
     e ∉ pre.*1 → e ∉ post.*1 →
     ∃ l, mi' = proto.append_net_info l mi ∧
       l = (History.observe_all NetMonitor.derive (pre ++ post) (h, [])).2 ∧
       (length l ≤ length pre + length post)%nat ∧
       (∀ msg, msg ∈ l →
          ∃ pre' e' cur post' old,
            pre ++ (e, v) :: post = pre' ++ (e', cur) :: post' ∧ e' ≠ e ∧
            History.held pre' h !! e' = Some old ∧
            NetMonitor.derive cur old = Some msg ∧
            proto.NetInfo.name msg = e') ∧
       h' !! e = Some v).
Proof.
  assert (Hprov : ∀ (V Msg : Type) (derive : V → V → option Msg) pre post e v
                    (h : gmap string V) msg,
            h !! e = None → e ∉ pre.*1 → e ∉ post.*1 →
            msg ∈ (History.observe_all derive (pre ++ (e, v) :: post) (h, [])).2 →
            ∃ pre' e' cur post' old,
              pre ++ (e, v) :: post = pre' ++ (e', cur) :: post' ∧ e' ≠ e ∧
              History.held pre' h !! e' = Some old ∧ derive cur old = Some msg).
  { intros V Msg derive pre post e v h msg Hh Hpre Hpost Hin.
    apply observe_all_provenance in Hin
      as (pre' & e' & cur & post' & old & Heq & Hold & Hd).
    rewrite observe_all_held in Hold. simpl in Hold.
    exists pre', e', cur, post', old. split; [done|]. split; [|done].
    intros ->. apply unique_key_split in Heq as ->; [|done..].
    rewrite held_lookup_other in Hold by done. congruence. }
  split; [|split].
  - intros stof fs h mi h' mi' e v pre post H Hh Hs Hpre Hpost.
    rewrite cpu_UpdateOnce_samples, Hs in H. simpl in H. injection H as <- <-.
    eexists. split; [done|].
    split; [by apply observe_all_skip_first_seen|].
    split.
    { rewrite observe_all_skip_first_seen by done.
      etrans; [apply observe_all_length|]. by rewrite length_app. }
    split; [|by apply observe_all_last].
    intros msg Hin.
    destruct (Hprov _ _ _ _ _ _ _ _ _ Hh Hpre Hpost Hin)
      as (pre' & e' & cur & post' & old & Heq & Hne & Hold & Hd).
    exists pre', e', cur, post', old. repeat (split; [done|]).
    pose proof (cpu_samples_name _ _ _ Hs) as Hnames.
    rewrite list.Forall_forall in Hnames.
    destruct (Hnames (e', cur)) as [Hn _].
    { rewrite Heq. apply elem_of_middle. }
    destruct (Hnames (e, v) (elem_of_middle pre post (e, v)))
      as [_ Hc%str_contains_nonempty].
    simpl in Hn, Hc.
    unfold CpuStatMonitor.derive in Hd. injection Hd as <-.
    destruct (gt0 _); simpl; congruence.
  - intros fs now h mi h' mi' e v pre post H Hh Hs Hpre Hpost.
    rewrite softirq_UpdateOnce_samples, Hs in H. simpl in H. injection H as <- <-.
    eexists. split; [done|].
    split; [by apply observe_all_skip_first_seen|].
    split.
    { rewrite observe_all_skip_first_seen by done.
      etrans; [apply observe_all_length|]. by rewrite length_app. }
    split; [|by apply observe_all_last].
    intros msg Hin.
    destruct (Hprov _ _ _ _ _ _ _ _ _ Hh Hpre Hpost Hin)
      as (pre' & e' & cur & post' & old & Heq & Hne & Hold & Hd).
    exists pre', e', cur, post', old. repeat (split; [done|]).
    unfold CpuSoftIrqMonitor.all_samples in Hs. inv_bind Hs.
    destruct a as [|tok header]; [done|].
    pose proof (softirq_samples_name _ _ _ _ _ Hs) as Hnames.
    rewrite list.Forall_forall in Hnames.
    specialize (Hnames (e', cur)). simpl in Hnames.
    apply softirq_derive_name in Hd as [_ ->]. simpl. apply Hnames.
    rewrite Heq. apply elem_of_middle.
  - intros fs now h mi h' mi' e v pre post H Hh Hs Hpre Hpost.
    rewrite net_UpdateOnce_samples, Hs in H. simpl in H. injection H as <- <-.
    eexists. split; [done|].
    split; [by apply observe_all_skip_first_seen|].
    split.
    { rewrite observe_all_skip_first_seen by done.
      etrans; [apply observe_all_length|]. by rewrite length_app. }
    split; [|by apply observe_all_last].
    intros msg Hin.
    destruct (Hprov _ _ _ _ _ _ _ _ _ Hh Hpre Hpost Hin)
      as (pre' & e' & cur & post' & old & Heq & Hne & Hold & Hd).
    exists pre', e', cur, post', old. repeat (split; [done|]).
    pose proof (net_samples_name _ _ _ _ Hs) as Hnames.
    rewrite list.Forall_forall in Hnames.
    specialize (Hnames (e', cur)). simpl in Hnames.
    apply net_derive_name in Hd as [_ ->]. simpl. apply Hnames.
    rewrite Heq. apply elem_of_middle.
Qed.

(** C1 on sources that list [cpu0], [CPU0] and [eth0] once, from empty
    histories: nothing is added for them, and their samples are held. *)
Lemma C1_first_observation_witness :
  (∃ h' mi' v,
     CpuStatMonitor.UpdateOnce stof_plain {[ CpuStatMonitor.path := stat_cpu0 ]}
       ∅ proto.empty = Ok (h', mi') ∧
     mi' = proto.append_cpu_stat [] proto.empty ∧ h' !! "cpu0" = Some v) ∧
  (∃ h' mi' v l,
     CpuSoftIrqMonitor.UpdateOnce {[ CpuSoftIrqMonitor.path := softirq_padded ]}
       clock_us ∅ proto.empty = Ok (h', mi') ∧
     mi' = proto.append_soft_irq l proto.empty ∧ (length l ≤ 1)%nat ∧
     h' !! "CPU0" = Some v) ∧
  (∃ h' mi' v,
     NetMonitor.UpdateOnce {[ NetMonitor.path := net_once ]} clock_us ∅ proto.empty
       = Ok (h', mi') ∧
     mi' = proto.append_net_info [] proto.empty ∧ h' !! "eth0" = Some v).
Proof.
  destruct C1_first_observation as (Hcpu & Hsoftirq & Hnet).
  split; [|split].
  - destruct (CpuStatMonitor.UpdateOnce stof_plain {[ CpuStatMonitor.path := stat_cpu0 ]}
                ∅ proto.empty) as [[h' mi']| |] eqn:Hrun;
      [|vm_compute in Hrun; discriminate Hrun ..].
    destruct (Hcpu _ _ _ _ _ _ "cpu0" cpu0_before [] [] Hrun)
      as (l & Hmi & Hl & _ & _ & Hh).
    + reflexivity.
    + vm_compute; reflexivity.
    + apply not_elem_of_nil.
    + apply not_elem_of_nil.
    + exists h', mi', cpu0_before. split; [reflexivity|]. split; [|exact Hh].
      simpl in Hl. by rewrite Hl in Hmi.
  - destruct (CpuSoftIrqMonitor.UpdateOnce
                {[ CpuSoftIrqMonitor.path := softirq_padded ]} clock_us ∅ proto.empty)
      as [[h' mi']| |] eqn:Hrun; [|vm_compute in Hrun; discriminate Hrun ..].
    destruct (Hsoftirq _ _ _ _ _ _ "CPU0"
                (CpuSoftIrqMonitor.mkSoftIrq "CPU0" 1 1100 5 7 9 11 13 15 17 19 0) []
                [("CPU1", CpuSoftIrqMonitor.mkSoftIrq "CPU1" 2 4 6 8 10 12 14 16 18 20 1000)]
                Hrun)
      as (l & Hmi & _ & Hlen & _ & Hh).
    + reflexivity.
    + vm_compute; reflexivity.
    + apply not_elem_of_nil.
    + simpl. intros [Heq|Hin]%elem_of_cons; [discriminate | by apply elem_of_nil in Hin].
    + eexists h', mi', _, l. split; [reflexivity|]. split; [exact Hmi|].
      split; [exact Hlen | exact Hh].
  - destruct (NetMonitor.UpdateOnce {[ NetMonitor.path := net_once ]} clock_us ∅
                proto.empty) as [[h' mi']| |] eqn:Hrun;
      [|vm_compute in Hrun; discriminate Hrun ..].
    destruct (Hnet _ _ _ _ _ _ "eth0"
                (NetMonitor.mkNetInfo "eth0" 1100 11 0 0 2200 22 0 0 2000) [] [] Hrun)
      as (l & Hmi & Hl & _ & _ & Hh).
    + reflexivity.
    + vm_compute; reflexivity.
    + apply not_elem_of_nil.
    + apply not_elem_of_nil.
    + eexists h', mi', _. split; [reflexivity|]. split; [|exact Hh].
      simpl in Hl. by rewrite Hl in Hmi.
Defined.

(** ** Rates, per second of elapsed time *)

(** C3. Rate correctness, for the softirq and the network samplers.  A
    sample [cur] taken over an older sample [old] of the same entity
    yields a record exactly when the elapsed time, the 64-bit difference
    of the two time stamps in nanoseconds, is positive; the elapsed time
    in seconds is that difference divided by 1e9, it is then positive
    too, and each rate of the record is (current counter - previous
    counter) / elapsed seconds, the two byte rates of the network being
    first divided by 1024.  The counter difference is the one the code
    computes, in 64 bits ([sub64_exact]).  Whenever a call returns, the
    records it adds are exactly those of the samples it observed while
    the history held an older sample of the same entity, each sample
    carrying the name of its entity.  Counters 100 and then 1100 five
    seconds later give 200 per second. *)
Theorem C3_rate_correctness :
  (∀ cur old msg,
     CpuSoftIrqMonitor.derive cur old = Some msg ↔
     let elapsed := sub64 (CpuSoftIrqMonitor.timepoint cur)
                          (CpuSoftIrqMonitor.timepoint old) in
     let period := F64.div (F64.of_Z elapsed) (F64.of_Z 1000000000) in
     let rate := λ (c p : Z), F64.div (F64.of_Z (sub64 c p)) period in
     0 < elapsed ∧ gt0 period = true ∧
     msg = proto.SoftIrq.mk (CpuSoftIrqMonitor.cpu_name cur)
             (rate (CpuSoftIrqMonitor.hi cur) (CpuSoftIrqMonitor.hi old))
             (rate (CpuSoftIrqMonitor.timer cur) (CpuSoftIrqMonitor.timer old))
             (rate (CpuSoftIrqMonitor.net_tx cur) (CpuSoftIrqMonitor.net_tx old))
             (rate (CpuSoftIrqMonitor.net_rx cur) (CpuSoftIrqMonitor.net_rx old))
             (rate (CpuSoftIrqMonitor.block cur) (CpuSoftIrqMonitor.block old))
             (rate (CpuSoftIrqMonitor.irq_poll cur) (CpuSoftIrqMonitor.irq_poll old))
             (rate (CpuSoftIrqMonitor.tasklet cur) (CpuSoftIrqMonitor.tasklet old))
             (rate (CpuSoftIrqMonitor.sched cur) (CpuSoftIrqMonitor.sched old))
             (rate (CpuSoftIrqMonitor.hrtimer cur) (CpuSoftIrqMonitor.hrtimer old))
             (rate (CpuSoftIrqMonitor.rcu cur) (CpuSoftIrqMonitor.rcu old))) ∧
  (∀ cur old msg,
     NetMonitor.derive cur old = Some msg ↔
     let elapsed := sub64 (NetMonitor.timepoint cur) (NetMonitor.timepoint old) in
     let period := F64.div (F64.of_Z elapsed) (F64.of_Z 1000000000) in
     let rate := λ (c p : Z), F64.div (F64.of_Z (sub64 c p)) period in
     let kb_rate := λ (c p : Z),
       F64.div (F64.div (F64.of_Z (sub64 c p)) (F64.of_Z 1024)) period in
     0 < elapsed ∧ gt0 period = true ∧
     msg = proto.NetInfo.mk (NetMonitor.name cur)
             (kb_rate (NetMonitor.snd_bytes cur) (NetMonitor.snd_bytes old))
             (kb_rate (NetMonitor.rcv_bytes cur) (NetMonitor.rcv_bytes old))
             (rate (NetMonitor.snd_packets cur) (NetMonitor.snd_packets old))
             (rate (NetMonitor.rcv_packets cur) (NetMonitor.rcv_packets old))) ∧
  (∀ fs now h mi h' mi',
     CpuSoftIrqMonitor.UpdateOnce fs now h mi = Ok (h', mi') →
     ∃ ss l,
       CpuSoftIrqMonitor.all_samples fs now = Ok ss ∧
       mi' = proto.append_soft_irq l mi ∧
       Forall (λ kv, CpuSoftIrqMonitor.cpu_name kv.2 = kv.1) ss ∧
       ∀ msg, msg ∈ l ↔
         ∃ pre e cur post old,
           ss = pre ++ (e, cur) :: post ∧ History.held pre h !! e = Some old ∧
           CpuSoftIrqMonitor.derive cur old = Some msg) ∧
  (∀ fs now h mi h' mi',
     NetMonitor.UpdateOnce fs now h mi = Ok (h', mi') →
     ∃ ss l,
       NetMonitor.all_samples fs now = Ok ss ∧
       mi' = proto.append_net_info l mi ∧
       Forall (λ kv, NetMonitor.name kv.2 = kv.1) ss ∧
       ∀ msg, msg ∈ l ↔
         ∃ pre e cur post old,
           ss = pre ++ (e, cur) :: post ∧ History.held pre h !! e = Some old ∧
           NetMonitor.derive cur old = Some msg) ∧
  (∀ t0,
     F64.div (F64.of_Z (sub64 1100 100))
       (F64.div (F64.of_Z (sub64 (t0 + 5000000000) t0)) (F64.of_Z 1000000000))
     = F64.of_Z 200).
Proof.
  assert (Hguard : ∀ t1 t2,
            gt0 (F64.div (F64.of_Z (sub64 t1 t2)) (F64.of_Z 1000000000)) = true ↔
            0 < sub64 t1 t2).
  { intros t1 t2. split; [|apply steady_time_positive].
    intros Hgt. destruct (Z.lt_ge_cases 0 (sub64 t1 t2)) as [|Hle]; [done|].
    apply steady_time_nonpositive in Hle. unfold Utils.SteadyTimeSecond in Hle.
    congruence. }
  split; [|split; [|split; [|split]]].
  - intros cur old msg. unfold CpuSoftIrqMonitor.derive, Utils.SteadyTimeSecond.
    cbv zeta. split.
    + destruct (gt0 _) eqn:Hgt; [|done]. intros [= <-].
      split; [by apply Hguard|]. split; [done|]. reflexivity.
    + intros (Hlt & Hgt & ->). rewrite Hgt. reflexivity.
  - intros cur old msg. unfold NetMonitor.derive, Utils.SteadyTimeSecond.
    cbv zeta. split.
    + destruct (gt0 _) eqn:Hgt; [|done]. intros [= <-].
      split; [by apply Hguard|]. split; [done|]. reflexivity.
    + intros (Hlt & Hgt & ->). rewrite Hgt. reflexivity.
  - intros fs now h mi h' mi' H.
    rewrite softirq_UpdateOnce_samples in H. inv_bind H.
    simpl in H. injection H as <- <-. rename a into ss.
    exists ss, (History.observe_all CpuSoftIrqMonitor.derive ss (h, [])).2.
    split; [done|]. split; [done|]. split.
    + unfold CpuSoftIrqMonitor.all_samples in Ha. inv_bind Ha.
      destruct a as [|tok header]; [done|].
      by eapply softirq_samples_name.
    + intros msg. split.
      * intros (pre & e & cur & post & old & -> & Hold & Hd)%observe_all_provenance.
        rewrite observe_all_held in Hold. by exists pre, e, cur, post, old.
      * intros (pre & e & cur & post & old & -> & Hold & Hd).
        eapply observe_all_derived; [|done]. by rewrite observe_all_held.
  - intros fs now h mi h' mi' H.
    rewrite net_UpdateOnce_samples in H. inv_bind H.
    simpl in H. injection H as <- <-. rename a into ss.
    exists ss, (History.observe_all NetMonitor.derive ss (h, [])).2.
    split; [done|]. split; [done|]. split.
    + by eapply net_samples_name.
    + intros msg. split.
      * intros (pre & e & cur & post & old & -> & Hold & Hd)%observe_all_provenance.
        rewrite observe_all_held in Hold. by exists pre, e, cur, post, old.
      * intros (pre & e & cur & post & old & -> & Hold & Hd).
        eapply observe_all_derived; [|done]. by rewrite observe_all_held.
  - intros t0. unfold sub64.
    replace (t0 + 5000000000 - t0) with 5000000000 by lia.
    vm_compute. reflexivity.
Qed.

(** C3 on [net_once], read five seconds after the history's sample of
    [eth0]: 10 more packets received, 2 per second. *)
Lemma C3_rate_correctness_witness :
  ∃ h' mi' msg,
    NetMonitor.UpdateOnce {[ NetMonitor.path := net_once ]} clock_5s
      {[ "eth0" := eth0_before ]} proto.empty = Ok (h', mi') ∧
    msg ∈ proto.net_info mi' ∧
    proto.NetInfo.name msg = "eth0" ∧
    proto.NetInfo.rcv_packets_rate msg = F64.of_Z 2.
Proof.
  destruct C3_rate_correctness as (_ & Hnet & _ & Hrun & _).
  destruct (NetMonitor.UpdateOnce {[ NetMonitor.path := net_once ]} clock_5s
              {[ "eth0" := eth0_before ]} proto.empty) as [[h' mi']| |] eqn:Hcall;
    [|vm_compute in Hcall; discriminate Hcall ..].
  destruct (Hrun _ _ _ _ _ _ Hcall) as (ss & l & Hss & Hmi & _ & Hl).
  assert (ss = [("eth0", eth0_now)]) as ->.
  { vm_compute in Hss. injection Hss as <-. reflexivity. }
  set (msg := proto.NetInfo.mk "eth0" (F64.div (F64.of_Z 2000) (F64.of_Z 5120))
                (F64.div (F64.of_Z 1000) (F64.of_Z 5120)) (F64.of_Z 4) (F64.of_Z 2)).
  assert (NetMonitor.derive eth0_now eth0_before = Some msg) as Hd.
  { apply (proj2 (Hnet eth0_now eth0_before msg)).
    split; [vm_compute; reflexivity|]. split; vm_compute; reflexivity. }
  exists h', mi', msg. split; [reflexivity|]. split; [|split; reflexivity].
  rewrite Hmi. simpl. apply (proj2 (Hl msg)).
  exists [], "eth0", eth0_now, [], eth0_before. by repeat split.
Defined.

(** ** CPU percentages, and the record of a sample without a positive
    total delta *)

(** C4.  A sample [cur] of the CPU-time sampler taken over an older
    sample [old] of the same entity always yields a record.  When the
    total delta is positive the record carries the entity's name and
    each component percentage is (delta of the component / total delta)
    x 100, as claimed; the total delta is the difference of the two
    totals, each the sum of exactly user, system, idle, nice, iowait,
    irq, softirq and steal: guest and guest_nice do not enter it.  When
    the total delta is not positive the record is the blank one, added
    before the guard was tested: its percentages are 0, not the
    quotients.  Whenever a call returns, the records it adds are exactly
    those of the samples it observed while the history held an older
    sample of the same entity.  A total delta of 1000 with a user delta of
    300 gives 30 plus one unit in the last place of a float; on the two
    samples of [cpu0] that show it, the difference of the totals is the
    sum of the eight component deltas.  On [stat_cpu0_iowait], read over
    the sample of [stat_cpu0], the iowait delta and the total delta are
    both -10: the quotient x 100 is 100, and the record added for [cpu0]
    carries 0. *)
Theorem C4_cpu_percentages :
  (∀ cur old msg,
     CpuStatMonitor.derive cur old = Some msg ↔
     let total := F32.sub (CpuStatMonitor.cpu_total_time cur)
                          (CpuStatMonitor.cpu_total_time old) in
     let pct := λ (c p : F32.t),
       float_of_double
         (F64.mul (double_of_float (F32.div (F32.sub c p) total)) (F64.of_Z 100)) in
     (gt0 total = true ∧
      msg = proto.CpuStat.mk (CpuStatMonitor.cpu_name cur)
              (pct (CpuStatMonitor.cpu_busy_time cur) (CpuStatMonitor.cpu_busy_time old))
              (pct (CpuStatMonitor.user cur) (CpuStatMonitor.user old))
              (pct (CpuStatMonitor.system cur) (CpuStatMonitor.system old))
              (pct (CpuStatMonitor.nice cur) (CpuStatMonitor.nice old))
              (pct (CpuStatMonitor.idle cur) (CpuStatMonitor.idle old))
              (pct (CpuStatMonitor.io_wait cur) (CpuStatMonitor.io_wait old))
              (pct (CpuStatMonitor.irq cur) (CpuStatMonitor.irq old))
              (pct (CpuStatMonitor.soft_irq cur) (CpuStatMonitor.soft_irq old))) ∨
     (gt0 total = false ∧
      msg = proto.CpuStat.mk EmptyString (S754_zero false) (S754_zero false)
              (S754_zero false) (S754_zero false) (S754_zero false) (S754_zero false)
              (S754_zero false) (S754_zero false))) ∧
  (∀ stof fs h mi h' mi',
     CpuStatMonitor.UpdateOnce stof fs h mi = Ok (h', mi') →
     ∃ ss l,
       CpuStatMonitor.all_samples stof fs = Ok ss ∧
       mi' = proto.append_cpu_stat l mi ∧
       Forall (λ kv, CpuStatMonitor.cpu_name kv.2 = kv.1) ss ∧
       ∀ msg, msg ∈ l ↔
         ∃ pre e cur post old,
           ss = pre ++ (e, cur) :: post ∧ History.held pre h !! e = Some old ∧
           CpuStatMonitor.derive cur old = Some msg) ∧
  (∀ name user system idle nice io_wait irq soft_irq steal guest guest_nice,
     CpuStatMonitor.cpu_total_time
       (CpuStatMonitor.mkCpuStat name user system idle nice io_wait irq soft_irq
          steal guest guest_nice) =
     F32.add (F32.add (F32.add (F32.add (F32.add (F32.add (F32.add
       user system) idle) nice) io_wait) irq) soft_irq) steal) ∧
  (∀ cur old total,
     F32.sub cur old = F32.of_Z 300 → total = F32.of_Z 1000 →
     float_of_double
       (F64.mul (double_of_float (F32.div (F32.sub cur old) total)) (F64.of_Z 100))
       = S754_finite false 15728641 (-19) ∧
     F32.of_Z 30 = S754_finite false 15728640 (-19)) ∧
  (let delta := λ (f : CpuStatMonitor.CpuStat → F32.t),
     F32.sub (f cpu0_later) (f cpu0_before) in
   F32.sub (CpuStatMonitor.cpu_total_time cpu0_later)
           (CpuStatMonitor.cpu_total_time cpu0_before) = F32.of_Z 1000 ∧
   F32.add (F32.add (F32.add (F32.add (F32.add (F32.add (F32.add
     (delta CpuStatMonitor.user) (delta CpuStatMonitor.system))
     (delta CpuStatMonitor.idle)) (delta CpuStatMonitor.nice))
     (delta CpuStatMonitor.io_wait)) (delta CpuStatMonitor.irq))
     (delta CpuStatMonitor.soft_irq)) (delta CpuStatMonitor.steal) = F32.of_Z 1000 ∧
   delta CpuStatMonitor.user = F32.of_Z 300) ∧
  (CpuStatMonitor.all_samples stof_plain {[ CpuStatMonitor.path := stat_cpu0_iowait ]}
     = Ok [("cpu0", cpu0_iowait)] ∧
   F32.sub (CpuStatMonitor.io_wait cpu0_iowait) (CpuStatMonitor.io_wait cpu0_before)
     = F32.of_Z (-10) ∧
   F32.sub (CpuStatMonitor.cpu_total_time cpu0_iowait)
           (CpuStatMonitor.cpu_total_time cpu0_before) = F32.of_Z (-10) ∧
   float_of_double
     (F64.mul (double_of_float (F32.div (F32.of_Z (-10)) (F32.of_Z (-10)))) (F64.of_Z 100))
     = F32.of_Z 100 ∧
   ∃ msg,
     CpuStatMonitor.UpdateOnce stof_plain {[ CpuStatMonitor.path := stat_cpu0_iowait ]}
       {[ "cpu0" := cpu0_before ]} proto.empty
       = Ok ({[ "cpu0" := cpu0_iowait ]}, proto.add_cpu_stat msg proto.empty) ∧
     proto.CpuStat.cpu_name msg = EmptyString ∧
     proto.CpuStat.io_wait_percent msg = F32.of_Z 0 ∧
     proto.CpuStat.io_wait_percent msg ≠ F32.of_Z 100).
Proof.
  split; [|split; [|split; [|split; [|split]]]].
  - intros cur old msg. unfold CpuStatMonitor.derive, CpuStatMonitor.total_time_diff.
    cbv zeta. split.
    + intros [= <-]. destruct (gt0 _) eqn:Hgt; [left | right]; by split.
    + intros [[Hgt ->] | [Hgt ->]]; by rewrite Hgt.
  - intros stof fs h mi h' mi' H.
    rewrite cpu_UpdateOnce_samples in H. inv_bind H.
    simpl in H. injection H as <- <-. rename a into ss.
    exists ss, (History.observe_all CpuStatMonitor.derive ss (h, [])).2.
    split; [done|]. split; [done|]. split.
    + eapply Forall_impl; [by eapply cpu_samples_name|]. by intros kv [? _].
    + intros msg. split.
      * intros (pre & e & cur & post & old & -> & Hold & Hd)%observe_all_provenance.
        rewrite observe_all_held in Hold. by exists pre, e, cur, post, old.
      * intros (pre & e & cur & post & old & -> & Hold & Hd).
        eapply observe_all_derived; [|done]. by rewrite observe_all_held.
  - reflexivity.
  - intros cur old total Hd ->. rewrite Hd. split; vm_compute; reflexivity.
  - cbv zeta. repeat split; vm_compute; reflexivity.
  - split; [vm_compute; reflexivity|]. split; [vm_compute; reflexivity|].
    split; [vm_compute; reflexivity|]. split; [vm_compute; reflexivity|].
    exists proto.CpuStat.default. split; [vm_compute; reflexivity|].
    split; [reflexivity|]. split; [reflexivity|]. vm_compute. discriminate.
Qed.

(** C4 on [stat_cpu0_later], read over the sample of [stat_cpu0]: a total
    delta of 1000 jiffies, 300 of them in user mode. *)
Lemma C4_cpu_percentages_witness :
  ∃ h' mi' msg,
    CpuStatMonitor.UpdateOnce stof_plain {[ CpuStatMonitor.path := stat_cpu0_later ]}
      {[ "cpu0" := cpu0_before ]} proto.empty = Ok (h', mi') ∧
    msg ∈ proto.cpu_stat mi' ∧
    proto.CpuStat.cpu_name msg = "cpu0" ∧
    proto.CpuStat.usr_percent msg = S754_finite false 15728641 (-19).
Proof.
  destruct C4_cpu_percentages as (Hderive & Hrun & _ & Hex & _ & _).
  destruct (CpuStatMonitor.UpdateOnce stof_plain
              {[ CpuStatMonitor.path := stat_cpu0_later ]}
              {[ "cpu0" := cpu0_before ]} proto.empty) as [[h' mi']| |] eqn:Hcall;
    [|vm_compute in Hcall; discriminate Hcall ..].
  destruct (Hrun _ _ _ _ _ _ Hcall) as (ss & l & Hss & Hmi & _ & Hl).
  assert (ss = [("cpu0", cpu0_later)]) as ->.
  { vm_compute in Hss. injection Hss as <-. reflexivity. }
  destruct (CpuStatMonitor.derive cpu0_later cpu0_before) as [msg|] eqn:Hd;
    [|discriminate Hd].
  exists h', mi', msg. split; [reflexivity|]. split.
  - rewrite Hmi. simpl. apply (proj2 (Hl msg)).
    exists [], "cpu0", cpu0_later, [], cpu0_before. by repeat split.
  - apply (proj1 (Hderive _ _ _)) in Hd. cbv zeta in Hd.
    destruct Hd as [[_ ->] | [Hgt _]]; [|vm_compute in Hgt; discriminate Hgt].
    split; [reflexivity|]. cbn [proto.CpuStat.usr_percent].
    apply (Hex (CpuStatMonitor.user cpu0_later) (CpuStatMonitor.user cpu0_before)).
    + vm_compute; reflexivity.
    + vm_compute; reflexivity.
Defined.

(** ** The columns of the softirq source, on the header that the kernel
    prints *)

Lemma append_empty_inv (a b : string) :
  a +:+ b = EmptyString → a = EmptyString ∧ b = EmptyString.
Proof. by destruct a. Qed.

(** The tokens of a line made of words and gaps. *)
Lemma split_ws_items (lead : string) (items : list (string * string)) :
  all_space lead = true →
  Forall (λ wg, is_word wg.1 ∧ all_space wg.2 = true) items →
  separated items →
  ReadFile.split_ws None (lead +:+ join items) =
    items.*1 ++ (if ends_in_word items then [] else [EmptyString]).
Proof.
  intros Hlead Hitems Hsep. rewrite split_ws_gap by done. clear lead Hlead.
  induction Hitems as [|[w g] items [Hw Hg] Hitems IH]; [done|].
  cbn [join fmap list_fmap fst app]. simpl in Hw, Hg.
  rewrite split_ws_at_word by done.
  destruct items as [|[w' g'] items].
  - simpl. rewrite append_empty_r. unfold ends_in_word. simpl.
    destruct g as [|c g]; [done|].
    rewrite <- (append_empty_r (String c g)).
    by rewrite split_ws_end_word.
  - destruct Hsep as [Hne Hsep].
    rewrite split_ws_end_word by done.
    rewrite IH by done. f_equal.
Qed.

(** The first record of a source whose first line is made of words, the
    last one followed by white space: the words, then an empty token. *)
Lemma ReadAll_padded_header (lead rest : string) (items : list (string * string)) :
  all_space lead = true →
  Forall (λ wg, is_word wg.1 ∧ all_space wg.2 = true) items →
  separated items → items ≠ [] → ends_in_word items = false →
  newline_free (lead +:+ join items) →
  ReadFile.ReadAll (Some ((lead +:+ join items) +:+ nl +:+ rest)) !! 0%nat =
    Some (items.*1 ++ [EmptyString]).
Proof.
  intros Hlead Hitems Hsep Hne Hend Hnl. simpl.
  rewrite records_from_getline, (getline_line _ _ Hnl).
  destruct (ReadFile.is_empty (lead +:+ join items)) eqn:Hempty.
  - exfalso. destruct (lead +:+ join items) eqn:E; [|done].
    apply append_empty_inv in E as [_ E].
    destruct items as [|[w g] items]; [done|].
    apply Forall_cons in Hitems as [[[Hw _] _] _]. simpl in E, Hw.
    by apply append_empty_inv in E as [E _].
  - simpl. by rewrite split_ws_items, Hend.
Qed.

(** C7. On every source whose header row ends with white space after
    the last CPU name, as the kernel prints it (each name is padded on
    its right), the softirq sampler leaves out no CPU column: the reader
    yields the CPU names followed by one empty token, which is all that
    the loop bound [size() - 1] leaves out.  A call returns exactly when
    each of the ten interrupt-class rows holds a counter in the column of
    each CPU; it then builds one sample per CPU name of the header, in
    the order of the header, keyed by that name, stamped with the clock
    reading of its column and holding the ten counters found in that
    CPU's column of the rows 1 to 10 (the first token of a row is the
    name of the interrupt class); the history then holds an entry for
    every CPU of the header, the sample just built when the name is not
    listed again. *)
Theorem C7_softirq_column_coverage (fs : gmap string string) (now : nat → Z)
    (h : gmap string CpuSoftIrqMonitor.SoftIrq) (mi : proto.MonitorInfo)
    (lead rest : string) (items : list (string * string)) :
  let softirq := ReadFile.ReadAll (ReadFile.open fs CpuSoftIrqMonitor.path) in
  fs !! CpuSoftIrqMonitor.path = Some ((lead +:+ join items) +:+ nl +:+ rest) →
  all_space lead = true →
  Forall (λ wg, is_word wg.1 ∧ all_space wg.2 = true) items →
  separated items → items ≠ [] → ends_in_word items = false →
  newline_free (lead +:+ join items) →
  softirq !! 0%nat = Some (items.*1 ++ [EmptyString]) ∧
  (returns (CpuSoftIrqMonitor.UpdateOnce fs now h mi) ↔
   ∀ i r, (i < length items)%nat → (1 ≤ r ≤ 10)%nat →
          returns (CpuSoftIrqMonitor.cell softirq r (i + 1))) ∧
  (∀ h' mi',
     CpuSoftIrqMonitor.UpdateOnce fs now h mi = Ok (h', mi') →
     ∃ ss,
       CpuSoftIrqMonitor.all_samples fs now = Ok ss ∧
       ss.*1 = items.*1 ∧
       dom h' = dom h ∪ list_to_set items.*1 ∧
       ∀ i name, items.*1 !! i = Some name →
         ∃ v, ss !! i = Some (name, v) ∧
           CpuSoftIrqMonitor.cpu_name v = name ∧
           CpuSoftIrqMonitor.timepoint v = now i ∧
           CpuSoftIrqMonitor.cell softirq 1 (i + 1) = Ok (CpuSoftIrqMonitor.hi v) ∧
           CpuSoftIrqMonitor.cell softirq 2 (i + 1) = Ok (CpuSoftIrqMonitor.timer v) ∧
           CpuSoftIrqMonitor.cell softirq 3 (i + 1) = Ok (CpuSoftIrqMonitor.net_tx v) ∧
           CpuSoftIrqMonitor.cell softirq 4 (i + 1) = Ok (CpuSoftIrqMonitor.net_rx v) ∧
           CpuSoftIrqMonitor.cell softirq 5 (i + 1) = Ok (CpuSoftIrqMonitor.block v) ∧
           CpuSoftIrqMonitor.cell softirq 6 (i + 1) = Ok (CpuSoftIrqMonitor.irq_poll v) ∧
           CpuSoftIrqMonitor.cell softirq 7 (i + 1) = Ok (CpuSoftIrqMonitor.tasklet v) ∧
           CpuSoftIrqMonitor.cell softirq 8 (i + 1) = Ok (CpuSoftIrqMonitor.sched v) ∧
           CpuSoftIrqMonitor.cell softirq 9 (i + 1) = Ok (CpuSoftIrqMonitor.hrtimer v) ∧
           CpuSoftIrqMonitor.cell softirq 10 (i + 1) = Ok (CpuSoftIrqMonitor.rcu v) ∧
           (name ∉ drop (S i) items.*1 → h' !! name = Some v)).
Proof.
  intros softirq Hfs Hlead Hitems Hsep Hne Hend Hnl.
  assert (softirq !! 0%nat = Some (items.*1 ++ [EmptyString])) as Hh.
  { unfold softirq, ReadFile.open. rewrite Hfs. by apply ReadAll_padded_header. }
  assert (length (items.*1 ++ [EmptyString]) - 1 = length items)%nat as Hlen.
  { rewrite length_app, length_fmap. simpl. lia. }
  assert (∃ name0 t, items.*1 ++ [EmptyString] = name0 :: t) as (name0 & t & Hcons).
  { destruct items as [|[w g] items]; [done|]. by eexists _, _. }
  assert (CpuSoftIrqMonitor.all_samples fs now =
          CpuSoftIrqMonitor.samples now softirq 0 (length items)) as Hall.
  { unfold CpuSoftIrqMonitor.all_samples. fold softirq.
    apply vec_at_Ok in Hh. rewrite Hh. simpl. rewrite <- Hlen, Hcons. done. }
  split; [exact Hh|]. split.
  - rewrite softirq_UpdateOnce_samples, Hall.
    transitivity (returns (CpuSoftIrqMonitor.samples now softirq 0 (length items))).
    { destruct (CpuSoftIrqMonitor.samples now softirq 0 (length items)) as [ss| |]; simpl.
      - split; intros _; apply returns_Ok.
      - split; by intros ?%not_returns_Throw.
      - split; by intros ?%not_returns_Undefined. }
    rewrite softirq_samples_returns. split.
    + intros H i r Hi Hr. specialize (H i Hi). simpl in H.
      apply (proj1 (softirq_sample_of_returns _ _ i (now i) Hh
                      ltac:(rewrite length_app, length_fmap; simpl; lia))); done.
    + intros H j Hj. simpl.
      apply (proj2 (softirq_sample_of_returns _ _ j (now j) Hh
                      ltac:(rewrite length_app, length_fmap; simpl; lia))).
      intros r Hr. by apply H.
  - intros h' mi'. rewrite softirq_UpdateOnce_samples, Hall.
    intros H. apply obind_Ok in H as (ss & Hss & [= <- _]).
    assert (ss.*1 = items.*1) as Hkeys.
    { rewrite (softirq_samples_keys _ _ _ _ _ _ Hh Hss), drop_0.
      rewrite <- (length_fmap fst items). by rewrite take_app_length. }
    exists ss. split; [done|]. split; [done|]. split.
    { rewrite observe_all_held. simpl. by rewrite held_dom, Hkeys. }
    intros i name Hi.
    assert (i < length items)%nat as Hlt.
    { apply lookup_lt_Some in Hi. by rewrite length_fmap in Hi. }
    destruct (softirq_samples_lookup _ _ _ _ _ Hss i Hlt) as ([e' v] & Hkv & Hsample).
    simpl in Hsample.
    destruct (softirq_sample_of_name _ _ _ _ _ Hsample)
      as (Hname & Htime & _ & header' & Hh' & He').
    assert (e' = name) as ->.
    { assert (header' = items.*1 ++ [EmptyString]) as -> by congruence.
      rewrite lookup_app_l in He' by (rewrite length_fmap; lia). congruence. }
    exists v. split; [done|]. split; [done|]. split; [done|].
    pose proof (softirq_sample_cells _ _ _ _ _ Hsample)
      as (? & ? & ? & ? & ? & ? & ? & ? & ? & ?).
    repeat (split; [done|]).
    intros Hlater. rewrite observe_all_held. simpl.
    rewrite <- (take_drop_middle ss i (name, v) Hkv).
    apply held_lookup_last. by rewrite fmap_drop, Hkeys.
Qed.

(** C7 on [softirq_padded]: both CPUs of the header are sampled, [CPU1]
    from the second counter of each row. *)
Lemma C7_softirq_column_coverage_witness :
  ∃ h' mi' ss v0 v1,
    CpuSoftIrqMonitor.UpdateOnce {[ CpuSoftIrqMonitor.path := softirq_padded ]}
      clock_us ∅ proto.empty = Ok (h', mi') ∧
    CpuSoftIrqMonitor.all_samples {[ CpuSoftIrqMonitor.path := softirq_padded ]} clock_us
      = Ok ss ∧
    ss.*1 = ["CPU0"; "CPU1"] ∧
    h' !! "CPU0" = Some v0 ∧ h' !! "CPU1" = Some v1 ∧
    CpuSoftIrqMonitor.hi v1 = 2 ∧ CpuSoftIrqMonitor.rcu v1 = 20.
Proof.
  destruct (C7_softirq_column_coverage
              {[ CpuSoftIrqMonitor.path := softirq_padded ]} clock_us ∅ proto.empty
              "                    " (text softirq_rows)
              [("CPU0", "       "); ("CPU1", "       ")])
    as (_ & _ & Hcols).
  - reflexivity.
  - reflexivity.
  - repeat constructor; done.
  - repeat split; done.
  - done.
  - reflexivity.
  - reflexivity.
  - destruct (CpuSoftIrqMonitor.UpdateOnce
                {[ CpuSoftIrqMonitor.path := softirq_padded ]} clock_us ∅ proto.empty)
      as [[h' mi']| |] eqn:Hrun; [|vm_compute in Hrun; discriminate Hrun ..].
    destruct (Hcols h' mi' eq_refl) as (ss & Hss & Hkeys & _ & Hcol).
    destruct (Hcol 0%nat "CPU0" eq_refl) as (v0 & _ & _ & _ & _ & _ & _ & _ & _ & _ & _
                                             & _ & _ & _ & Hv0).
    destruct (Hcol 1%nat "CPU1" eq_refl) as (v1 & _ & _ & _ & Hhi & _ & _ & _ & _ & _ & _
                                             & _ & _ & Hrcu & Hv1).
    exists h', mi', ss, v0, v1. split; [reflexivity|]. split; [exact Hss|].
    split; [exact Hkeys|]. split.
    { apply Hv0. simpl. intros [Heq|Hin]%elem_of_cons; [discriminate|].
      by apply elem_of_nil in Hin. }
    split; [apply Hv1; simpl; apply not_elem_of_nil|].
    vm_compute in Hhi. injection Hhi as Hhi.
    vm_compute in Hrcu. injection Hrcu as Hrcu.
    split; symmetry; assumption.
Defined.

(** ** The interface filter of the network sampler, on the names that the
    kernel prints *)

Lemma snoc_inv (n n' : string) (c : ascii) :
  n +:+ String c EmptyString = n' +:+ String c EmptyString → n = n'.
Proof.
  intros H. apply (f_equal drop_last) in H. by rewrite !drop_last_snoc in H.
Qed.

(** C8. For every record read from the network source whose first token
    holds no [':'] before its last character (the kernel allows no [':']
    in the name of an interface): the record is treated as an interface
    exactly when its first token ends with [':'] and the record has at
    least 10 fields.  Whatever the first token: a record that is not
    treated as an interface leaves the history and the snapshot as they
    are; a record that is treated as one has a first token that ends
    with [':'], and it is parsed, stored in the history and reported
    under that token without the trailing [':']. *)
Theorem C8_interface_filter (ifs_ : ReadFile.ifstream) (r : list string) (now : Z)
    (st : gmap string NetMonitor.NetInfo * proto.MonitorInfo) :
  r ∈ ReadFile.ReadAll ifs_ →
  ∃ name0, r !! 0%nat = Some name0 ∧
    (find_index colon (drop_last name0) = None →
     (NetMonitor.is_interface name0 r = true ↔
      (∃ n, name0 = n +:+ String colon EmptyString) ∧ (10 ≤ length r)%nat)) ∧
    (NetMonitor.is_interface name0 r = false → NetMonitor.line now r st = Ok st) ∧
    (NetMonitor.is_interface name0 r = true →
     ∃ n, name0 = n +:+ String colon EmptyString ∧
       NetMonitor.line now r st =
         (info <- NetMonitor.parse n r now ;;
          Ok (<[n := info]> st.1, NetMonitor.emit st.1 n info st.2)) ∧
       ∀ info, NetMonitor.parse n r now = Ok info → NetMonitor.name info = n).
Proof.
  intros Hr. destruct (ReadAll_first _ _ Hr) as (h & t & -> & Hh).
  exists h. split; [done|].
  assert (NetMonitor.is_interface h (h :: t) = true →
          ∃ n, h = n +:+ String colon EmptyString ∧ find_index colon n = None) as Hacc.
  { unfold NetMonitor.is_interface. rewrite andb_true_iff, Z.leb_le.
    destruct (decide (h = EmptyString)) as [->|Hne].
    - rewrite (Hh eq_refl). simpl. lia.
    - rewrite first_colon_is_last_iff by done. by intros [? _]. }
  split; [|split].
  - intros Hinner. unfold NetMonitor.is_interface. rewrite andb_true_iff, Z.leb_le.
    destruct (decide (h = EmptyString)) as [->|Hne].
    + rewrite (Hh eq_refl). simpl. split; [lia|].
      intros [(n & Hn) _]. by destruct n.
    + rewrite first_colon_is_last_iff by done. simpl. split.
      * intros [(n & -> & _) ?]. split; [by exists n | lia].
      * intros [(n & ->) ?]. split; [|lia]. exists n. split; [done|].
        by rewrite drop_last_snoc in Hinner.
  - destruct st as [hist mi]. intros Hi. unfold NetMonitor.line. simpl. by rewrite Hi.
  - intros Hi. destruct (Hacc Hi) as (n & -> & Hn). exists n. split; [done|]. split.
    + destruct st as [hist mi]. unfold NetMonitor.line. simpl.
      by rewrite Hi, pop_back_snoc.
    + intros info Hp. unfold NetMonitor.parse in Hp. inv_bind Hp. by injection Hp as <-.
Qed.

(** C8 on the [eth0] record of [net_once]. *)
Lemma C8_interface_filter_witness :
  eth0_record ∈ ReadFile.ReadAll (Some net_once) ∧
  NetMonitor.is_interface "eth0:" eth0_record = true ∧
  NetMonitor.line 0 eth0_record (∅, proto.empty) =
    (info <- NetMonitor.parse "eth0" eth0_record 0 ;;
     Ok (<[ "eth0" := info ]> ∅, NetMonitor.emit ∅ "eth0" info proto.empty)).
Proof.
  assert (eth0_record ∈ ReadFile.ReadAll (Some net_once)) as Hin.
  { apply list_elem_of_In. vm_compute. right. right. left. reflexivity. }
  split; [exact Hin|].
  destruct (C8_interface_filter (Some net_once) eth0_record 0 (∅, proto.empty) Hin)
    as (name0 & Hname0 & Hiff & _ & Hacc).
  injection Hname0 as <-.
  assert (NetMonitor.is_interface "eth0:" eth0_record = true) as Hi.
  { apply (proj2 (Hiff eq_refl)). split; [by exists "eth0" | simpl; lia]. }
  split; [exact Hi|].
  destruct (Hacc Hi) as (n & Hn & Hline & _).
  apply (snoc_inv "eth0" n colon) in Hn as <-. exact Hline.
Defined.

(** ** The memory sampler: each gauge and the label that feeds it *)

(** The chain assigns a member for one label only. *)
Lemma member_of_label_inv (label : string) (f : MemMonitor.member) :
  MemMonitor.member_of_label label = Some f →
  label = match f with
          | MemMonitor.m_total => "MemTotal:"
          | MemMonitor.m_free => "MemFree:"
          | MemMonitor.m_avail => "MemAvailable:"
          | MemMonitor.m_buffers => "Buffers:"
          | MemMonitor.m_cached => "Cached:"
          | MemMonitor.m_swap_cached => "SwapCached:"
          | MemMonitor.m_active => "Active:"
          | MemMonitor.m_in_active => "Inactive:"
          | MemMonitor.m_active_anon => "Active(anon):"
          | MemMonitor.m_inactive_anon => "Inactive(anon):"
          | MemMonitor.m_active_file => "Active(file):"
          | MemMonitor.m_inactive_file => "Inactive(file):"
          | MemMonitor.m_dirty => "Dirty:"
          | MemMonitor.m_writeback => "Writeback:"
          | MemMonitor.m_anon_pages => "AnonPages:"
          | MemMonitor.m_mapped => "Mapped:"
          | MemMonitor.m_kReclaimable => "KReclaimable:"
          | MemMonitor.m_sReclaimable => "SReclaimable:"
          | MemMonitor.m_sUnreclaim => "SUnreclaim:"
          end%string.
Proof.
  unfold MemMonitor.member_of_label.
  repeat match goal with
  | |- context [String.eqb label ?s] =>
      destruct (String.eqb_spec label s) as [->|_]; [by intros [= <-]|]
  end.
  done.
Qed.

Lemma member_of_label_inj (label label' : string) (f : MemMonitor.member) :
  MemMonitor.member_of_label label = Some f →
  MemMonitor.member_of_label label' = Some f → label' = label.
Proof. intros H%member_of_label_inv H'%member_of_label_inv. congruence. Qed.

(** The labels of the chain, each with the gauge of the message that the
    member it assigns is reported in. *)
Lemma mem_gauge_of_label (label : string) (gauge : proto.MemInfo.t → spec_float) :
  (label, gauge) ∈
    [("MemTotal:", proto.MemInfo.total); ("MemFree:", proto.MemInfo.free);
     ("MemAvailable:", proto.MemInfo.avail); ("Buffers:", proto.MemInfo.buffers);
     ("Cached:", proto.MemInfo.cached); ("SwapCached:", proto.MemInfo.swap_cached);
     ("Active:", proto.MemInfo.active); ("Inactive:", proto.MemInfo.inactive);
     ("Active(anon):", proto.MemInfo.active_anon);
     ("Inactive(anon):", proto.MemInfo.inactive_anon);
     ("Active(file):", proto.MemInfo.active_file);
     ("Inactive(file):", proto.MemInfo.inactive_file);
     ("Dirty:", proto.MemInfo.dirty); ("Writeback:", proto.MemInfo.writeback);
     ("AnonPages:", proto.MemInfo.anon_pages); ("Mapped:", proto.MemInfo.mapped);
     ("KReclaimable:", proto.MemInfo.kreclaimable);
     ("SReclaimable:", proto.MemInfo.sreclaimable);
     ("SUnreclaim:", proto.MemInfo.sunreclaim)]%string →
  ∃ f, MemMonitor.member_of_label label = Some f ∧
       ∀ msg, gauge msg = MemMonitor.gauge_of f msg.
Proof.
  intros Hin.
  repeat (apply elem_of_cons in Hin as [[= -> ->] | Hin]; [by eexists|]).
  by apply elem_of_nil in Hin.
Qed.

Lemma mem_label_of_member (label : string) (f : MemMonitor.member) :
  MemMonitor.member_of_label label = Some f →
  (label, λ msg, MemMonitor.gauge_of f msg) ∈
    [("MemTotal:", proto.MemInfo.total); ("MemFree:", proto.MemInfo.free);
     ("MemAvailable:", proto.MemInfo.avail); ("Buffers:", proto.MemInfo.buffers);
     ("Cached:", proto.MemInfo.cached); ("SwapCached:", proto.MemInfo.swap_cached);
     ("Active:", proto.MemInfo.active); ("Inactive:", proto.MemInfo.inactive);
     ("Active(anon):", proto.MemInfo.active_anon);
     ("Inactive(anon):", proto.MemInfo.inactive_anon);
     ("Active(file):", proto.MemInfo.active_file);
     ("Inactive(file):", proto.MemInfo.inactive_file);
     ("Dirty:", proto.MemInfo.dirty); ("Writeback:", proto.MemInfo.writeback);
     ("AnonPages:", proto.MemInfo.anon_pages); ("Mapped:", proto.MemInfo.mapped);
     ("KReclaimable:", proto.MemInfo.kreclaimable);
     ("SReclaimable:", proto.MemInfo.sreclaimable);
     ("SUnreclaim:", proto.MemInfo.sunreclaim)]%string.
Proof.
  intros ->%member_of_label_inv. destruct f; in_list.
Qed.

(** The member that a label assigns holds, after the loop, the number of
    the last record that carries the label. *)
Lemma mem_loop_last_label (pre post : list (list string)) (r : list string)
    (label tok : string) (f : MemMonitor.member) (v : Z) (m m' : MemMonitor.MenInfo) :
  MemMonitor.loop (pre ++ r :: post) m = Ok m' →
  MemMonitor.member_of_label label = Some f →
  r !! 0%nat = Some label → r !! 1%nat = Some tok → stoll tok = Ok v →
  Forall (λ r', r' !! 0%nat ≠ Some label) post →
  MemMonitor.get f m' = v.
Proof.
  intros Hloop Hf Hlabel Htok Hv Hpost.
  eapply mem_loop_last; [exact Hloop | | exact Htok | exact Hv |].
  - unfold MemMonitor.assigns. by rewrite Hlabel.
  - eapply Forall_impl; [exact Hpost|]. intros r' Hr' Ha. apply Hr'.
    unfold MemMonitor.assigns in Ha. destruct (r' !! 0%nat) as [label'|]; [|done].
    f_equal. by eapply member_of_label_inj.
Qed.

(** C9. Whenever the memory sampler returns, the snapshot holds a memory
    record in which each of the nineteen gauges is the number of KB
    parsed from the last record of the source that carries the gauge's
    label, divided by 1000 x 1000 as a float, and the used percentage is
    (MemTotal - MemAvailable) x 1.0 / MemTotal x 100 as a double, with
    the numbers parsed from the last [MemTotal:] and [MemAvailable:]
    records ([MemFree:] feeds the gauge of the free memory only).  The
    sampler returns exactly when every record that carries one of the
    nineteen labels has a second token that [stoll] reads; the other
    records are not looked at.  16000000 KB is exactly 16 GB. *)
Theorem C9_memory (fs : gmap string string) (uninit : MemMonitor.MenInfo)
    (mi : proto.MonitorInfo) :
  let records := ReadFile.ReadAll (ReadFile.open fs MemMonitor.path) in
  let gauges : list (string * (proto.MemInfo.t → spec_float)) :=
    [("MemTotal:", proto.MemInfo.total); ("MemFree:", proto.MemInfo.free);
     ("MemAvailable:", proto.MemInfo.avail); ("Buffers:", proto.MemInfo.buffers);
     ("Cached:", proto.MemInfo.cached); ("SwapCached:", proto.MemInfo.swap_cached);
     ("Active:", proto.MemInfo.active); ("Inactive:", proto.MemInfo.inactive);
     ("Active(anon):", proto.MemInfo.active_anon);
     ("Inactive(anon):", proto.MemInfo.inactive_anon);
     ("Active(file):", proto.MemInfo.active_file);
     ("Inactive(file):", proto.MemInfo.inactive_file);
     ("Dirty:", proto.MemInfo.dirty); ("Writeback:", proto.MemInfo.writeback);
     ("AnonPages:", proto.MemInfo.anon_pages); ("Mapped:", proto.MemInfo.mapped);
     ("KReclaimable:", proto.MemInfo.kreclaimable);
     ("SReclaimable:", proto.MemInfo.sreclaimable);
     ("SUnreclaim:", proto.MemInfo.sunreclaim)]%string in
  let parsed := λ (label : string) (v : Z),
    ∃ pre r post tok,
      records = pre ++ r :: post ∧ r !! 0%nat = Some label ∧
      r !! 1%nat = Some tok ∧ stoll tok = Ok v ∧
      Forall (λ r', r' !! 0%nat ≠ Some label) post in
  (∀ mi', MemMonitor.UpdateOnce fs uninit mi = Ok mi' →
     ∃ msg,
       proto.mem_info mi' = Some msg ∧
       (∀ label gauge v, (label, gauge) ∈ gauges → parsed label v →
          gauge msg = F32.div (F32.of_Z v) (F32.of_Z (1000 * 1000))) ∧
       (∀ total avail, parsed "MemTotal:" total → parsed "MemAvailable:" avail →
          proto.MemInfo.used_percent msg =
            F64.mul
              (F64.div (F64.mul (F64.of_Z (sub64 total avail)) (F64.of_Z 1))
                       (F64.of_Z total))
              (F64.of_Z 100))) ∧
  (returns (MemMonitor.UpdateOnce fs uninit mi) ↔
   Forall (λ r, ∀ label gauge, (label, gauge) ∈ gauges → r !! 0%nat = Some label →
                ∃ tok v, r !! 1%nat = Some tok ∧ stoll tok = Ok v) records) ∧
  F32.div (F32.of_Z 16000000) (F32.of_Z (1000 * 1000)) = F32.of_Z 16.
Proof.
  intros records gauges parsed. split; [|split].
  - intros mi' H. unfold MemMonitor.UpdateOnce in H. fold records in H.
    inv_bind H. injection H as <-. rename a into mem_info.
    exists (MemMonitor.fill mem_info). split; [done|].
    assert (Hget : ∀ label f v, MemMonitor.member_of_label label = Some f →
              parsed label v → MemMonitor.get f mem_info = v).
    { intros label f v Hf (pre & r & post & tok & E & Hl & Htok & Hv & Hpost).
      rewrite E in Ha. by eapply mem_loop_last_label. }
    split.
    + intros label gauge v Hin Hp.
      destruct (mem_gauge_of_label label gauge Hin) as (f & Hf & ->).
      rewrite <- (Hget label f v Hf Hp). by destruct f.
    + intros total avail Ht Hav.
      rewrite <- (Hget "MemTotal:" MemMonitor.m_total total eq_refl Ht).
      rewrite <- (Hget "MemAvailable:" MemMonitor.m_avail avail eq_refl Hav).
      reflexivity.
  - unfold MemMonitor.UpdateOnce. fold records.
    assert (Hne : Forall (λ r, r ≠ []) records) by apply ReadAll_nonempty.
    transitivity (returns (MemMonitor.loop records uninit)).
    { destruct (MemMonitor.loop records uninit) as [m| |]; simpl.
      - split; intros _; apply returns_Ok.
      - split; by intros ?%not_returns_Throw.
      - split; by intros ?%not_returns_Undefined. }
    rewrite (mem_loop_returns_iff records uninit Hne).
    rewrite !list.Forall_forall. split.
    + intros H r Hr label gauge Hin Hl.
      destruct (mem_gauge_of_label label gauge Hin) as (f & Hf & _).
      apply (H r Hr f). unfold MemMonitor.assigns. by rewrite Hl.
    + intros H r Hr f Hf. unfold MemMonitor.assigns in Hf.
      destruct (r !! 0%nat) as [label|] eqn:Hl; [|done].
      exact (H r Hr label _ (mem_label_of_member label f Hf) Hl).
  - vm_compute; reflexivity.
Qed.

(** C9 on [meminfo]: 16 GB in total, half of it available, 72 KB dirty. *)
Lemma C9_memory_witness :
  ∃ mi' msg,
    MemMonitor.UpdateOnce {[ MemMonitor.path := meminfo ]} mem_zero proto.empty = Ok mi' ∧
    proto.mem_info mi' = Some msg ∧
    proto.MemInfo.total msg = F32.of_Z 16 ∧
    proto.MemInfo.dirty msg = F32.div (F32.of_Z 72) (F32.of_Z (1000 * 1000)) ∧
    proto.MemInfo.used_percent msg = F64.of_Z 50.
Proof.
  destruct (C9_memory {[ MemMonitor.path := meminfo ]} mem_zero proto.empty)
    as (Hrun & _ & Hex).
  destruct (MemMonitor.UpdateOnce {[ MemMonitor.path := meminfo ]} mem_zero proto.empty)
    as [mi'| |] eqn:Hcall; [|vm_compute in Hcall; discriminate Hcall ..].
  destruct (Hrun mi' eq_refl) as (msg & Hmsg & Hgauge & Hused).
  assert (ReadFile.ReadAll (ReadFile.open {[ MemMonitor.path := meminfo ]}
                              MemMonitor.path)
          = [["MemTotal:"; "16000000"; "kB"]; ["MemFree:"; "3000000"; "kB"];
             ["MemAvailable:"; "8000000"; "kB"]; ["Buffers:"; "298416"; "kB"];
             ["Cached:"; "5940484"; "kB"]; ["SwapTotal:"; "2097148"; "kB"];
             ["Dirty:"; "72"; "kB"]]) as Hrecords.
  { vm_compute; reflexivity. }
  rewrite Hrecords in Hgauge, Hused.
  exists mi', msg. split; [reflexivity|]. split; [exact Hmsg|]. split; [|split].
  - rewrite (Hgauge "MemTotal:" proto.MemInfo.total 16000000); [exact Hex|in_list|].
    exists [], ["MemTotal:"; "16000000"; "kB"], 
      [["MemFree:"; "3000000"; "kB"];
       ["MemAvailable:"; "8000000"; "kB"]; ["Buffers:"; "298416"; "kB"];
       ["Cached:"; "5940484"; "kB"]; ["SwapTotal:"; "2097148"; "kB"];
       ["Dirty:"; "72"; "kB"]], "16000000".
    split; [reflexivity|]. split; [reflexivity|]. split; [reflexivity|].
    split; [vm_compute; reflexivity|]. repeat (constructor; [discriminate|]). constructor.
  - apply (Hgauge "Dirty:" proto.MemInfo.dirty 72); [in_list|].
    exists [["MemTotal:"; "16000000"; "kB"]; ["MemFree:"; "3000000"; "kB"];
            ["MemAvailable:"; "8000000"; "kB"]; ["Buffers:"; "298416"; "kB"];
            ["Cached:"; "5940484"; "kB"]; ["SwapTotal:"; "2097148"; "kB"]],
      ["Dirty:"; "72"; "kB"], [], "72".
    split; [reflexivity|]. split; [reflexivity|]. split; [reflexivity|].
    split; [vm_compute; reflexivity|]. constructor.
  - rewrite (Hused 16000000 8000000); [vm_compute; reflexivity| |].
    + exists [], ["MemTotal:"; "16000000"; "kB"], 
        [["MemFree:"; "3000000"; "kB"];
         ["MemAvailable:"; "8000000"; "kB"]; ["Buffers:"; "298416"; "kB"];
         ["Cached:"; "5940484"; "kB"]; ["SwapTotal:"; "2097148"; "kB"];
         ["Dirty:"; "72"; "kB"]], "16000000".
      split; [reflexivity|]. split; [reflexivity|]. split; [reflexivity|].
      split; [vm_compute; reflexivity|]. repeat (constructor; [discriminate|]). constructor.
    + exists [["MemTotal:"; "16000000"; "kB"]; ["MemFree:"; "3000000"; "kB"]],
        ["MemAvailable:"; "8000000"; "kB"],
        [["Buffers:"; "298416"; "kB"];
         ["Cached:"; "5940484"; "kB"]; ["SwapTotal:"; "2097148"; "kB"];
         ["Dirty:"; "72"; "kB"]], "8000000".
      split; [reflexivity|]. split; [reflexivity|]. split; [reflexivity|].
      split; [vm_compute; reflexivity|]. repeat (constructor; [discriminate|]). constructor.
Defined.

(** ** The CPU-time sampler: the busy share *)

(** X10. Whenever a call of the CPU-time sampler returns, every record
    it adds is the one derived from a sample that the call observed while
    the history held an older sample of the same entity, and when the
    total delta of that sample is positive, the record carries, as its
    overall percentage, (busy delta / total delta) x 100; every sample
    observed over an older one with a positive total delta has such a
    record in the snapshot.  The busy time is the sum of exactly user,
    system, nice, irq, softirq and steal: idle and iowait are not busy
    time, guest and guest_nice are not counted. *)
Theorem X10_cpu_busy_share :
  (∀ stof fs h mi h' mi',
     CpuStatMonitor.UpdateOnce stof fs h mi = Ok (h', mi') →
     ∃ ss l,
       CpuStatMonitor.all_samples stof fs = Ok ss ∧
       mi' = proto.append_cpu_stat l mi ∧
       (∀ msg, msg ∈ l →
          ∃ pre e cur post old,
            ss = pre ++ (e, cur) :: post ∧ History.held pre h !! e = Some old ∧
            CpuStatMonitor.derive cur old = Some msg) ∧
       (∀ pre e cur post old,
          ss = pre ++ (e, cur) :: post → History.held pre h !! e = Some old →
          gt0 (F32.sub (CpuStatMonitor.cpu_total_time cur)
                       (CpuStatMonitor.cpu_total_time old)) = true →
          ∃ msg, msg ∈ l ∧ CpuStatMonitor.derive cur old = Some msg)) ∧
  (∀ cur old msg,
     CpuStatMonitor.derive cur old = Some msg →
     let total := F32.sub (CpuStatMonitor.cpu_total_time cur)
                          (CpuStatMonitor.cpu_total_time old) in
     gt0 total = true →
     proto.CpuStat.cpu_percent msg =
       float_of_double
         (F64.mul
            (double_of_float
               (F32.div (F32.sub (CpuStatMonitor.cpu_busy_time cur)
                                 (CpuStatMonitor.cpu_busy_time old)) total))
            (F64.of_Z 100))) ∧
  (∀ name user system idle nice io_wait irq soft_irq steal guest guest_nice,
     CpuStatMonitor.cpu_busy_time
       (CpuStatMonitor.mkCpuStat name user system idle nice io_wait irq soft_irq
          steal guest guest_nice) =
     F32.add (F32.add (F32.add (F32.add (F32.add user system) nice) irq) soft_irq) steal).
Proof.
  split; [|split; [|done]].
  - intros stof fs h mi h' mi'. rewrite cpu_UpdateOnce_samples.
    destruct (CpuStatMonitor.all_samples stof fs) as [ss| |]; simpl; try done.
    intros [= _ <-]. eexists ss, _. split; [done|]. split; [done|]. split.
    + intros msg (pre & e & cur & post & old & -> & Hold & Hd)%observe_all_provenance.
      rewrite observe_all_held in Hold. by exists pre, e, cur, post, old.
    + intros pre e cur post old -> Hold Hgt.
      exists (CpuStatMonitor.percents cur old).
      assert (CpuStatMonitor.derive cur old = Some (CpuStatMonitor.percents cur old)) as Hd.
      { unfold CpuStatMonitor.derive, CpuStatMonitor.total_time_diff. by rewrite Hgt. }
      split; [|done]. eapply observe_all_derived; [|done]. by rewrite observe_all_held.
  - intros cur old msg Hd total Hgt.
    by rewrite (cpu_derive_percents _ _ _ Hd Hgt).
Qed.

Lemma X10_cpu_busy_share_witness :
  ∃ h' mi' msg,
    CpuStatMonitor.UpdateOnce stof_plain {[ CpuStatMonitor.path := stat_cpu0_later ]}
      {[ "cpu0" := cpu0_before ]} proto.empty = Ok (h', mi') ∧
    msg ∈ proto.cpu_stat mi' ∧
    proto.CpuStat.cpu_percent msg = S754_finite false 15728641 (-19).
Proof.
  destruct X10_cpu_busy_share as (Hrun & Hbusy & _).
  destruct (CpuStatMonitor.UpdateOnce stof_plain
              {[ CpuStatMonitor.path := stat_cpu0_later ]}
              {[ "cpu0" := cpu0_before ]} proto.empty) as [[h' mi']| |] eqn:Hcall;
    [|vm_compute in Hcall; discriminate Hcall ..].
  destruct (Hrun _ _ _ _ _ _ Hcall) as (ss & l & Hss & Hmi & _ & Hl).
  assert (ss = [("cpu0", cpu0_later)]) as ->.
  { vm_compute in Hss. injection Hss as <-. reflexivity. }
  destruct (Hl [] "cpu0" cpu0_later [] cpu0_before eq_refl eq_refl)
    as (msg & Hin & Hd); [vm_compute; reflexivity|].
  exists h', mi', msg. split; [reflexivity|]. split; [by rewrite Hmi|].
  rewrite (Hbusy _ _ _ Hd); vm_compute; reflexivity.
Defined.

(** ** The CPU-time sampler: when a call returns *)

Lemma cpu_parse_returns (stof : string → Outcome F32.t) (r : list string) :
  returns (CpuStatMonitor.parse stof r) ↔
  is_Some (r !! 0%nat) ∧
  ∀ i, i ∈ [1; 2; 3; 4; 5; 6; 7; 8; 9; 10]%nat →
       ∃ tok, r !! i = Some tok ∧ returns (stof tok).
Proof.
  assert (Hfield : ∀ i, returns (CpuStatMonitor.field stof r i) ↔
                        ∃ tok, r !! i = Some tok ∧ returns (stof tok)).
  { intros i. unfold CpuStatMonitor.field. rewrite returns_bind.
    split; intros (tok & Htok & Hv); exists tok; (split; [by apply vec_at_Ok | done]). }
  unfold CpuStatMonitor.parse. split.
  - intros [v Hv]. inv_bind Hv. split; [apply vec_at_Ok in Ha; by eexists|].
    intros i Hi. apply Hfield.
    repeat (apply elem_of_cons in Hi as [-> | Hi]; [eexists; eassumption|]).
    by apply elem_of_nil in Hi.
  - intros [[name Hname%vec_at_Ok] H]. rewrite Hname. simpl.
    destruct (proj2 (Hfield 1%nat)) as [v1 ->]; [apply H; in_list|].
    destruct (proj2 (Hfield 2%nat)) as [v2 ->]; [apply H; in_list|].
    destruct (proj2 (Hfield 3%nat)) as [v3 ->]; [apply H; in_list|].
    destruct (proj2 (Hfield 4%nat)) as [v4 ->]; [apply H; in_list|].
    destruct (proj2 (Hfield 5%nat)) as [v5 ->]; [apply H; in_list|].
    destruct (proj2 (Hfield 6%nat)) as [v6 ->]; [apply H; in_list|].
    destruct (proj2 (Hfield 7%nat)) as [v7 ->]; [apply H; in_list|].
    destruct (proj2 (Hfield 8%nat)) as [v8 ->]; [apply H; in_list|].
    destruct (proj2 (Hfield 9%nat)) as [v9 ->]; [apply H; in_list|].
    destruct (proj2 (Hfield 10%nat)) as [v10 ->]; [apply H; in_list|].
    apply returns_Ok.
Qed.

(** X11. A call of the CPU-time sampler returns exactly when every
    record whose first token holds ["cpu"] carries, at each of the
    positions 1 to 10, a token that [stof] reads: such a record needs at
    least eleven tokens, and what follows the eleventh is not read; the
    other records are skipped, whatever they hold. *)
Theorem X11_cpu_returns (stof : string → Outcome F32.t) (fs : gmap string string)
    (h : gmap string CpuStatMonitor.CpuStat) (mi : proto.MonitorInfo) :
  (returns (CpuStatMonitor.UpdateOnce stof fs h mi) ↔
   Forall (λ r, ∀ name0, r !! 0%nat = Some name0 →
                str_contains CpuStatMonitor.marker name0 = true →
                ∀ i, i ∈ [1; 2; 3; 4; 5; 6; 7; 8; 9; 10]%nat →
                     ∃ tok, r !! i = Some tok ∧ returns (stof tok))
     (ReadFile.ReadAll (ReadFile.open fs CpuStatMonitor.path))) ∧
  (∀ r, returns (CpuStatMonitor.parse stof r) ↔
        is_Some (r !! 0%nat) ∧
        ∀ i, i ∈ [1; 2; 3; 4; 5; 6; 7; 8; 9; 10]%nat →
             ∃ tok, r !! i = Some tok ∧ returns (stof tok)) ∧
  (∀ r, returns (CpuStatMonitor.parse stof r) → (11 ≤ length r)%nat) ∧
  (∀ r extra, (11 ≤ length r)%nat →
     CpuStatMonitor.parse stof (r ++ extra) = CpuStatMonitor.parse stof r) ∧
  (∀ r name0 st, r !! 0%nat = Some name0 →
     str_contains CpuStatMonitor.marker name0 = false →
     CpuStatMonitor.line stof r st = Ok st).
Proof.
  split; [|split; [|split; [|split]]].
  - transitivity
      (Forall (λ r, ∀ name0, r !! 0%nat = Some name0 →
                    str_contains CpuStatMonitor.marker name0 = true →
                    returns (CpuStatMonitor.parse stof r))
         (ReadFile.ReadAll (ReadFile.open fs CpuStatMonitor.path))).
    + rewrite <- cpu_samples_returns by apply ReadAll_nonempty.
      rewrite cpu_UpdateOnce_samples. unfold CpuStatMonitor.all_samples.
      destruct (CpuStatMonitor.samples stof _) as [ss| |]; simpl.
      * split; intros _; apply returns_Ok.
      * split; by intros ?%not_returns_Throw.
      * split; by intros ?%not_returns_Undefined.
    + rewrite !list.Forall_forall. split.
      * intros H r Hr name0 Hn Hm. by apply (cpu_parse_returns stof r), (H r Hr name0).
      * intros H r Hr name0 Hn Hm. apply cpu_parse_returns.
        split; [by eexists | by apply (H r Hr name0)].
  - apply cpu_parse_returns.
  - apply cpu_parse_length.
  - apply cpu_parse_extra.
  - intros r name0 [hh mm] Hr Hm. unfold CpuStatMonitor.line.
    apply vec_at_Ok in Hr. rewrite Hr. simpl. by rewrite Hm.
Qed.

Lemma X11_cpu_returns_witness :
  returns (CpuStatMonitor.UpdateOnce stof_plain {[ CpuStatMonitor.path := stat_cpu0 ]}
             ∅ proto.empty) ∧
  ¬ returns (CpuStatMonitor.UpdateOnce stof_plain
               {[ CpuStatMonitor.path := text ["cpu0 400 10 200"] ]} ∅ proto.empty).
Proof.
  split.
  - apply (proj2 (proj1 (X11_cpu_returns stof_plain {[ CpuStatMonitor.path := stat_cpu0 ]}
                           ∅ proto.empty))).
    assert (ReadFile.ReadAll (ReadFile.open {[ CpuStatMonitor.path := stat_cpu0 ]}
                                CpuStatMonitor.path)
            = [["cpu0"; "400"; "10"; "200"; "1300"; "50"; "20"; "20"; "0"; "0"; "0"]])
      as ->.
    { vm_compute; reflexivity. }
    repeat constructor. intros name0 _ _ i Hi.
    repeat (apply elem_of_cons in Hi as [-> | Hi];
            [eexists; split; [reflexivity|]; eexists; vm_compute; reflexivity|]).
    by apply elem_of_nil in Hi.
  - intros Hret.
    apply (proj1 (proj1 (X11_cpu_returns stof_plain
                           {[ CpuStatMonitor.path := text ["cpu0 400 10 200"] ]}
                           ∅ proto.empty))) in Hret.
    assert (ReadFile.ReadAll (ReadFile.open
              {[ CpuStatMonitor.path := text ["cpu0 400 10 200"] ]} CpuStatMonitor.path)
            = [["cpu0"; "400"; "10"; "200"]]) as E.
    { vm_compute; reflexivity. }
    rewrite E in Hret. apply Forall_cons in Hret as [Hp _].
    destruct (Hp "cpu0" eq_refl eq_refl 4%nat) as (tok & Htok & _); [in_list|].
    discriminate Htok.
Defined.

(** ** The sign of a rate, over the elapsed time of two time stamps *)

(** A 64-bit counter difference per second of a positive elapsed time:
    zero when the counter stood still, otherwise a finite number of the
    sign of the difference; and likewise for a difference that is first
    divided by 1024. *)
Lemma rate_sign (c p t1 t2 : Z) :
  0 < sub64 t1 t2 →
  let period := Utils.SteadyTimeSecond t1 t2 in
  (sub64 c p = 0 →
   F64.div (F64.of_Z (sub64 c p)) period = S754_zero false ∧
   F64.div (F64.div (F64.of_Z (sub64 c p)) (F64.of_Z 1024)) period = S754_zero false) ∧
  (sub64 c p ≠ 0 →
   (∃ m e, F64.div (F64.of_Z (sub64 c p)) period = S754_finite (sub64 c p <? 0) m e) ∧
   (∃ m e, F64.div (F64.div (F64.of_Z (sub64 c p)) (F64.of_Z 1024)) period
           = S754_finite (sub64 c p <? 0) m e)).
Proof.
  intros Hlt period. subst period.
  destruct (steady_time_finite t1 t2 Hlt) as (mp & ep & -> & Hp).
  pose proof (wrap64_range (c - p)) as Hrange. fold (sub64 c p) in Hrange.
  split.
  - intros ->. by split.
  - intros Hne.
    assert (∃ s d, sub64 c p = cond_Zopp s (Z.pos d) ∧ Z.pos d ≤ 2 ^ 63
                   ∧ (sub64 c p <? 0) = s) as (s & d & -> & Hd & ->).
    { destruct (sub64 c p) as [|d|d]; [done| |].
      - exists false, d. split; [done|]. split; [lia|done].
      - exists true, d. split; [done|]. split; [lia|done]. }
    split.
    + destruct (rate_finite s d mp ep Hd ltac:(lia)) as (m & e & H & _). by exists m, e.
    + assert (F64.of_Z 1024 = S754_finite false 4503599627370496 (-42)) as ->
        by (vm_compute; reflexivity).
      destruct (rate_finite s d 4503599627370496 (-42) Hd
                  ltac:(change (Zdigits2 4503599627370496) with 53; lia))
        as (m & e & -> & Hb).
      change (Zdigits2 4503599627370496) with 53 in Hb.
      destruct (SFdiv_finite F64.prec F64.emax s false m mp e ep)
        as (mq & eq & Hq & _); [done | done | | |].
      * change (emin F64.prec F64.emax) with (-1074). change F64.prec with 53. lia.
      * change F64.emax with 1024. lia.
      * exists mq, eq. by rewrite xorb_false_r in Hq.
Qed.

(** X29. A counter that did not increase never yields a positive rate:
    for a positive period, each softirq rate and each of the four
    network rates of a sample whose counter is not above the older
    sample's (as a 64-bit difference) is not positive.  The rates are
    not clamped at zero: over the elapsed time of two time stamps that
    advance, a rate is zero when the counter stood still and otherwise a
    finite number of the sign of the counter difference, so a counter
    that was reset is reported with a negative rate, in the records of
    both samplers. *)
Theorem X29_rate_sign :
  (∀ period, gt0 period = true →
     (∀ c p, sub64 c p ≤ 0 → gt0 (CpuSoftIrqMonitor.rate c p period) = false) ∧
     (∀ cur old,
        (sub64 (NetMonitor.snd_bytes cur) (NetMonitor.snd_bytes old) ≤ 0 →
         gt0 (proto.NetInfo.send_rate (NetMonitor.rates cur old period)) = false) ∧
        (sub64 (NetMonitor.rcv_bytes cur) (NetMonitor.rcv_bytes old) ≤ 0 →
         gt0 (proto.NetInfo.rcv_rate (NetMonitor.rates cur old period)) = false) ∧
        (sub64 (NetMonitor.snd_packets cur) (NetMonitor.snd_packets old) ≤ 0 →
         gt0 (proto.NetInfo.send_packets_rate (NetMonitor.rates cur old period)) = false) ∧
        (sub64 (NetMonitor.rcv_packets cur) (NetMonitor.rcv_packets old) ≤ 0 →
         gt0 (proto.NetInfo.rcv_packets_rate (NetMonitor.rates cur old period)) = false))) ∧
  (∀ t1 t2 c p, 0 < sub64 t1 t2 →
     let rate := CpuSoftIrqMonitor.rate c p (Utils.SteadyTimeSecond t1 t2) in
     let kb_rate :=
       F64.div (F64.div (F64.of_Z (sub64 c p)) (F64.of_Z 1024))
               (Utils.SteadyTimeSecond t1 t2) in
     (sub64 c p = 0 → rate = S754_zero false ∧ kb_rate = S754_zero false) ∧
     (sub64 c p ≠ 0 →
      (∃ m e, rate = S754_finite (sub64 c p <? 0) m e) ∧
      (∃ m e, kb_rate = S754_finite (sub64 c p <? 0) m e)) ∧
     (sub64 c p < 0 →
      SFltb rate (S754_zero false) = true ∧ SFltb kb_rate (S754_zero false) = true)) ∧
  (∀ cur old msg,
     CpuSoftIrqMonitor.derive cur old = Some msg →
     (sub64 (CpuSoftIrqMonitor.hi cur) (CpuSoftIrqMonitor.hi old) < 0 →
      SFltb (proto.SoftIrq.hi msg) (S754_zero false) = true) ∧
     (sub64 (CpuSoftIrqMonitor.timer cur) (CpuSoftIrqMonitor.timer old) < 0 →
      SFltb (proto.SoftIrq.timer msg) (S754_zero false) = true) ∧
     (sub64 (CpuSoftIrqMonitor.net_tx cur) (CpuSoftIrqMonitor.net_tx old) < 0 →
      SFltb (proto.SoftIrq.net_tx msg) (S754_zero false) = true) ∧
     (sub64 (CpuSoftIrqMonitor.net_rx cur) (CpuSoftIrqMonitor.net_rx old) < 0 →
      SFltb (proto.SoftIrq.net_rx msg) (S754_zero false) = true) ∧
     (sub64 (CpuSoftIrqMonitor.block cur) (CpuSoftIrqMonitor.block old) < 0 →
      SFltb (proto.SoftIrq.block msg) (S754_zero false) = true) ∧
     (sub64 (CpuSoftIrqMonitor.irq_poll cur) (CpuSoftIrqMonitor.irq_poll old) < 0 →
      SFltb (proto.SoftIrq.irq_poll msg) (S754_zero false) = true) ∧
     (sub64 (CpuSoftIrqMonitor.tasklet cur) (CpuSoftIrqMonitor.tasklet old) < 0 →
      SFltb (proto.SoftIrq.tasklet msg) (S754_zero false) = true) ∧
     (sub64 (CpuSoftIrqMonitor.sched cur) (CpuSoftIrqMonitor.sched old) < 0 →
      SFltb (proto.SoftIrq.sched msg) (S754_zero false) = true) ∧
     (sub64 (CpuSoftIrqMonitor.hrtimer cur) (CpuSoftIrqMonitor.hrtimer old) < 0 →
      SFltb (proto.SoftIrq.hrtimer msg) (S754_zero false) = true) ∧
     (sub64 (CpuSoftIrqMonitor.rcu cur) (CpuSoftIrqMonitor.rcu old) < 0 →
      SFltb (proto.SoftIrq.rcu msg) (S754_zero false) = true)) ∧
  (∀ cur old msg,
     NetMonitor.derive cur old = Some msg →
     (sub64 (NetMonitor.snd_bytes cur) (NetMonitor.snd_bytes old) < 0 →
      SFltb (proto.NetInfo.send_rate msg) (S754_zero false) = true) ∧
     (sub64 (NetMonitor.rcv_bytes cur) (NetMonitor.rcv_bytes old) < 0 →
      SFltb (proto.NetInfo.rcv_rate msg) (S754_zero false) = true) ∧
     (sub64 (NetMonitor.snd_packets cur) (NetMonitor.snd_packets old) < 0 →
      SFltb (proto.NetInfo.send_packets_rate msg) (S754_zero false) = true) ∧
     (sub64 (NetMonitor.rcv_packets cur) (NetMonitor.rcv_packets old) < 0 →
      SFltb (proto.NetInfo.rcv_packets_rate msg) (S754_zero false) = true)).
Proof.
  assert (Hneg : ∀ t1 t2 c p, 0 < sub64 t1 t2 → sub64 c p < 0 →
            SFltb (F64.div (F64.of_Z (sub64 c p)) (Utils.SteadyTimeSecond t1 t2))
                  (S754_zero false) = true ∧
            SFltb (F64.div (F64.div (F64.of_Z (sub64 c p)) (F64.of_Z 1024))
                     (Utils.SteadyTimeSecond t1 t2)) (S754_zero false) = true).
  { intros t1 t2 c p Ht Hc.
    destruct (proj2 (rate_sign c p t1 t2 Ht) ltac:(lia)) as [(m & e & ->) (m' & e' & ->)].
    apply Z.ltb_lt in Hc. rewrite Hc. by split. }
  assert (Hadv : ∀ t1 t2, gt0 (Utils.SteadyTimeSecond t1 t2) = true → 0 < sub64 t1 t2).
  { intros t1 t2 Hgt. destruct (Z.lt_ge_cases 0 (sub64 t1 t2)) as [|Hle]; [done|].
    apply steady_time_nonpositive in Hle. congruence. }
  split; [|split; [|split]].
  - intros period Hperiod.
    assert (Hrate : ∀ d, d ≤ 0 → gt0 (F64.div (F64.of_Z d) period) = false).
    { intros d Hd. apply SFdiv_nonpositive; [by apply of_Z_nonpositive | done]. }
    assert (Hkb : ∀ d, d ≤ 0 →
              gt0 (F64.div (F64.div (F64.of_Z d) (F64.of_Z 1024)) period) = false).
    { intros d Hd. apply SFdiv_nonpositive; [|done].
      apply SFdiv_nonpositive; [by apply of_Z_nonpositive | done]. }
    split.
    + intros c p Hc. by apply Hrate.
    + intros cur old. simpl. repeat split; intros Hc; by (apply Hkb || apply Hrate).
  - intros t1 t2 c p Ht rate kb_rate. subst rate kb_rate.
    unfold CpuSoftIrqMonitor.rate.
    destruct (rate_sign c p t1 t2 Ht) as [Hzero Hsign]. split; [|split].
    + intros Hc. by apply Hzero.
    + intros Hc. by apply Hsign.
    + intros Hc. by apply Hneg.
  - intros cur old msg [Hgt ->]%softirq_derive_name. simpl.
    unfold CpuSoftIrqMonitor.rate.
    repeat split; intros Hc; apply Hneg; (by apply Hadv) || done.
  - intros cur old msg [Hgt ->]%net_derive_name. simpl.
    repeat split; intros Hc; apply Hneg; (by apply Hadv) || done.
Qed.

Lemma X29_rate_sign_witness :
  gt0 (CpuSoftIrqMonitor.rate 100 1100 (Utils.SteadyTimeSecond 5000000000 0)) = false ∧
  SFltb (CpuSoftIrqMonitor.rate 100 1100 (Utils.SteadyTimeSecond 5000000000 0))
        (S754_zero false) = true ∧
  CpuSoftIrqMonitor.rate 100 1100 (Utils.SteadyTimeSecond 5000000000 0) = F64.of_Z (-200).
Proof.
  split; [|split].
  - apply (proj1 (proj1 X29_rate_sign (Utils.SteadyTimeSecond 5000000000 0)
                    ltac:(vm_compute; reflexivity))).
    vm_compute. discriminate.
  - apply (proj1 (proj2 X29_rate_sign) 5000000000 0 100 1100).
    + vm_compute. reflexivity.
    + vm_compute. reflexivity.
  - vm_compute. reflexivity.
Defined.

(** ** The used percentage of the memory with a zero total *)

Lemma Zdigits2_shift (m : positive) (k : Z) :
  0 ≤ k → Zdigits2 (Z.pos m) + k ≤ Zdigits2 (Z.pos m * 2 ^ k).
Proof.
  intros Hk. destruct (Zdigits2_bounds (Z.pos m) ltac:(lia)) as [Hlow _].
  pose proof (Zdigits2_pos (Z.pos m) ltac:(lia)) as Hpos.
  assert (0 < 2 ^ k) as Hpow by (apply Z.pow_pos_nonneg; lia).
  assert (Zdigits2 (Z.pos m) - 1 + k < Zdigits2 (Z.pos m * 2 ^ k)); [|lia].
  apply Zdigits2_lower; [lia|].
  rewrite Z.pow_add_r by lia. by apply Z.mul_le_mono_nonneg_r; [lia|].
Qed.

(** A 64-bit integer that is not zero, as a double multiplied by 1.0:
    an infinity or a finite number, of the sign of the integer. *)
Lemma times_one_sign (s : bool) (d : positive) :
  Z.pos d ≤ 2 ^ 63 →
  F64.mul (F64.of_Z (cond_Zopp s (Z.pos d))) (F64.of_Z 1) = S754_infinity s ∨
  ∃ m e, F64.mul (F64.of_Z (cond_Zopp s (Z.pos d))) (F64.of_Z 1) = S754_finite s m e.
Proof.
  intros Hd. destruct (F64_of_Z_finite s d Hd) as (m & e & -> & Hb).
  assert (F64.of_Z 1 = S754_finite false 4503599627370496 (-52)) as ->
    by (vm_compute; reflexivity).
  unfold F64.mul, SFmul. rewrite xorb_false_r.
  pose proof (binary_round_aux_sign F64.prec F64.emax s
                (Z.pos (m * 4503599627370496)) (e + -52) loc_Exact) as Hsign.
  assert (0 < Zdigits2 (Z.pos (m * 4503599627370496)) + (e + -52) - emin F64.prec F64.emax)
    as Hmag.
  { pose proof (Zdigits2_shift m 52 ltac:(lia)) as Hs.
    change (2 ^ 52) with 4503599627370496 in Hs. rewrite <- Pos2Z.inj_mul in Hs.
    change (emin F64.prec F64.emax) with (-1074). lia. }
  destruct (binary_round_aux_positive F64.prec F64.emax
              (Z.pos (m * 4503599627370496)) (e + -52) loc_Exact ltac:(done) ltac:(lia)
              ltac:(lia)) as [Hinf | (mq & eq & Hfin & _)].
  - destruct s; [|by left].
    unfold binary_round_aux in *.
    destruct (shr_fexp _ _ _ _ _) as [mrs' e']. 
    destruct (shr_fexp _ _ _ e' loc_Exact) as [mrs'' e''].
    destruct (shr_m mrs''); [done| |done].
    destruct (e'' <=? F64.emax - F64.prec); [done | by left].
  - destruct s; [|right; by exists mq, eq].
    unfold binary_round_aux in *.
    destruct (shr_fexp _ _ _ _ _) as [mrs' e']. 
    destruct (shr_fexp _ _ _ e' loc_Exact) as [mrs'' e''].
    destruct (shr_m mrs'') as [|mm|mm]; [done| |done].
    destruct (e'' <=? F64.emax - F64.prec); [|done].
    right. by exists mm, e''.
Qed.

(** The 64-bit difference [0 - avail] is zero only for [avail = 0], when
    [avail] is a 64-bit integer. *)
Lemma sub64_zero_iff (avail : Z) :
  LLONG_MIN ≤ avail ≤ LLONG_MAX → sub64 0 avail = 0 ↔ avail = 0.
Proof.
  unfold sub64, wrap64, LLONG_MIN, LLONG_MAX. intros Hrange. split; [|by intros ->].
  intros H. destruct (decide (avail = - 2 ^ 63)) as [->|Hne]; [done|].
  rewrite Z.mod_small in H by lia. lia.
Qed.

(** X30. The memory sampler divides by the total without a guard: when
    the total it holds after the loop is zero (the source reported zero,
    or has no [MemTotal:] record and the member held zero), the used
    percentage of the snapshot is not a number: it is NaN when the
    64-bit difference between the total and the available memory is zero,
    that is, for an available memory that fits in 64 bits, when the
    available memory is zero too; and otherwise an infinity, of the sign
    of that difference (negative for a positive available memory). *)
Theorem X30_used_percent_zero_total :
  (∀ m, MemMonitor.total m = 0 →
        MemMonitor.used_percent m = S754_nan ∨
        ∃ s, MemMonitor.used_percent m = S754_infinity s) ∧
  (∀ m, MemMonitor.total m = 0 → MemMonitor.avail m = 0 →
        MemMonitor.used_percent m = S754_nan) ∧
  (∀ m, MemMonitor.total m = 0 →
        (sub64 0 (MemMonitor.avail m) = 0 → MemMonitor.used_percent m = S754_nan) ∧
        (sub64 0 (MemMonitor.avail m) ≠ 0 →
         MemMonitor.used_percent m = S754_infinity (sub64 0 (MemMonitor.avail m) <? 0))) ∧
  (∀ m, MemMonitor.total m = 0 →
        LLONG_MIN ≤ MemMonitor.avail m ≤ LLONG_MAX → MemMonitor.avail m ≠ 0 →
        ∃ s, MemMonitor.used_percent m = S754_infinity s ∧
             (0 < MemMonitor.avail m → s = true)) ∧
  (∀ fs uninit mi mi' mem_info,
     MemMonitor.UpdateOnce fs uninit mi = Ok mi' →
     MemMonitor.loop (ReadFile.ReadAll (ReadFile.open fs MemMonitor.path)) uninit
       = Ok mem_info →
     MemMonitor.total mem_info = 0 →
     ∃ msg, proto.mem_info mi' = Some msg ∧
       (proto.MemInfo.used_percent msg = S754_nan ∨
        ∃ s, proto.MemInfo.used_percent msg = S754_infinity s) ∧
       (LLONG_MIN ≤ MemMonitor.avail mem_info ≤ LLONG_MAX →
        MemMonitor.avail mem_info ≠ 0 →
        ∃ s, proto.MemInfo.used_percent msg = S754_infinity s)).
Proof.
  assert (H100 : F64.of_Z 100 = S754_finite false 7036874417766400 (-46))
    by (vm_compute; reflexivity).
  assert (H0 : ∀ m, MemMonitor.total m = 0 →
            MemMonitor.used_percent m = S754_nan ∨
            ∃ s, MemMonitor.used_percent m = S754_infinity s).
  { intros m Ht. unfold MemMonitor.used_percent. rewrite Ht.
    change (F64.of_Z 0) with (S754_zero false). rewrite H100.
    destruct (F64.mul _ (F64.of_Z 1)) as [s|s| |s mm ee]; simpl; eauto. }
  assert (Hsign : ∀ m, MemMonitor.total m = 0 →
            (sub64 0 (MemMonitor.avail m) = 0 → MemMonitor.used_percent m = S754_nan) ∧
            (sub64 0 (MemMonitor.avail m) ≠ 0 →
             MemMonitor.used_percent m
               = S754_infinity (sub64 0 (MemMonitor.avail m) <? 0))).
  { intros m Ht. unfold MemMonitor.used_percent. rewrite Ht. split.
    - intros ->. vm_compute. reflexivity.
    - intros Hne.
      pose proof (wrap64_range (0 - MemMonitor.avail m)) as Hrange.
      fold (sub64 0 (MemMonitor.avail m)) in Hrange.
      assert (∃ s d, sub64 0 (MemMonitor.avail m) = cond_Zopp s (Z.pos d)
                     ∧ Z.pos d ≤ 2 ^ 63
                     ∧ (sub64 0 (MemMonitor.avail m) <? 0) = s)
        as (s & d & -> & Hd & ->).
      { destruct (sub64 0 (MemMonitor.avail m)) as [|d|d]; [done| |].
        - exists false, d. split; [done|]. split; [lia|done].
        - exists true, d. split; [done|]. split; [lia|done]. }
      change (F64.of_Z 0) with (S754_zero false). rewrite H100.
      destruct (times_one_sign s d Hd) as [-> | (mm & ee & ->)];
        simpl; by rewrite !xorb_false_r. }
  split; [exact H0|]. split; [|split; [exact Hsign|split]].
  - intros m Ht Ha. unfold MemMonitor.used_percent. rewrite Ht, Ha.
    vm_compute. reflexivity.
  - intros m Ht Hrange Hne.
    destruct (Hsign m Ht) as [_ Hinf].
    eexists. split.
    + apply Hinf. by rewrite sub64_zero_iff.
    + intros Hpos. apply Z.ltb_lt.
      rewrite sub64_exact by (unfold LLONG_MIN, LLONG_MAX in *; lia). lia.
  - intros fs uninit mi mi' mem_info Hrun Hloop Ht.
    unfold MemMonitor.UpdateOnce in Hrun. rewrite Hloop in Hrun. simpl in Hrun.
    injection Hrun as <-. eexists. split; [reflexivity|]. simpl. split; [by apply H0|].
    intros Hrange Hne. destruct (Hsign mem_info Ht) as [_ Hinf].
    eexists. apply Hinf. by rewrite sub64_zero_iff.
Qed.

Lemma X30_used_percent_zero_total_witness :
  (∃ mi' msg,
     MemMonitor.UpdateOnce ∅ mem_zero proto.empty = Ok mi' ∧
     proto.mem_info mi' = Some msg ∧ proto.MemInfo.used_percent msg = S754_nan) ∧
  MemMonitor.used_percent
    (MemMonitor.of_members
       (λ f, if decide (f = MemMonitor.m_avail) then 8000000 else 0))
    = S754_infinity true.
Proof.
  destruct X30_used_percent_zero_total as (_ & _ & Hsign & _ & Hrun).
  split.
  - destruct (MemMonitor.UpdateOnce ∅ mem_zero proto.empty) as [mi'| |] eqn:Hcall;
      [|vm_compute in Hcall; discriminate Hcall ..].
    destruct (Hrun ∅ mem_zero proto.empty mi' mem_zero Hcall eq_refl eq_refl)
      as (msg & Hmsg & Hp & _).
    exists mi', msg. split; [reflexivity|]. split; [exact Hmsg|].
    vm_compute in Hcall. injection Hcall as <-. injection Hmsg as <-. reflexivity.
  - set (m := MemMonitor.of_members
                (λ f, if decide (f = MemMonitor.m_avail) then 8000000 else 0)).
    rewrite (proj2 (Hsign m eq_refl)); [reflexivity|].
    vm_compute. discriminate.
Defined.
